(** * ACDynamicLoad: device communication and polling subsystem

    Shallow embedding of
      - src/electron/lib/scpiHelper.ts  (module [Scpi]),
      - src/electron/lib/pollHelper.ts  (module [PollHelper]),
      - the SCPI handlers of src/electron/index.ts (module [Index]),
      - src/electron/lib/logging.ts     (module [Logging]),
      - src/svelte/lib/tab.ts           (module [Tab]),
    followed by the properties established about them.

    Numbers.  The values cached by pollHelper.ts are JavaScript numbers
    ([Js.number]): a finite value, read as the rational it denotes, NaN or an
    infinity; [Math.round] and the comparisons are exact on them.  The
    arguments of the SCPI operations are finite and read as rationals.
    [defineVoltageCurrent] is embedded in binary64 arithmetic
    ([Scpi.defineVoltageCurrent_binary64]); its reading over the rationals
    ([Scpi.defineVoltageCurrent]) is kept beside it. *)

From Stdlib Require Import QArith Qround Qabs Lqa ZArith Ascii String List DecimalString.
From Stdlib Require Import Floats Uint63.
From stdpp Require Import gmap strings list fin_maps.

#[local] Set Warnings "-inexact-float".

Local Open Scope string_scope.

(** ** Builtins of the language used by the sources *)
Module Js.

(** A JavaScript number: a finite value, read as the rational it denotes,
    NaN, or an infinity. *)
Inductive number :=
| Finite (q : Q)
| NaN
| Infinity
| NegInfinity.

(** [Math.round] on a finite value: nearest integer, ties towards plus
    infinity. *)
Definition round_half_up (x : Q) : Q := inject_Z (Qfloor (x + (1 # 2))).

(** [Math.round]: NaN and the infinities come back as they are. *)
Definition Math_round (x : number) : number :=
  match x with
  | Finite q => Finite (round_half_up q)
  | _ => x
  end.

(** [a < b]: false as soon as an operand is NaN. *)
Definition number_lt (a b : number) : bool :=
  match a, b with
  | NaN, _ | _, NaN => false
  | Finite x, Finite y => if Qlt_le_dec x y then true else false
  | NegInfinity, NegInfinity => false
  | NegInfinity, _ => true
  | _, NegInfinity => false
  | Infinity, _ => false
  | Finite _, Infinity => true
  end.

(** [a <= b]: false as soon as an operand is NaN. *)
Definition number_le (a b : number) : bool :=
  match a, b with
  | NaN, _ | _, NaN => false
  | Finite x, Finite y => if Qlt_le_dec y x then false else true
  | NegInfinity, _ => true
  | _, Infinity => true
  | _, NegInfinity => false
  | Infinity, Finite _ => false
  end.

(** [Math.abs]. *)
Definition Math_abs (x : Q) : Q := Qabs x.



Definition string_of_N (n : N) : string := NilZero.string_of_uint (N.to_uint n).

(** Decimal digits of the fraction [r / d] (with [r < d]), at most [fuel]. *)
Fixpoint frac_digits (fuel : nat) (r d : Z) : string :=
  match fuel with
  | O => ""
  | S fuel' =>
      if (r =? 0)%Z then ""
      else string_of_N (Z.to_N (r * 10 / d)) +:+ frac_digits fuel' ((r * 10) mod d) d
  end.

(** Number of decimal digits of a whole number above zero. *)
Definition decimal_length (z : Z) : Z :=
  Z.of_nat (String.length (string_of_N (Z.to_N z))).

Fixpoint zeros (n : nat) : string :=
  match n with
  | O => ""
  | S n' => String "0" (zeros n')
  end.

(** [Number::toString] (radix 10) on a finite value.  With [n] the place of
    the decimal point after the first significant digit and [k] the number
    of significant digits: the digits followed by zeros when [k <= n <= 21],
    the digits with the point inside when [0 < n <= 21], 0. and zeros
    before the digits when [-6 < n <= 0], and the exponent form (as in 1e-7
    and 1e+21) otherwise.  The digits are those of the decimal expansion of
    the value, cut after 21; for a double that is a short decimal these are
    the digits the language prints. *)
Definition Number_toString (q : Q) : string :=
  let a := Z.abs (Qnum q) in
  let d := Zpos (Qden q) in
  if (a =? 0)%Z then "0"
  else
    let n :=
      if (d <=? a)%Z then decimal_length (a / d)
      else
        let j := (decimal_length d - decimal_length a)%Z in
        if (d <=? a * 10 ^ j)%Z then (1 - j)%Z else (- j)%Z in
    (* the magnitude scaled to lie from 1 up to 10 *)
    let num := if (1 <=? n)%Z then a else (a * 10 ^ (1 - n))%Z in
    let den := if (1 <=? n)%Z then (d * 10 ^ (n - 1))%Z else d in
    let lead := string_of_N (Z.to_N (num / den)) in
    let rest := frac_digits 20 (num mod den) den in
    let k := Z.of_nat (String.length (lead +:+ rest)) in
    (if (Qnum q <? 0)%Z then "-" else "")
      +:+ (if ((21 <? n)%Z || (n <=? -6)%Z)%bool then
             lead +:+ (if String.eqb rest "" then "" else "." +:+ rest)
               +:+ "e" +:+ (if (1 <=? n)%Z then "+" else "-")
               +:+ string_of_N (Z.to_N (Z.abs (n - 1)))
           else if (k <=? n)%Z then lead +:+ rest +:+ zeros (Z.to_nat (n - k))
           else if (0 <? n)%Z then
             String.substring 0 (Z.to_nat n) (lead +:+ rest)
               +:+ "." +:+ String.substring (Z.to_nat n) (Z.to_nat (k - n)) (lead +:+ rest)
           else "0." +:+ zeros (Z.to_nat (- n)) +:+ lead +:+ rest).

Arguments Number_toString : simpl never.

(** [Number::toString] (radix 10) on a number. *)
Definition number_toString (x : number) : string :=
  match x with
  | Finite q => Number_toString q
  | NaN => "NaN"
  | Infinity => "Infinity"
  | NegInfinity => "-Infinity"
  end.

(** Values that cross the IPC boundary as properties of an [args] object. *)
Inductive jsval :=
| JUndefined
| JBool (b : bool)
| JNum (q : Q)
| JStr (s : string).

(** [args.k]: a missing property reads as [undefined]. *)
Definition get_prop (o : gmap string jsval) (k : string) : jsval :=
  default JUndefined (o !! k).

(** [ToString], as applied by a template literal. *)
Definition ToString (v : jsval) : string :=
  match v with
  | JUndefined => "undefined"
  | JBool true => "true"
  | JBool false => "false"
  | JNum q => Number_toString q
  | JStr s => s
  end.

(** [v === true]. *)
Definition strict_eq_true (v : jsval) : bool :=
  match v with JBool true => true | _ => false end.

(** Texts are sequences of bytes, in UTF-8.  White space and line
    terminators of the language that take one byte: TAB, LF, VT, FF, CR and
    the space. *)
Definition is_ws (c : ascii) : bool :=
  let n := nat_of_ascii c in
  (n =? 32)%nat || ((9 <=? n)%nat && (n <=? 13)%nat).

(** U+00A0, two bytes. *)
Definition is_ws2 (c1 c2 : ascii) : bool :=
  (nat_of_ascii c1 =? 194)%nat && (nat_of_ascii c2 =? 160)%nat.

(** Those that take three bytes: U+1680, U+2000 to U+200A, U+2028, U+2029,
    U+202F, U+205F, U+3000 and U+FEFF. *)
Definition is_ws3 (c1 c2 c3 : ascii) : bool :=
  let a := nat_of_ascii c1 in
  let b := nat_of_ascii c2 in
  let c := nat_of_ascii c3 in
  ((a =? 225)%nat && (b =? 154)%nat && (c =? 128)%nat)
  || ((a =? 226)%nat && (b =? 128)%nat
      && (((128 <=? c)%nat && (c <=? 138)%nat)
          || (c =? 168)%nat || (c =? 169)%nat || (c =? 175)%nat))
  || ((a =? 226)%nat && (b =? 129)%nat && (c =? 159)%nat)
  || ((a =? 227)%nat && (b =? 128)%nat && (c =? 128)%nat)
  || ((a =? 239)%nat && (b =? 187)%nat && (c =? 191)%nat).

(** White space removed from the front of a text; with [backwards] the text
    is one read from its end, so each character comes last byte first. *)
Fixpoint strip (backwards : bool) (s : string) : string :=
  match s with
  | EmptyString => EmptyString
  | String c1 s1 =>
      if is_ws c1 then strip backwards s1
      else
        match s1 with
        | EmptyString => s
        | String c2 s2 =>
            if (if backwards then is_ws2 c2 c1 else is_ws2 c1 c2)
            then strip backwards s2
            else
              match s2 with
              | EmptyString => s
              | String c3 s3 =>
                  if (if backwards then is_ws3 c3 c2 c1 else is_ws3 c1 c2 c3)
                  then strip backwards s3
                  else s
              end
        end
  end.

Definition rev_string (s : string) : string :=
  string_of_list_ascii (rev (list_ascii_of_string s)).

(** [String.prototype.trim]. *)
Definition trim (s : string) : string :=
  rev_string (strip true (rev_string (strip false s))).

(** [s.replace(/[:.]/g, '-')]. *)
Fixpoint replace_colon_dot (s : string) : string :=
  match s with
  | EmptyString => EmptyString
  | String c s' =>
      String (if (Ascii.eqb c ":" || Ascii.eqb c ".")%bool then "-"%char else c)
             (replace_colon_dot s')
  end.

(** [s.slice(0, n)] for a non-negative [n]. *)
Definition slice0 (n : nat) (s : string) : string := String.substring 0 n s.

(** [s.includes(t)]. *)
Fixpoint includes (t s : string) : bool :=
  String.prefix t s
  || match s with
     | EmptyString => false
     | String _ s' => includes t s'
     end.

(** [s.slice(-n)]: the last [n] units of [s], all of [s] when it is shorter. *)
Definition slice_last (n : nat) (s : string) : string :=
  String.substring (String.length s - n) n s.

(** [path.join(dir, name)] for a normalised [dir] and a plain file name. *)
Definition join (dir name : string) : string := dir +:+ "/" +:+ name.

(** What an awaited call does: it returns, it throws, or the awaited
    promise stays pending for ever. *)
Inductive outcome (A : Type) :=
| Returned (a : A)
| Threw (e : string)
| Never.
Arguments Returned {A} a.
Arguments Threw {A} e.
Arguments Never {A}.

End Js.
Import Js.

(** ** scpiHelper.ts *)
Module Scpi.

(** SCPI port, default is 5025. *)
Definition Port : Z := 5025.

(** The object [{ successful, msg }] a command resolves with. *)
Record Result := { successful : bool; msg : string }.

(** Events of a [net.Socket] that the helper listens to. *)
Inductive sock_event :=
| SockData (data : string)
| SockError (err : string).

(** The device behind a host name, as seen by one connection: whether the
    connection is refused; which calls of [client.write] throw, one entry
    for each write in order, none throwing once the list is used up; and
    the events the socket emits once it is connected, in the order of their
    arrival, each with its time in milliseconds since the connection was
    established. *)
Record Device := {
  connect_error : option string;
  write_errors : list (option string);
  traffic : list (nat * sock_event)
}.

(** One [net.Socket] in the course of an operation: the lines written so
    far, what the writes to come will do, the events not yet emitted, the
    time since the connection was established, and whether [end()] was
    called.  An event stays in [incoming] until a command receives it.
    Each event is emitted in a turn of the event loop of its own, so the
    caller resumed by one event has sent its next command before the next
    event is emitted.  The socket is followed as far as the operation that
    opened it goes, that is until [end()]; the object a command resolves
    with is taken with the content it has at that moment. *)
Record Socket := {
  written : list string;
  faults : list (option string);
  incoming : list (nat * sock_event);
  clock : nat;
  ended : bool
}.

(** State of the promise built by [sendCommand]. *)
Inductive promise :=
| Pending
| Resolved (r : Result)
| Rejected (e : string).

(** The executor of [sendCommand]: its local [result] object, the promise,
    the armed timer and the two [once] listeners. *)
Record Executor := {
  result : Result;
  settled : promise;
  timeout : bool;
  onData : bool;
  onError : bool
}.

(** [resolve(result)]: a promise settles once. *)
Definition resolve (x : Executor) : Executor :=
  match settled x with
  | Pending =>
      {| result := result x; settled := Resolved (result x);
         timeout := timeout x; onData := onData x; onError := onError x |}
  | _ => x
  end.

(** [reject(err)]. *)
Definition reject (e : string) (x : Executor) : Executor :=
  match settled x with
  | Pending =>
      {| result := result x; settled := Rejected e;
         timeout := timeout x; onData := onData x; onError := onError x |}
  | _ => x
  end.

(** The callback of [setTimeout(..., 1000)]. *)
Definition fire_timeout (x : Executor) : Executor :=
  if timeout x then
    resolve {| result := {| successful := true; msg := "no data recieved" |};
               settled := settled x; timeout := false;
               onData := onData x; onError := onError x |}
  else x.

(** Delivery of one socket event to the [once] listeners. *)
Definition dispatch (x : Executor) (ev : nat * sock_event) : Executor :=
  match snd ev with
  | SockData data =>
      if onData x then
        (* clearTimeout(timeout); result.successful = true;
           result.msg = data.toString().trim(); resolve(result) *)
        resolve {| result := {| successful := true; msg := trim data |};
                   settled := settled x; timeout := false;
                   onData := false; onError := onError x |}
      else x
  | SockError err =>
      if onError x then
        reject err {| result := result x; settled := settled x;
                      timeout := timeout x; onData := onData x;
                      onError := false |}
      else x
  end.

Definition arrives_before (ms : nat) (ev : nat * sock_event) : bool :=
  (fst ev <? ms)%nat.

(** What the next [client.write] does. *)
Definition next_fault (client : Socket) : option string :=
  match faults client with
  | fault :: _ => fault
  | [] => None
  end.

(** The event a command called now gets to see: the next one the socket
    emits, when that happens before the timer of the command, armed for
    1000 ms from now, fires (an event due at the very millisecond of the
    timer is taken to come after it).  Whatever the socket emits, the
    listeners of the command waiting at that moment receive it, also when
    it answers an earlier command. *)
Definition next_event (client : Socket) : option (nat * sock_event) :=
  match incoming client with
  | ev :: _ => if arrives_before (clock client + 1000) ev then Some ev else None
  | [] => None
  end.

(** The body of [sendCommand]: timer and listeners are installed and the
    command is written, which may throw; then the next event of the socket,
    if one comes in time, reaches the listeners; a timer still armed
    fires. *)
Definition run_executor (fault : option string) (first : option (nat * sock_event))
  : Executor :=
  let x0 := {| result := {| successful := false; msg := "" |};
               settled := Pending; timeout := true;
               onData := true; onError := true |} in
  let x1 := match fault with
            | Some e => reject e x0
            | None => x0
            end in
  let x2 := match first with
            | Some ev => dispatch x1 ev
            | None => x1
            end in
  fire_timeout x2.

(** The promise as the awaiting caller finds it. *)
Definition await_promise (p : promise) : outcome Result :=
  match p with
  | Resolved r => Returned r
  | Rejected e => Threw e
  | Pending => Never
  end.

(** [await sendCommand(client, command)].  The caller resumes as soon as
    the promise settles: at once when the write throws, at the arrival of
    the event that settles it, or when the timer fires.  An event that did
    not arrive by then stays on the socket for the command that follows;
    the listeners left behind by earlier commands receive it too, but
    their promises are settled. *)
Definition sendCommand (command : string) (client : Socket)
  : outcome Result * Socket :=
  let fault := next_fault client in
  let first := match fault with
               | Some _ => None
               | None => next_event client
               end in
  (await_promise (settled (run_executor fault first)),
   {| written := match fault with
                 | None => written client ++ [command +:+ String "010" ""]
                 | Some _ => written client
                 end;
      faults := tail (faults client);
      incoming := match first with
                  | Some _ => tail (incoming client)
                  | None => incoming client
                  end;
      clock := match fault, first with
               | Some _, _ => clock client
               | None, Some ev => Nat.max (clock client) (fst ev)
               | None, None => clock client + 1000
               end;
      ended := ended client |}).

Definition client_end (client : Socket) : Socket :=
  {| written := written client; faults := faults client;
     incoming := incoming client; clock := clock client; ended := true |}.

(** [await createClient(host)]: connect, then probe with [*IDN?].  The
    second component is the socket as the call leaves it. *)
Definition createClient (dev : Device) : outcome unit * Socket :=
  let client := {| written := []; faults := write_errors dev;
                   incoming := traffic dev; clock := 0; ended := false |} in
  match connect_error dev with
  | Some err => (Threw err, client)
  | None =>
      match sendCommand "*IDN?" client with
      | (Returned _, client') => (Returned tt, client')
      | (Threw e, client') =>
          (* a socket error reaches the listener of createClient first;
             a throwing write is reported as a failed identification *)
          (Threw (match next_fault client with
                  | Some _ => "Failed to retrieve device ID"
                  | None => e
                  end),
           client_end client')
      | (Never, client') => (Never, client')
      end
  end.

(** Commands of one logical operation, run on its client. *)
Definition M (A : Type) : Type := Socket -> outcome A * Socket.

Definition ret {A} (a : A) : M A := fun client => (Returned a, client).

Definition bind {A B} (m : M A) (f : A -> M B) : M B :=
  fun client =>
    match m client with
    | (Returned a, client') => f a client'
    | (Threw e, client') => (Threw e, client')
    | (Never, client') => (Never, client')
    end.

Notation "x <- m ;; k" := (bind m (fun x => k))
  (at level 100, m at next level, right associativity).
Notation "m ;;; k" := (bind m (fun _ => k))
  (at level 100, right associativity).

(** The frame shared by every exported operation:
    [try { client = await createClient(host); body }
     catch (err) { throw err } finally { if (client) client.end() }]. *)
Definition with_client {A} (dev : Device) (body : M A) : outcome A * Socket :=
  match createClient dev with
  | (Returned _, client) =>
      match body client with
      | (Never, client') => (Never, client')
      | (o, client') => (o, client_end client')
      end
  | (Threw e, client) => (Threw e, client)
  | (Never, client) => (Never, client)
  end.

Record VoltagePriorityArgs := {
  vp_HostIp : string;
  OutputVoltageLimitCV : Q;
  OutputCurrentLimitCV : Q
}.

Definition setVoltagePriorityMode (net : string -> Device) (args : VoltagePriorityArgs)
  : outcome unit * Socket :=
  let maxCurrent := Math_abs (OutputCurrentLimitCV args) in
  let minCurrent := - Math_abs (OutputCurrentLimitCV args) in
  with_client (net (vp_HostIp args))
    (sendCommand "SOUR:FUNC VOLT" ;;;
     sendCommand ("SOUR:CURR:LIM:POS:IMM:AMPL " +:+ Number_toString maxCurrent) ;;;
     sendCommand ("SOUR:CURR:LIM:NEG:IMM:AMPL " +:+ Number_toString minCurrent) ;;;
     sendCommand ("SOUR:VOLT:LEV:IMM:AMPL " +:+ Number_toString (OutputVoltageLimitCV args)) ;;;
     ret tt).

Record CurrentPriorityArgs := {
  cp_HostIp : string;
  OutputCurrentLimitCC : Q;
  OutputVoltageLimitCC : Q
}.

Definition setCurrentPriorityMode (net : string -> Device) (args : CurrentPriorityArgs)
  : outcome unit * Socket :=
  let minCurrent := Math_abs (OutputCurrentLimitCC args) in
  with_client (net (cp_HostIp args))
    (sendCommand "SOUR:FUNC CURR" ;;;
     sendCommand ("SOUR:CURR " +:+ Number_toString minCurrent) ;;;
     sendCommand ("SOUR:VOLT:LIM:POS:IMM:AMPL " +:+ Number_toString (OutputVoltageLimitCC args)) ;;;
     ret tt).

(** [setCurrentSetPoint(args)]; [args] is the object received over IPC. *)
Definition setCurrentSetPoint (net : string -> Device) (args : gmap string jsval)
  : outcome unit * Socket :=
  with_client (net (ToString (get_prop args "HostIp")))
    (sendCommand ("SOUR:CURR " +:+ ToString (get_prop args "CurrentSetPoint")) ;;;
     ret tt).

(** [getSinkPowerValue(args)]. *)
Definition getSinkPowerValue (net : string -> Device) (HostIp : string)
  : outcome Result * Socket :=
  with_client (net HostIp)
    (powerinW <- sendCommand "MEAS:POW?" ;;
     (* powerinW.successful = true; return powerinW *)
     ret {| successful := true; msg := msg powerinW |}).

(** [setOutput(args)]; [args] is the object received over IPC. *)
Definition setOutput (net : string -> Device) (args : gmap string jsval)
  : outcome unit * Socket :=
  with_client (net (ToString (get_prop args "HostIp")))
    ((if strict_eq_true (get_prop args "OutputState")
      then sendCommand "OUTP ON"
      else sendCommand "OUTP OFF") ;;;
     ret tt).



Definition setGroupMode (net : string -> Device) (HostIp Group : string)
  : outcome unit * Socket :=
  with_client (net HostIp)
    (sendCommand ("INST:GRO:FUNC " +:+ Group) ;;; ret tt).

End Scpi.

(** ** pollHelper.ts *)
Module PollHelper.

(** [const functionGlobals] (its field [reset] is never read). *)
Record FunctionGlobals := {
  intervalActive : bool;
  powerValue : number;
  voltageValue : number;
  currentValue : number
}.

(** Where a call of [startPollingCDS] is suspended. *)
Inductive stage :=
| AwaitCleanup   (* await new Promise(resolve => setTimeout(resolve, 100)) *)
| AwaitVoltage   (* await measuredVoltageL1(...) *)
| AwaitPower     (* await read_P_real(...) *)
| AwaitCurrent   (* await measuredCurrentL1(...) *)
| Finished.

Record Invocation := {
  inv_ip : string;
  inv_intervalMs : nat;
  inv_stage : stage
}.

(** What the module state lives in: the CDS clients constructed so far
    ([true] while not disconnected), the calls of [startPollingCDS], the
    pending [setTimeout] reschedules, the variable [SinkPowerValue] of each
    [setInterval] callback, the callbacks awaiting [getSinkPowerValue]
    (by closure), the files with their content, the paths that cannot be
    written at present (each with the error a write to it throws) and the
    clock.  The files change through the writes of this module only, and
    [logging] (electron-log) is taken not to throw. *)
Record Runtime := {
  connections : list bool;
  invocations : list Invocation;
  timeouts : list (string * nat);
  closures : list Scpi.Result;
  ticks : list nat;
  files : gmap string string;
  denied : gmap string string;
  now : string;
  storagePath : string
}.

(** The module-level variables. *)
Record State := {
  functionGlobals : FunctionGlobals;
  sinkPowerInterval : option nat;
  lastSinkPReal : option Scpi.Result;
  adapter : option nat;
  csvLoggingEnabled : bool;
  csvFilePath : string;
  runtime : Runtime
}.

(** The state at module load; [storage] is [storagePath] of globalpaths.ts,
    which depends on the home directory. *)
Definition init (storage : string) : State :=
  {| functionGlobals := {| intervalActive := false; powerValue := Finite 0;
                           voltageValue := Finite 0; currentValue := Finite 0 |};
     sinkPowerInterval := None;
     lastSinkPReal := None;
     adapter := None;
     csvLoggingEnabled := false;
     csvFilePath := "";
     runtime := {| connections := []; invocations := []; timeouts := [];
                   closures := []; ticks := []; files := ∅; denied := ∅;
                   now := ""; storagePath := storage |} |}.

(** *** Field updates *)

Definition with_globals (f : FunctionGlobals -> FunctionGlobals) (s : State) : State :=
  {| functionGlobals := f (functionGlobals s);
     sinkPowerInterval := sinkPowerInterval s; lastSinkPReal := lastSinkPReal s;
     adapter := adapter s; csvLoggingEnabled := csvLoggingEnabled s;
     csvFilePath := csvFilePath s; runtime := runtime s |}.

Definition with_runtime (f : Runtime -> Runtime) (s : State) : State :=
  {| functionGlobals := functionGlobals s;
     sinkPowerInterval := sinkPowerInterval s; lastSinkPReal := lastSinkPReal s;
     adapter := adapter s; csvLoggingEnabled := csvLoggingEnabled s;
     csvFilePath := csvFilePath s; runtime := f (runtime s) |}.

Definition set_intervalActive (b : bool) : State -> State :=
  with_globals (fun g =>
    {| intervalActive := b; powerValue := powerValue g;
       voltageValue := voltageValue g; currentValue := currentValue g |}).

Definition set_powerValue (v : number) : State -> State :=
  with_globals (fun g =>
    {| intervalActive := intervalActive g; powerValue := v;
       voltageValue := voltageValue g; currentValue := currentValue g |}).

Definition set_voltageValue (v : number) : State -> State :=
  with_globals (fun g =>
    {| intervalActive := intervalActive g; powerValue := powerValue g;
       voltageValue := v; currentValue := currentValue g |}).

Definition set_currentValue (v : number) : State -> State :=
  with_globals (fun g =>
    {| intervalActive := intervalActive g; powerValue := powerValue g;
       voltageValue := voltageValue g; currentValue := v |}).

Definition set_sinkPowerInterval (h : option nat) (s : State) : State :=
  {| functionGlobals := functionGlobals s;
     sinkPowerInterval := h; lastSinkPReal := lastSinkPReal s;
     adapter := adapter s; csvLoggingEnabled := csvLoggingEnabled s;
     csvFilePath := csvFilePath s; runtime := runtime s |}.

Definition set_lastSinkPReal (v : option Scpi.Result) (s : State) : State :=
  {| functionGlobals := functionGlobals s;
     sinkPowerInterval := sinkPowerInterval s; lastSinkPReal := v;
     adapter := adapter s; csvLoggingEnabled := csvLoggingEnabled s;
     csvFilePath := csvFilePath s; runtime := runtime s |}.

Definition set_adapter (a : option nat) (s : State) : State :=
  {| functionGlobals := functionGlobals s;
     sinkPowerInterval := sinkPowerInterval s; lastSinkPReal := lastSinkPReal s;
     adapter := a; csvLoggingEnabled := csvLoggingEnabled s;
     csvFilePath := csvFilePath s; runtime := runtime s |}.

Definition set_csv (enabled : bool) (path : string) (s : State) : State :=
  {| functionGlobals := functionGlobals s;
     sinkPowerInterval := sinkPowerInterval s; lastSinkPReal := lastSinkPReal s;
     adapter := adapter s; csvLoggingEnabled := enabled;
     csvFilePath := path; runtime := runtime s |}.

Definition set_connections (l : list bool) : State -> State :=
  with_runtime (fun r =>
    {| connections := l; invocations := invocations r; timeouts := timeouts r;
       closures := closures r; ticks := ticks r; files := files r;
       denied := denied r; now := now r; storagePath := storagePath r |}).

Definition set_invocations (l : list Invocation) : State -> State :=
  with_runtime (fun r =>
    {| connections := connections r; invocations := l; timeouts := timeouts r;
       closures := closures r; ticks := ticks r; files := files r;
       denied := denied r; now := now r; storagePath := storagePath r |}).

Definition set_timeouts (l : list (string * nat)) : State -> State :=
  with_runtime (fun r =>
    {| connections := connections r; invocations := invocations r; timeouts := l;
       closures := closures r; ticks := ticks r; files := files r;
       denied := denied r; now := now r; storagePath := storagePath r |}).

Definition set_closures (l : list Scpi.Result) : State -> State :=
  with_runtime (fun r =>
    {| connections := connections r; invocations := invocations r;
       timeouts := timeouts r; closures := l; ticks := ticks r; files := files r;
       denied := denied r; now := now r; storagePath := storagePath r |}).

Definition set_ticks (l : list nat) : State -> State :=
  with_runtime (fun r =>
    {| connections := connections r; invocations := invocations r;
       timeouts := timeouts r; closures := closures r; ticks := l; files := files r;
       denied := denied r; now := now r; storagePath := storagePath r |}).

Definition set_files (m : gmap string string) : State -> State :=
  with_runtime (fun r =>
    {| connections := connections r; invocations := invocations r;
       timeouts := timeouts r; closures := closures r; ticks := ticks r; files := m;
       denied := denied r; now := now r; storagePath := storagePath r |}).

Definition set_denied (m : gmap string string) : State -> State :=
  with_runtime (fun r =>
    {| connections := connections r; invocations := invocations r;
       timeouts := timeouts r; closures := closures r; ticks := ticks r;
       files := files r; denied := m; now := now r;
       storagePath := storagePath r |}).

Definition set_now (t : string) : State -> State :=
  with_runtime (fun r =>
    {| connections := connections r; invocations := invocations r;
       timeouts := timeouts r; closures := closures r; ticks := ticks r;
       files := files r; denied := denied r; now := t;
       storagePath := storagePath r |}).

(** *** File system calls

    A write to a path that cannot be written throws and leaves the files as
    they are; otherwise [writeFileSync] creates the file or replaces its
    content, and [appendFileSync] creates the file or adds to it. *)

Definition writeFileSync (path data : string) (s : State) : outcome unit * State :=
  match denied (runtime s) !! path with
  | Some err => (Threw err, s)
  | None => (Returned tt, set_files (<[path := data]> (files (runtime s))) s)
  end.

Definition appendFileSync (path data : string) (s : State) : outcome unit * State :=
  match denied (runtime s) !! path with
  | Some err => (Threw err, s)
  | None =>
      (Returned tt,
       set_files (<[path := default "" (files (runtime s) !! path) +:+ data]>
                    (files (runtime s))) s)
  end.

(** *** CSV logging *)

Definition header : string :=
  "Timestamp,CDS_Power_W,CDS_Voltage_V,CDS_Current_A,Sink_Power_W,Sink_Success"
    +:+ String "010" "".

Definition csv_file_name (iso : string) : string :=
  let timestamp := slice0 19 (replace_colon_dot iso) in
  "messwerte_" +:+ timestamp +:+ ".csv".

(** [csvFilePath] is assigned before the header is written. *)
Definition initializeCsvLogging (s : State) : outcome unit * State :=
  let path := join (storagePath (runtime s)) (csv_file_name (now (runtime s))) in
  writeFileSync path header (set_csv (csvLoggingEnabled s) path s).

(** [lastSinkPReal?.successful]. *)
Definition sink_successful (s : State) : bool :=
  match lastSinkPReal s with
  | Some r => Scpi.successful r
  | None => false
  end.

Definition logMeasurementToCsv (s : State) : State :=
  if negb (csvLoggingEnabled s) || String.eqb (csvFilePath s) "" then s
  else
    let timestamp := now (runtime s) in
    let sinkPower :=
      match lastSinkPReal s with
      | Some r => if Scpi.successful r then Scpi.msg r else ""
      | None => ""
      end in
    let sinkSuccess := if sink_successful s then "true" else "false" in
    let g := functionGlobals s in
    let csvLine :=
      timestamp +:+ "," +:+ number_toString (powerValue g)
        +:+ "," +:+ number_toString (voltageValue g)
        +:+ "," +:+ number_toString (currentValue g)
        +:+ "," +:+ sinkPower +:+ "," +:+ sinkSuccess +:+ String "010" "" in
    match appendFileSync (csvFilePath s) csvLine s with
    | (Returned _, s') => s'
    | (Threw _, s') => s'   (* catch (error) { console.error(...) } *)
    | (Never, s') => s'
    end.

(** The object returned by [startCsvLogging] and [stopCsvLogging]. *)
Record CsvReply := {
  success : bool;
  filePath : option string;
  message : option string
}.

(** [csvLoggingEnabled] is set before [initializeCsvLogging] runs; when the
    write of the header throws, so does [startCsvLogging]. *)
Definition startCsvLogging (s : State) : outcome CsvReply * State :=
  if negb (csvLoggingEnabled s) then
    match initializeCsvLogging (set_csv true (csvFilePath s) s) with
    | (Returned _, s') =>
        (Returned {| success := true; filePath := Some (csvFilePath s');
                     message := None |}, s')
    | (Threw e, s') => (Threw e, s')
    | (Never, s') => (Never, s')
    end
  else
    (Returned {| success := false; filePath := None;
                 message := Some "CSV logging already active" |}, s).

Definition stopCsvLogging (s : State) : CsvReply * State :=
  ({| success := true; filePath := Some (csvFilePath s); message := None |},
   set_csv false "" s).

(** *** Last values *)

Definition getLastPowerCDS (s : State) : number := powerValue (functionGlobals s).
Definition getLastVoltageCDS (s : State) : number := voltageValue (functionGlobals s).
Definition getLastCurrentCDS (s : State) : number := currentValue (functionGlobals s).
Definition getLastSinkPowerValue (s : State) : option Scpi.Result := lastSinkPReal s.

(** *** Sink power polling *)

Definition startSinkPowerPolling (ip : string) (intervalMs : nat) (s : State) : State :=
  match sinkPowerInterval s with
  | Some _ => s   (* Already active *)
  | None =>
      let closure := length (closures (runtime s)) in
      set_sinkPowerInterval (Some closure)
        (set_closures (closures (runtime s)
                         ++ [ {| Scpi.successful := false; Scpi.msg := "" |} ]) s)
  end.

Definition stopSinkPowerPolling (s : State) : State :=
  match sinkPowerInterval s with
  | Some _ => set_sinkPowerInterval None s
  | None => s
  end.

(** The interval elapses: its callback starts and awaits
    [getSinkPowerValue]. *)
Definition interval_fired (s : State) : State :=
  match sinkPowerInterval s with
  | Some closure => set_ticks (ticks (runtime s) ++ [closure]) s
  | None => s
  end.

(** The awaited [getSinkPowerValue] of the [k]-th running callback is over. *)
Definition tick_settled (k : nat) (o : outcome Scpi.Result) (s : State) : State :=
  match ticks (runtime s) !! k with
  | None => s
  | Some closure =>
      match o with
      | Returned result =>
          (* SinkPowerValue = result; SinkPowerValue.successful = true;
             lastSinkPReal = SinkPowerValue *)
          let SinkPowerValue := {| Scpi.successful := true; Scpi.msg := Scpi.msg result |} in
          set_lastSinkPReal (Some SinkPowerValue)
            (set_closures (<[closure := SinkPowerValue]> (closures (runtime s)))
               (set_ticks (delete k (ticks (runtime s))) s))
      | Threw _ =>
          (* catch (err) { lastSinkPReal = SinkPowerValue } *)
          match closures (runtime s) !! closure with
          | Some SinkPowerValue =>
              set_lastSinkPReal (Some SinkPowerValue)
                (set_ticks (delete k (ticks (runtime s))) s)
          | None => s
          end
      | Never => s
      end
  end.

(** *** CDS polling

    [CdsTcpClient] belongs to an external package.  Its constructor and
    [startGlobalStatus] are taken not to throw, [disconnect] is taken to
    close the client, and a register read in flight may still deliver its
    sample or fail after the client was disconnected. *)

Definition stopPollingCDS (s : State) : State :=
  let s1 := set_intervalActive false s in
  match adapter s1 with
  | Some c =>
      (* adapter.stopGlobalStatus(); adapter.disconnect(); adapter = undefined *)
      set_adapter None (set_connections (<[c := false]> (connections (runtime s1))) s1)
  | None => s1
  end.

Definition set_stage (i : nat) (st : stage) (s : State) : State :=
  set_invocations
    (alter (fun inv => {| inv_ip := inv_ip inv; inv_intervalMs := inv_intervalMs inv;
                          inv_stage := st |}) i (invocations (runtime s))) s.

(** [finally { if (functionGlobals.intervalActive) setTimeout(...) }]: the
    call of [startPollingCDS] ends here. *)
Definition finally_block (i : nat) (s : State) : State :=
  match invocations (runtime s) !! i with
  | None => s
  | Some inv =>
      let s1 :=
        if intervalActive (functionGlobals s)
        then set_timeouts (timeouts (runtime s) ++ [(inv_ip inv, inv_intervalMs inv)]) s
        else s in
      set_stage i Finished s1
  end.

(** A register read is requested on [adapter] and awaited at [next].  With
    [adapter] undefined the helper throws at once and the [catch] block runs. *)
Definition request_read (i : nat) (next : stage) (s : State) : State :=
  match adapter s with
  | Some _ => set_stage i next s
  | None => finally_block i s
  end.

(** From [if (adapter === undefined)] to the first awaited read. *)
Definition connect_and_poll (i : nat) (s : State) : State :=
  let s1 :=
    match adapter s with
    | None =>
        (* adapter = new CdsTcpClient(...); adapter.startGlobalStatus();
           functionGlobals.intervalActive = true *)
        let c := length (connections (runtime s)) in
        set_intervalActive true
          (set_adapter (Some c) (set_connections (connections (runtime s) ++ [true]) s))
    | Some _ => s
    end in
  request_read i AwaitVoltage s1.

(** A call of [startPollingCDS(ip, intervalMs)], up to its first [await]. *)
Definition startPollingCDS (ip : string) (intervalMs : nat) (s : State) : State :=
  let i := length (invocations (runtime s)) in
  let s0 := set_invocations
              (invocations (runtime s)
                 ++ [ {| inv_ip := ip; inv_intervalMs := intervalMs;
                         inv_stage := AwaitCleanup |} ]) s in
  if intervalActive (functionGlobals s0)
  then stopPollingCDS s0   (* Stop any existing polling first, then wait *)
  else connect_and_poll i s0.

(** The 100 ms wait of call [i] is over. *)
Definition cleanup_elapsed (i : nat) (s : State) : State :=
  match invocations (runtime s) !! i with
  | Some inv =>
      match inv_stage inv with
      | AwaitCleanup => connect_and_poll i s
      | _ => s
      end
  | None => s
  end.

(** The register read awaited by call [i] is over: it delivered the number
    decoded from the registers, or it failed. *)
Definition read_settled (i : nat) (o : outcome number) (s : State) : State :=
  match invocations (runtime s) !! i with
  | None => s
  | Some inv =>
      match inv_stage inv, o with
      | AwaitVoltage, Returned resultV =>
          let voltage := Math_round resultV in
          request_read i AwaitPower (set_voltageValue voltage s)
      | AwaitPower, Returned resultP =>
          let power := Math_round resultP in
          request_read i AwaitCurrent
            (if number_lt (Finite 0) power then set_powerValue power s else s)
      | AwaitCurrent, Returned resultC =>
          let current := Math_round resultC in
          finally_block i (logMeasurementToCsv (set_currentValue current s))
      | AwaitVoltage, Threw _ | AwaitPower, Threw _ | AwaitCurrent, Threw _ =>
          finally_block i s
      | _, _ => s
      end
  end.

(** The [k]-th pending reschedule fires and calls [startPollingCDS]. *)
Definition timeout_fired (k : nat) (s : State) : State :=
  match timeouts (runtime s) !! k with
  | Some (ip, intervalMs) =>
      startPollingCDS ip intervalMs (set_timeouts (delete k (timeouts (runtime s))) s)
  | None => s
  end.

(** *** The module as a transition system

    Besides the calls of the exported functions and the completions of what
    they await, the clock advances and paths of the file system become
    unwritable or writable again. *)

Inductive event :=
| CallStartPollingCDS (ip : string) (intervalMs : nat)
| CallStopPollingCDS
| CleanupElapsed (i : nat)
| ReadSettled (i : nat) (o : outcome number)
| TimeoutFired (k : nat)
| CallStartSinkPowerPolling (ip : string) (intervalMs : nat)
| CallStopSinkPowerPolling
| IntervalFired
| TickSettled (k : nat) (o : outcome Scpi.Result)
| CallStartCsvLogging
| CallStopCsvLogging
| ClockAdvanced (iso : string)
| DiskChanged (unwritable : gmap string string).

Definition step (s : State) (e : event) : State :=
  match e with
  | CallStartPollingCDS ip intervalMs => startPollingCDS ip intervalMs s
  | CallStopPollingCDS => stopPollingCDS s
  | CleanupElapsed i => cleanup_elapsed i s
  | ReadSettled i o => read_settled i o s
  | TimeoutFired k => timeout_fired k s
  | CallStartSinkPowerPolling ip intervalMs => startSinkPowerPolling ip intervalMs s
  | CallStopSinkPowerPolling => stopSinkPowerPolling s
  | IntervalFired => interval_fired s
  | TickSettled k o => tick_settled k o s
  | CallStartCsvLogging => snd (startCsvLogging s)
  | CallStopCsvLogging => snd (stopCsvLogging s)
  | ClockAdvanced iso => set_now iso s
  | DiskChanged unwritable => set_denied unwritable s
  end.

Definition run (s : State) (trace : list event) : State := fold_left step trace s.

(** Number of CDS clients constructed so far, and of those still connected. *)
Definition opened (s : State) : nat := length (connections (runtime s)).
Definition live (s : State) : nat := length (filter (fun b => b = true) (connections (runtime s))).

End PollHelper.

(** ** index.ts: the SCPI handlers *)
Module Index.

(** [ipcMain.handle('setOutput', ...)]. *)
Definition handle_setOutput (s : PollHelper.State) (net : string -> Scpi.Device)
    (args : gmap string jsval) : outcome unit * Scpi.Socket :=
  let args' :=
    if number_lt (PollHelper.getLastVoltageCDS s) (Finite 200)
    then <["OutputState" := JBool false]> args
    else args in
  Scpi.setOutput net args'.

(** [ipcMain.handle('setCurrentSetPoint', ...)]. *)
Definition handle_setCurrentSetPoint (s : PollHelper.State) (net : string -> Scpi.Device)
    (args : gmap string jsval) : outcome unit * Scpi.Socket :=
  let args' :=
    if number_lt (PollHelper.getLastVoltageCDS s) (Finite 200)
    then <["current" := JNum 0]> args
    else args in
  Scpi.setCurrentSetPoint net args'.

End Index.

(** ** pollHelper.ts: logging status *)
Module PollStatus.

(** The object returned by [getCsvLoggingStatus]. *)
Record CsvStatus := {
  enabled : bool;
  filePath : string;
  fileExists : bool
}.

(** [existsSync(path)] on the files of the model. *)
Definition existsSync (path : string) (s : PollHelper.State) : bool :=
  bool_decide (is_Some (PollHelper.files (PollHelper.runtime s) !! path)).

Definition getCsvLoggingStatus (s : PollHelper.State) : CsvStatus :=
  {| enabled := PollHelper.csvLoggingEnabled s;
     filePath := PollHelper.csvFilePath s;
     fileExists := if String.eqb (PollHelper.csvFilePath s) "" then false
                   else existsSync (PollHelper.csvFilePath s) s |}.

End PollStatus.

(** ** logging.ts *)
Module Logging.

(** [getCurrentDate()], from what [getFullYear()], [getMonth()] and
    [getDate()] give for the current local time. *)
Definition getCurrentDate (fullYear month date : Z) : string :=
  (((Number_toString (inject_Z fullYear) +:+ "-")
    +:+ slice_last 2 ("0" +:+ Number_toString (inject_Z (month + 1))))
   +:+ "-")
  +:+ slice_last 2 ("0" +:+ Number_toString (inject_Z date)).

(** [log.transports.file.resolvePathFn]. *)
Definition resolvePathFn (logfilePath : string) (fullYear month date : Z) : string :=
  join logfilePath (("Log-File-" +:+ getCurrentDate fullYear month date) +:+ ".log").

End Logging.

(** ** tab.ts *)
Module Tab.

(** What a tab shows: the split screen page or another page. *)
Inductive Component :=
| SplitScreen
| Page (name : string).

(** An entry of the navigation store. *)
Record Item := { title : string; component : Component }.

(** The stores [activeElement], [navigation] and [splitScreenActive] of
    store.ts with the module variables [splitScreenPossible] and
    [splitScreenElements].  What the subscribers of the stores do is not
    part of tab.ts. *)
Record State := {
  activeElement : string;
  navigation : list Item;
  splitScreenActive : bool;
  splitScreenPossible : bool;
  splitScreenElements : list Item
}.

Definition defaultElement : string := "Home".

Definition set_activeElement (t : string) (s : State) : State :=
  {| activeElement := t; navigation := navigation s;
     splitScreenActive := splitScreenActive s;
     splitScreenPossible := splitScreenPossible s;
     splitScreenElements := splitScreenElements s |}.

Definition set_navigation (data : list Item) (s : State) : State :=
  {| activeElement := activeElement s; navigation := data;
     splitScreenActive := splitScreenActive s;
     splitScreenPossible := splitScreenPossible s;
     splitScreenElements := splitScreenElements s |}.

Definition set_splitScreenActive (b : bool) (s : State) : State :=
  {| activeElement := activeElement s; navigation := navigation s;
     splitScreenActive := b;
     splitScreenPossible := splitScreenPossible s;
     splitScreenElements := splitScreenElements s |}.

Definition set_splitScreenPossible (b : bool) (s : State) : State :=
  {| activeElement := activeElement s; navigation := navigation s;
     splitScreenActive := splitScreenActive s;
     splitScreenPossible := b;
     splitScreenElements := splitScreenElements s |}.

Definition set_splitScreenElements (l : list Item) (s : State) : State :=
  {| activeElement := activeElement s; navigation := navigation s;
     splitScreenActive := splitScreenActive s;
     splitScreenPossible := splitScreenPossible s;
     splitScreenElements := l |}.

Definition openTab (t : string) (c : Component) (s : State) : State :=
  let s1 := set_activeElement t s in
  set_navigation (navigation s1 ++ [ {| title := t; component := c |} ]) s1.

Definition handleSplitScreen (s : State) : State :=
  set_splitScreenPossible (2 <? length (navigation s))%nat s.

Definition changeActiveTab (t : string) (s : State) : State :=
  set_activeElement t (handleSplitScreen s).

Definition closeTab (t : string) (s : State) : State :=
  let s1 := set_navigation (filter (fun element => title element <> t) (navigation s)) s in
  let s2 := if includes " || " t
            then set_splitScreenElements [] (set_splitScreenActive false s1)
            else s1 in
  set_activeElement defaultElement s2.

(** What reading [title] of [undefined] throws. *)
Definition undefined_title : string :=
  "TypeError: Cannot read properties of undefined (reading 'title')".

(** The branch [splitScreenElements.length === 2] of [splitScreen];
    [splitScreenElements] is read again for each argument, after the calls
    of [closeTab] that may have emptied it. *)
Definition select_second (s : State) : outcome unit * State :=
  match splitScreenElements s !! 0%nat with
  | None => (Threw undefined_title, s)
  | Some e0 =>
      let s1 := closeTab (title e0) s in
      match splitScreenElements s1 !! 1%nat with
      | None => (Threw undefined_title, s1)
      | Some e1 =>
          let s2 := closeTab (title e1) s1 in
          match splitScreenElements s2 !! 0%nat with
          | None => (Threw undefined_title, s2)
          | Some a =>
              match splitScreenElements s2 !! 1%nat with
              | None => (Threw undefined_title, s2)
              | Some b =>
                  (Returned tt,
                   set_splitScreenActive true
                     (openTab ((title a +:+ " || ") +:+ title b) SplitScreen s2))
              end
          end
      end
  end.

(** The branch [splitScreenElements.length > 2]; with more than two
    elements the first two exist. *)
Definition select_third (s : State) : outcome unit * State :=
  match splitScreenElements s !! 0%nat, splitScreenElements s !! 1%nat with
  | Some e0, Some e1 =>
      let s1 := set_navigation (navigation s ++ [e0] ++ [e1]) s in
      let s2 := closeTab ((title e0 +:+ " || ") +:+ title e1) s1 in
      (Returned tt, set_splitScreenElements [] (set_splitScreenActive false s2))
  | _, _ => (Threw undefined_title, s)
  end.

Definition splitScreen (item : Item) (s : State) : outcome unit * State :=
  let s0 := set_splitScreenElements (splitScreenElements s ++ [item]) s in
  let r := if (length (splitScreenElements s0) =? 2)%nat then select_second s0
           else (Returned tt, s0) in
  match r with
  | (Returned _, s1) =>
      if (2 <? length (splitScreenElements s1))%nat then select_third s1
      else (Returned tt, s1)
  | _ => r
  end.

End Tab.

(** ** Predicates used by the statements *)

(** A number that is an integer. *)
Definition is_integer (x : number) : Prop := exists z : Z, x = Finite (inject_Z z).

(** The three cached CDS values (power, voltage, current). *)
Definition cache (s : PollHelper.State) : number * number * number :=
  (PollHelper.getLastPowerCDS s, PollHelper.getLastVoltageCDS s,
   PollHelper.getLastCurrentCDS s).

Definition integral (c : number * number * number) : Prop :=
  is_integer (fst (fst c)) /\ is_integer (snd (fst c)) /\ is_integer (snd c).

(** A number that [Math.round] leaves as it is: an integer, NaN or an
    infinity. *)
Definition rounded (x : number) : Prop := Math_round x = x.

Definition all_rounded (c : number * number * number) : Prop :=
  rounded (fst (fst c)) /\ rounded (snd (fst c)) /\ rounded (snd c).

(** An event that does not deliver NaN or an infinity as a register
    sample. *)
Definition finite_sample (e : PollHelper.event) : Prop :=
  match e with
  | PollHelper.ReadSettled _ (Returned x) => exists q, x = Finite q
  | _ => True
  end.



(** The whole numbers from [a] on, [n] of them. *)
Definition range (a : Z) (n : nat) : list Z := map (fun i => (a + Z.of_nat i)%Z) (seq 0 n).



(** A call of [startPollingCDS] moved to another stage. *)
Definition at_stage (inv : PollHelper.Invocation) (st : PollHelper.stage)
  : PollHelper.Invocation :=
  {| PollHelper.inv_ip := PollHelper.inv_ip inv;
     PollHelper.inv_intervalMs := PollHelper.inv_intervalMs inv;
     PollHelper.inv_stage := st |}.

(** The CDS session: the Active flag, the adapter and the clients. *)
Definition session (s : PollHelper.State) : bool * option nat * list bool :=
  (PollHelper.intervalActive (PollHelper.functionGlobals s),
   PollHelper.adapter s,
   PollHelper.connections (PollHelper.runtime s)).

(** The session is Active exactly when it holds an adapter; the adapter is
    the client constructed last and the only one still connected. *)
Definition coherent (x : bool * option nat * list bool) : Prop :=
  match x with
  | (active, Some c, conns) => active = true /\ conns = (replicate c false ++ [true])%list
  | (active, None, conns) => active = false /\ conns = replicate (length conns) false
  end.



(** A device that accepts the connection and never answers. *)
Definition mute : Scpi.Device :=
  {| Scpi.connect_error := None; Scpi.write_errors := []; Scpi.traffic := [] |}.

(** The promise of [sendCommand] as determined by the write and by the
    event, if any, that arrives before the timer. *)
Definition first_settlement (fault : option string)
    (first : option (nat * Scpi.sock_event)) : Scpi.promise :=
  match fault with
  | Some e => Scpi.Rejected e
  | None =>
      match first with
      | None => Scpi.Resolved {| Scpi.successful := true; Scpi.msg := "no data recieved" |}
      | Some (_, Scpi.SockData data) =>
          Scpi.Resolved {| Scpi.successful := true; Scpi.msg := trim data |}
      | Some (_, Scpi.SockError err) => Scpi.Rejected err
      end
  end.

(** A socket on which no write to come throws and no error is to arrive. *)
Definition sound (client : Scpi.Socket) : Prop :=
  Forall (fun fault => fault = None) (Scpi.faults client)
  /\ Forall (fun ev => exists data, snd ev = Scpi.SockData data) (Scpi.incoming client).

(** A device that accepts the connection, takes every write and reports no
    socket error; it may answer or stay silent. *)
Definition cooperative (dev : Scpi.Device) : Prop :=
  Scpi.connect_error dev = None
  /\ Forall (fun fault => fault = None) (Scpi.write_errors dev)
  /\ Forall (fun ev => exists data, snd ev = Scpi.SockData data) (Scpi.traffic dev).

(** An operation that leaves its awaiting caller with an answer. *)
Definition settles {A : Type} (m : Scpi.M A) : Prop :=
  forall client, fst (m client) <> Never.

(** The socket as [createClient] finds it. *)
Definition fresh (dev : Scpi.Device) : Scpi.Socket :=
  {| Scpi.written := []; Scpi.faults := Scpi.write_errors dev;
     Scpi.incoming := Scpi.traffic dev; Scpi.clock := 0; Scpi.ended := false |}.

(** How an exported operation leaves its connection: with a refused
    connection it throws that error and has written nothing; with an
    established one the socket was ended; and the caller gets an answer. *)
Definition released {A : Type} (dev : Scpi.Device) (r : outcome A * Scpi.Socket) : Prop :=
  fst r <> Never
  /\ match Scpi.connect_error dev with
     | Some e => r = (Threw e, fresh dev)
     | None => Scpi.ended (snd r) = true
     end.

(** A command as it goes over the wire. *)
Definition line (command : string) : string := command +:+ String "010" "".

(** An operation that, on a sound socket, returns, has written exactly the
    lines [ks] and leaves the socket sound and open. *)
Definition completes {A : Type} (ks : list string) (m : Scpi.M A) : Prop :=
  forall client, sound client ->
    exists a client',
      m client = (Returned a, client')
      /\ Scpi.written client' = (Scpi.written client ++ ks)%list
      /\ Scpi.ended client' = Scpi.ended client
      /\ sound client'.

(** An operation that adds to the lines written an initial part of [ks]. *)
Definition writes {A : Type} (ks : list string) (m : Scpi.M A) : Prop :=
  forall client, exists p,
    p `prefix_of` ks
    /\ Scpi.written (snd (m client)) = (Scpi.written client ++ p)%list.

(** A call of [startPollingCDS] that has not ended. *)
Definition busy (inv : PollHelper.Invocation) : bool :=
  match PollHelper.inv_stage inv with
  | PollHelper.Finished => false
  | _ => true
  end.

(** Poll chains alive: calls of [startPollingCDS] under way plus reschedules
    waiting to fire. *)
Definition count_busy (l : list PollHelper.Invocation) : nat :=
  length (filter (fun inv => busy inv = true) l).

Definition chains (s : PollHelper.State) : nat :=
  (count_busy (PollHelper.invocations (PollHelper.runtime s))
   + length (PollHelper.timeouts (PollHelper.runtime s)))%nat.

Definition is_start (e : PollHelper.event) : bool :=
  match e with
  | PollHelper.CallStartPollingCDS _ _ => true
  | _ => false
  end.

(** Calls of [startPollingCDS] made from outside in a trace. *)
Definition external_starts (trace : list PollHelper.event) : nat :=
  length (filter (fun e => is_start e = true) trace).



(** The path [initializeCsvLogging] gives the file it starts. *)
Definition csv_path (s : PollHelper.State) : string :=
  join (PollHelper.storagePath (PollHelper.runtime s))
       (PollHelper.csv_file_name (PollHelper.now (PollHelper.runtime s))).

(** The logging switch, the current file, the files and the paths that
    cannot be written. *)
Definition csv_view (s : PollHelper.State)
  : bool * string * gmap string string * gmap string string :=
  (PollHelper.csvLoggingEnabled s, PollHelper.csvFilePath s,
   PollHelper.files (PollHelper.runtime s), PollHelper.denied (PollHelper.runtime s)).

(** The logging switch and the current file. *)
Definition csv_switch (s : PollHelper.State) : bool * string :=
  (PollHelper.csvLoggingEnabled s, PollHelper.csvFilePath s).

(** Logging is enabled exactly while a file is named. *)
Definition csv_named (x : bool * string) : Prop :=
  match x with
  | (true, path) => path <> ""
  | (false, path) => path = ""
  end.

(** Every path can be written; while logging is enabled the current file is
    named, exists and begins with the header row; while it is disabled no
    file is named. *)
Definition csv_coherent (x : bool * string * gmap string string * gmap string string)
  : Prop :=
  match x with
  | (true, path, fs, unwritable) =>
      unwritable = ∅ /\ path <> ""
      /\ exists rows, fs !! path = Some (PollHelper.header +:+ rows)
  | (false, path, _, unwritable) => unwritable = ∅ /\ path = ""
  end.

(** An event that leaves every path writable. *)
Definition undisturbed (e : PollHelper.event) : Prop :=
  match e with
  | PollHelper.DiskChanged unwritable => unwritable = ∅
  | _ => True
  end.


(** The cached sink result and the variables of the interval callbacks. *)
Definition sink_values (s : PollHelper.State) : option Scpi.Result * list Scpi.Result :=
  (PollHelper.lastSinkPReal s, PollHelper.closures (PollHelper.runtime s)).

(** A sink result is flagged successful, or it is the empty placeholder. *)
Definition flagged (r : Scpi.Result) : Prop :=
  Scpi.successful r = true \/ r = {| Scpi.successful := false; Scpi.msg := "" |}.

Definition all_flagged (x : option Scpi.Result * list Scpi.Result) : Prop :=
  (forall r, fst x = Some r -> flagged r) /\ Forall flagged (snd x).

(** An event other than a call of [startCsvLogging]. *)
Definition no_csv_start (e : PollHelper.event) : Prop :=
  match e with
  | PollHelper.CallStartCsvLogging => False
  | _ => True
  end.

(** Every file of [before] is a file of [after] with its content at the
    front. *)
Definition kept (before after : gmap string string) : Prop :=
  forall path content,
    before !! path = Some content ->
    exists added, after !! path = Some (content +:+ added).

(** The decimal digit [d]. *)
Definition digit (d : Z) : ascii := ascii_of_nat (48 + Z.to_nat d).

(** The two digits of a number below 100. *)
Definition two_digits (n : Z) : string :=
  String (digit (n / 10)) (String (digit (n mod 10)) "").

(** * Properties of scpiHelper.ts *)

Section SendCommand.
Import Scpi.

Lemma dispatch_settled x ev :
  settled x <> Pending -> settled (dispatch x ev) = settled x.
Proof.
  intros H. unfold dispatch.
  destruct (snd ev); [destruct (onData x) | destruct (onError x)]; trivial;
    unfold resolve, reject; simpl; destruct (settled x); simpl; congruence.
Qed.

Lemma fire_timeout_settled x :
  settled x <> Pending -> settled (fire_timeout x) = settled x.
Proof.
  intros H. unfold fire_timeout, resolve. destruct (timeout x); simpl; trivial.
  destruct (settled x); simpl; congruence.
Qed.

(** [run_executor] settles as [first_settlement] says. *)
Lemma run_executor_settled fault first :
  settled (run_executor fault first) = first_settlement fault first.
Proof.
  unfold run_executor, first_settlement.
  destruct fault as [e|].
  - destruct first as [ev|].
    + rewrite fire_timeout_settled; rewrite dispatch_settled; simpl; congruence.
    + rewrite fire_timeout_settled; simpl; congruence.
  - destruct first as [[t [data|err]]|]; reflexivity.
Qed.

(** The promise of [sendCommand] always settles: the call returns or throws. *)
Lemma sendCommand_settles command client :
  fst (sendCommand command client) <> Never.
Proof.
  unfold sendCommand. cbn [fst]. rewrite run_executor_settled. unfold first_settlement.
  destruct (next_fault client); [simpl; congruence|].
  destruct (next_event client) as [[t [data|err]]|]; simpl; congruence.
Qed.

(** With no event due within the 1000 ms, the command sees none. *)
Lemma no_early_event client :
  Forall (fun ev => (clock client + 1000 <= fst ev)%nat) (incoming client) ->
  next_event client = None.
Proof.
  unfold next_event. destruct (incoming client) as [|ev evs]; [reflexivity|].
  intros H. apply Forall_cons in H as [H _].
  unfold arrives_before. destruct (Nat.ltb_spec (fst ev) (clock client + 1000)); [lia|reflexivity].
Qed.

(** With the next event due within the 1000 ms, the command sees it. *)
Lemma early_event client t ev rest :
  incoming client = (t, ev) :: rest -> (t < clock client + 1000)%nat ->
  next_event client = Some (t, ev).
Proof.
  intros Hin Ht. unfold next_event. rewrite Hin. unfold arrives_before. cbn [fst].
  destruct (Nat.ltb_spec t (clock client + 1000)); [reflexivity|lia].
Qed.

End SendCommand.

Section CommandLayer.
Import Scpi.

Lemma sendCommand_returned command client r :
  fst (sendCommand command client) = Returned r ->
  written (snd (sendCommand command client))
  = (written client ++ [command +:+ String "010" ""])%list.
Proof.
  unfold sendCommand. cbn [fst snd written]. rewrite run_executor_settled.
  unfold first_settlement.
  destruct (next_fault client); simpl; [discriminate|reflexivity].
Qed.

Lemma createClient_returned dev client :
  createClient dev = (Returned tt, client) ->
  written client = ["*IDN?" +:+ String "010" ""].
Proof.
  unfold createClient. destruct (connect_error dev); [discriminate|].
  destruct (sendCommand "*IDN?" _) as [[r|e|] c] eqn:E; try discriminate.
  intros [= <-]. change c with (snd (Returned r, c)). rewrite <- E.
  erewrite sendCommand_returned; [reflexivity|]. rewrite E. reflexivity.
Qed.

(** On a sound socket a command returns, is written, and leaves the socket
    sound. *)
Lemma sendCommand_sound command client :
  sound client ->
  exists r, fst (sendCommand command client) = Returned r
            /\ written (snd (sendCommand command client))
               = (written client ++ [command +:+ String "010" ""])%list
            /\ ended (snd (sendCommand command client)) = ended client
            /\ sound (snd (sendCommand command client)).
Proof.
  intros [Hf He].
  assert (Hfault : next_fault client = None).
  { unfold next_fault. destruct (faults client) as [|f fs]; [reflexivity|].
    apply Forall_cons in Hf as [Hf _]. exact Hf. }
  assert (Hfs : Forall (fun fault : option string => fault = None) (tail (faults client))).
  { destruct (faults client) as [|f fs]; [constructor|].
    apply Forall_cons in Hf as [_ Hf]. exact Hf. }
  assert (Hev : Forall (fun ev : nat * sock_event => exists data, snd ev = SockData data)
                  (tail (incoming client))).
  { destruct (incoming client) as [|ev evs]; [constructor|].
    apply Forall_cons in He as [_ He]. exact He. }
  unfold sendCommand. cbn [fst snd written ended]. rewrite run_executor_settled.
  unfold first_settlement. rewrite Hfault.
  destruct (next_event client) as [[t ev]|] eqn:Hn.
  - assert (Hd : exists data, ev = SockData data).
    { unfold next_event in Hn. destruct (incoming client) as [|ev0 evs]; [discriminate|].
      apply Forall_cons in He as [[data Hd] _].
      destruct (arrives_before _ _); [|discriminate].
      injection Hn as ->. exists data. exact Hd. }
    destruct Hd as [data ->]. eexists. split; [reflexivity|].
    split; [reflexivity|]. split; [reflexivity|]. split; assumption.
  - eexists. split; [reflexivity|]. split; [reflexivity|]. split; [reflexivity|].
    split; assumption.
Qed.

Lemma Math_abs_opp c : Math_abs (- c) = Math_abs c.
Proof. destruct c as [n d]. unfold Math_abs, Qabs, Qopp. simpl. now rewrite Z.abs_opp. Qed.

(** The guard of the [setCurrentSetPoint] handler writes the property
    [current], which [setCurrentSetPoint] never reads. *)
Lemma handle_setCurrentSetPoint_unguarded s net args :
  Index.handle_setCurrentSetPoint s net args = setCurrentSetPoint net args.
Proof.
  unfold Index.handle_setCurrentSetPoint.
  destruct (number_lt _ _); [|reflexivity].
  unfold setCurrentSetPoint, get_prop.
  rewrite !lookup_insert_ne by discriminate. reflexivity.
Qed.

(** The guard of the [setOutput] handler: below 200 V the state sent is OFF. *)
Lemma handle_setOutput_low_voltage s net args :
  number_lt (PollHelper.getLastVoltageCDS s) (Finite 200) = true ->
  Index.handle_setOutput s net args
  = with_client (net (ToString (get_prop args "HostIp")))
      (bind (sendCommand "OUTP OFF") (fun _ => ret tt)).
Proof.
  intros H. unfold Index.handle_setOutput. rewrite H.
  unfold setOutput, get_prop. rewrite lookup_insert_eq.
  rewrite lookup_insert_ne by discriminate. reflexivity.
Qed.

Lemma handle_setOutput_pass_through s net args :
  number_lt (PollHelper.getLastVoltageCDS s) (Finite 200) = false ->
  Index.handle_setOutput s net args = setOutput net args.
Proof. intros H. unfold Index.handle_setOutput. rewrite H. reflexivity. Qed.

End CommandLayer.

Section Wire.
Import Scpi.

Lemma settles_sendCommand command : settles (sendCommand command).
Proof. intros client. apply sendCommand_settles. Qed.

Lemma settles_ret {A} (a : A) : settles (ret a).
Proof. intros client. discriminate. Qed.

Lemma settles_bind {A B} (m : M A) (f : A -> M B) :
  settles m -> (forall a, settles (f a)) -> settles (bind m f).
Proof.
  intros Hm Hf client. unfold bind. specialize (Hm client).
  destruct (m client) as [[a|e|] c]; simpl in *; [apply Hf|discriminate|congruence].
Qed.

Lemma with_client_released {A} dev (body : M A) :
  settles body -> released dev (with_client dev body).
Proof.
  intros Hb. unfold released, with_client, createClient.
  destruct (connect_error dev) as [e|]; [split; [discriminate|reflexivity]|].
  pose proof (sendCommand_settles "*IDN?" (fresh dev)) as Hidn.
  change (fresh dev) with {| written := []; faults := write_errors dev;
                            incoming := traffic dev; clock := 0; ended := false |} in Hidn.
  destruct (sendCommand "*IDN?" _) as [[r|e|] c]; simpl in Hidn; try congruence.
  - specialize (Hb c). destruct (body c) as [[a|e|] c']; simpl in *;
      try congruence; split; try discriminate; reflexivity.
  - split; [discriminate|reflexivity].
Qed.

(** What one [sendCommand] does to the lines written. *)
Lemma sendCommand_written command client :
  written (snd (sendCommand command client)) = (written client ++ [line command])%list
  \/ (written (snd (sendCommand command client)) = written client
      /\ exists e, fst (sendCommand command client) = Threw e).
Proof.
  unfold sendCommand. cbn [fst snd written]. rewrite run_executor_settled.
  unfold first_settlement.
  destruct (next_fault client) as [e|]; [right|left; reflexivity].
  split; [reflexivity|]. exists e. reflexivity.
Qed.

End Wire.

Section Order.
Import Scpi.

Lemma writes_ret {A} (a : A) : writes [] (ret a).
Proof. intros client. exists []. split; [reflexivity|]. simpl. now rewrite app_nil_r. Qed.

Lemma writes_bind {A} command ks (k : M A) :
  writes ks k -> writes (line command :: ks) (bind (sendCommand command) (fun _ => k)).
Proof.
  intros Hk client. unfold bind.
  destruct (sendCommand_written command client) as [Hw|[Hw [e He]]];
    destruct (sendCommand command client) as [[r|e'|] c]; simpl in *.
  - destruct (Hk c) as (p & Hp & Hc). exists (line command :: p). split.
    + apply prefix_cons, Hp.
    + rewrite Hc, Hw, <- app_assoc. reflexivity.
  - exists [line command]. split; [|exact Hw].
    apply prefix_cons, prefix_nil.
  - exists [line command]. split; [|exact Hw].
    apply prefix_cons, prefix_nil.
  - discriminate.
  - exists []. split; [apply prefix_nil|]. now rewrite app_nil_r.
  - discriminate.
Qed.

Lemma writes_with_client {A} dev ks (body : M A) :
  writes ks body ->
  written (snd (with_client dev body)) `prefix_of` (line "*IDN?" :: ks).
Proof.
  intros Hb. unfold with_client, createClient.
  destruct (connect_error dev); [apply prefix_nil|].
  set (c0 := {| written := []; faults := write_errors dev; incoming := traffic dev;
                clock := 0; ended := false |}).
  destruct (sendCommand_written "*IDN?" c0) as [Hw|[Hw [e' He]]];
    destruct (sendCommand "*IDN?" c0) as [[r|e|] c]; simpl in *.
  - destruct (Hb c) as (p & Hp & Hc).
    assert (Hfin : written (snd (body c)) = line "*IDN?" :: p)
      by (rewrite Hc, Hw; reflexivity).
    destruct (body c) as [[a|e|] c']; simpl in *; rewrite Hfin;
      apply prefix_cons, Hp.
  - rewrite Hw. apply prefix_cons, prefix_nil.
  - rewrite Hw. apply prefix_cons, prefix_nil.
  - discriminate.
  - rewrite Hw. apply prefix_nil.
  - discriminate.
Qed.

End Order.

Section Completion.
Import Scpi.

Lemma completes_ret {A} (a : A) : completes [] (ret a).
Proof.
  intros client Hs. exists a, client. split; [reflexivity|].
  split; [now rewrite app_nil_r|]. split; [reflexivity|exact Hs].
Qed.

Lemma completes_sendCommand command : completes [line command] (sendCommand command).
Proof.
  intros client Hs.
  destruct (sendCommand_sound command client Hs) as (r & Hr & Hw & He & Hs').
  destruct (sendCommand command client) as [o c]. simpl in *. subst o.
  exists r, c. repeat split; try assumption; apply Hs'.
Qed.

Lemma completes_bind {A B} ks1 ks2 (m : M A) (f : A -> M B) :
  completes ks1 m -> (forall a, completes ks2 (f a)) ->
  completes (ks1 ++ ks2) (bind m f).
Proof.
  intros Hm Hf client Hs. unfold bind.
  destruct (Hm client Hs) as (a & c & E & Hw & He & Hs'). rewrite E.
  destruct (Hf a c Hs') as (b & c' & E' & Hw' & He' & Hs'').
  exists b, c'. split; [exact E'|]. split; [|split; [congruence|exact Hs'']].
  rewrite Hw', Hw, <- app_assoc. reflexivity.
Qed.

Lemma completes_then {A} command ks (k : M A) :
  completes ks k -> completes (line command :: ks) (bind (sendCommand command) (fun _ => k)).
Proof.
  intros Hk. apply (completes_bind [line command] ks); [apply completes_sendCommand|].
  intros _. exact Hk.
Qed.

(** On a cooperative device an operation whose body completes returns, has
    written the probe and the lines of the body, and has ended the socket. *)
Lemma with_client_completes {A} dev ks (body : M A) :
  cooperative dev -> completes ks body ->
  exists a, fst (with_client dev body) = Returned a
            /\ written (snd (with_client dev body)) = line "*IDN?" :: ks
            /\ ended (snd (with_client dev body)) = true.
Proof.
  intros (Hc & Hf & He) Hb.
  assert (Hs : sound (fresh dev)) by (split; assumption).
  destruct (completes_sendCommand "*IDN?" (fresh dev) Hs) as (r & c0 & E & Hw & _ & Hs0).
  unfold with_client, createClient. rewrite Hc.
  change {| written := []; faults := write_errors dev; incoming := traffic dev;
            clock := 0; ended := false |} with (fresh dev).
  rewrite E.
  destruct (Hb c0 Hs0) as (a & c1 & E1 & Hw1 & _ & _). rewrite E1.
  exists a. split; [reflexivity|]. split; [|reflexivity].
  cbn [snd client_end written]. rewrite Hw1, Hw. reflexivity.
Qed.

Lemma cooperative_mute : cooperative mute.
Proof. split; [reflexivity|]. split; constructor. Qed.

End Completion.

(** C1 (failing input).  With a cached CDS voltage of 150 V the [setOutput]
    handler sends [OUTP OFF] for a request to switch on, but the
    [setCurrentSetPoint] handler sends the caller's setpoint of 16 A
    unchanged, not [SOUR:CURR 0]. *)
Theorem C1_low_voltage_setpoint_sent_unchanged :
  let s := PollHelper.run (PollHelper.init "/data")
             [PollHelper.CallStartPollingCDS "192.168.100.80" 400;
              PollHelper.ReadSettled 0 (Returned (Finite 150))] in
  let on := <["HostIp" := JStr "192.168.100.182"]> (<["OutputState" := JBool true]> ∅) in
  let setpoint := <["HostIp" := JStr "192.168.100.182"]> (<["CurrentSetPoint" := JNum 16%Q]> ∅) in
  PollHelper.getLastVoltageCDS s = Finite 150
  /\ Scpi.written (snd (Index.handle_setOutput s (fun _ => mute) on))
     = ["*IDN?" +:+ String "010" ""; "OUTP OFF" +:+ String "010" ""]
  /\ Scpi.written (snd (Index.handle_setCurrentSetPoint s (fun _ => mute) setpoint))
     = ["*IDN?" +:+ String "010" ""; "SOUR:CURR 16" +:+ String "010" ""].
Proof. vm_compute. repeat split; reflexivity. Qed.

(** C2 (counterexample).  On a socket that stays silent the command resolves,
    but not with the payload "no data received": the sentinel of the source
    is spelled differently. *)
Lemma C2_sentinel_spelling :
  fst (Scpi.sendCommand "MEAS:POW?"
         {| Scpi.written := []; Scpi.faults := []; Scpi.incoming := [];
            Scpi.clock := 0; Scpi.ended := false |})
  <> Returned {| Scpi.successful := true; Scpi.msg := "no data received" |}.
Proof. vm_compute. discriminate. Qed.

(** C2 (amended).  When the write succeeds and the socket emits no event
    (data or error) within the 1000 ms that follow the call, [sendCommand]
    resolves with successful = true and the sentinel "no data recieved";
    this holds of every command on a connection, at whatever point of an
    operation.  When it is so for the MEAS:POW? that [getSinkPowerValue]
    sends on the connection it has opened (an answer to the probe that
    comes late is an event like any other), [getSinkPowerValue] returns that
    object instead of throwing. *)
Theorem C2_silence_resolves (net : string -> Scpi.Device) (HostIp command : string)
    (client opened : Scpi.Socket) :
  Scpi.next_fault client = None ->
  Forall (fun ev => (Scpi.clock client + 1000 <= fst ev)%nat) (Scpi.incoming client) ->
  Scpi.createClient (net HostIp) = (Returned tt, opened) ->
  Scpi.next_fault opened = None ->
  Forall (fun ev => (Scpi.clock opened + 1000 <= fst ev)%nat) (Scpi.incoming opened) ->
  fst (Scpi.sendCommand command client)
    = Returned {| Scpi.successful := true; Scpi.msg := "no data recieved" |}
  /\ fst (Scpi.getSinkPowerValue net HostIp)
    = Returned {| Scpi.successful := true; Scpi.msg := "no data recieved" |}.
Proof.
  intros Hwrite Hquiet Hopen Hwrite' Hquiet'.
  assert (Hsend : forall c k,
            Scpi.next_fault k = None ->
            Forall (fun ev => (Scpi.clock k + 1000 <= fst ev)%nat) (Scpi.incoming k) ->
            fst (Scpi.sendCommand c k)
            = Returned {| Scpi.successful := true; Scpi.msg := "no data recieved" |}).
  { intros c k Hw Hq. unfold Scpi.sendCommand. cbn [fst].
    rewrite run_executor_settled, Hw, (no_early_event _ Hq). reflexivity. }
  split; [apply Hsend; assumption|].
  unfold Scpi.getSinkPowerValue, Scpi.with_client. rewrite Hopen.
  unfold Scpi.bind. specialize (Hsend "MEAS:POW?" opened Hwrite' Hquiet').
  destruct (Scpi.sendCommand "MEAS:POW?" opened) as [o c]. simpl in Hsend. subst o.
  reflexivity.
Qed.

Lemma C2_silence_resolves_witness :
  let dev := {| Scpi.connect_error := None; Scpi.write_errors := [];
                Scpi.traffic := [(2500%nat, Scpi.SockData "late")] |} in
  let opened := {| Scpi.written := ["*IDN?" +:+ String "010" ""]; Scpi.faults := [];
                   Scpi.incoming := [(2500%nat, Scpi.SockData "late")];
                   Scpi.clock := 1000; Scpi.ended := false |} in
  let client := {| Scpi.written := ["*IDN?" +:+ String "010" "";
                                    "SOUR:FUNC VOLT" +:+ String "010" ""];
                   Scpi.faults := [None];
                   Scpi.incoming := [(3100%nat, Scpi.SockError "ECONNRESET")];
                   Scpi.clock := 2000; Scpi.ended := false |} in
  Scpi.createClient dev = (Returned tt, opened)
  /\ fst (Scpi.sendCommand "SOUR:CURR 16" client)
     = Returned {| Scpi.successful := true; Scpi.msg := "no data recieved" |}
  /\ fst (Scpi.getSinkPowerValue (fun _ => dev) "192.168.100.182")
     = Returned {| Scpi.successful := true; Scpi.msg := "no data recieved" |}.
Proof.
  intros dev opened client.
  split; [reflexivity|].
  apply (C2_silence_resolves (fun _ => dev) "192.168.100.182" "SOUR:CURR 16" client opened).
  - reflexivity.
  - constructor; [simpl; lia|constructor].
  - reflexivity.
  - reflexivity.
  - constructor; [simpl; lia|constructor].
Defined.

(** C10.  [setVoltagePriorityMode] issues the positive current limit |c| and
    the negative limit -|c|, whatever the sign of the limit [c] it is given:
    it does the same for [c] and for [-c] (same outcome, same lines
    written); on a device that accepts the connection, takes every write
    and reports no socket error, it returns and the lines written are the
    probe, the mode, the positive limit |c|, the negative limit -|c| and
    the voltage level, in this order; on any device the lines written are
    an initial part of that sequence, and the whole of it when the
    operation returns. *)
Theorem C10_current_limit_sign (net : string -> Scpi.Device) (HostIp : string) (v c : Q) :
  let run_with (limit : Q) :=
    Scpi.setVoltagePriorityMode net
      {| Scpi.vp_HostIp := HostIp; Scpi.OutputVoltageLimitCV := v;
         Scpi.OutputCurrentLimitCV := limit |} in
  let sequence :=
    [ "*IDN?" +:+ String "010" "";
      "SOUR:FUNC VOLT" +:+ String "010" "";
      ("SOUR:CURR:LIM:POS:IMM:AMPL " +:+ Number_toString (Qabs c)) +:+ String "010" "";
      ("SOUR:CURR:LIM:NEG:IMM:AMPL " +:+ Number_toString (- Qabs c)%Q) +:+ String "010" "";
      ("SOUR:VOLT:LEV:IMM:AMPL " +:+ Number_toString v) +:+ String "010" "" ] in
  run_with c = run_with (- c)%Q
  /\ (cooperative (net HostIp) ->
      fst (run_with c) = Returned tt
      /\ Scpi.written (snd (run_with c)) = sequence
      /\ Scpi.ended (snd (run_with c)) = true)
  /\ Scpi.written (snd (run_with c)) `prefix_of` sequence
  /\ (fst (run_with c) = Returned tt -> Scpi.written (snd (run_with c)) = sequence).
Proof.
  intros run_with sequence. subst run_with sequence. cbv beta.
  split; [|split; [|split]].
  - unfold Scpi.setVoltagePriorityMode.
    cbn [Scpi.OutputCurrentLimitCV Scpi.OutputVoltageLimitCV Scpi.vp_HostIp].
    rewrite Math_abs_opp. reflexivity.
  - intros Hdev. unfold Scpi.setVoltagePriorityMode.
    cbn [Scpi.OutputCurrentLimitCV Scpi.OutputVoltageLimitCV Scpi.vp_HostIp].
    match goal with
    | |- context [Scpi.with_client _ ?body] =>
        eassert (Hbody : completes _ body)
          by (repeat apply completes_then; apply completes_ret)
    end.
    destruct (with_client_completes (net HostIp) _ _ Hdev Hbody) as ([] & Hr & Hw & He).
    split; [exact Hr|]. split; [exact Hw|exact He].
  - unfold Scpi.setVoltagePriorityMode.
    cbn [Scpi.OutputCurrentLimitCV Scpi.OutputVoltageLimitCV Scpi.vp_HostIp].
    apply (writes_with_client (net HostIp)
             [line "SOUR:FUNC VOLT";
              line ("SOUR:CURR:LIM:POS:IMM:AMPL " +:+ Number_toString (Qabs c));
              line ("SOUR:CURR:LIM:NEG:IMM:AMPL " +:+ Number_toString (- Qabs c)%Q);
              line ("SOUR:VOLT:LEV:IMM:AMPL " +:+ Number_toString v)]).
    repeat apply writes_bind. apply writes_ret.
  - unfold Scpi.setVoltagePriorityMode, Scpi.with_client. simpl.
    destruct (Scpi.createClient (net HostIp)) as [[[]|e|] c0] eqn:H0; try discriminate.
    apply createClient_returned in H0.
    unfold Scpi.bind, Scpi.ret.
    destruct (Scpi.sendCommand "SOUR:FUNC VOLT" c0) as [[r1|e1|] c1] eqn:H1;
      try discriminate.
    destruct (Scpi.sendCommand _ c1) as [[r2|e2|] c2] eqn:H2; try discriminate.
    destruct (Scpi.sendCommand _ c2) as [[r3|e3|] c3] eqn:H3; try discriminate.
    destruct (Scpi.sendCommand _ c3) as [[r4|e4|] c4] eqn:H4; try discriminate.
    intros _. simpl.
    change c4 with (snd (Returned r4, c4)). rewrite <- H4.
    erewrite sendCommand_returned by (rewrite H4; reflexivity).
    change c3 with (snd (Returned r3, c3)). rewrite <- H3.
    erewrite sendCommand_returned by (rewrite H3; reflexivity).
    change c2 with (snd (Returned r2, c2)). rewrite <- H2.
    erewrite sendCommand_returned by (rewrite H2; reflexivity).
    change c1 with (snd (Returned r1, c1)). rewrite <- H1.
    erewrite sendCommand_returned by (rewrite H1; reflexivity).
    rewrite H0. reflexivity.
Qed.

Lemma C10_current_limit_sign_witness :
  let args := {| Scpi.vp_HostIp := "192.168.100.182"; Scpi.OutputVoltageLimitCV := 692;
                 Scpi.OutputCurrentLimitCV := (-32)%Q |} in
  cooperative mute
  /\ fst (Scpi.setVoltagePriorityMode (fun _ => mute) args) = Returned tt
  /\ Scpi.written (snd (Scpi.setVoltagePriorityMode (fun _ => mute) args))
     = [ "*IDN?" +:+ String "010" "";
         "SOUR:FUNC VOLT" +:+ String "010" "";
         "SOUR:CURR:LIM:POS:IMM:AMPL 32" +:+ String "010" "";
         "SOUR:CURR:LIM:NEG:IMM:AMPL -32" +:+ String "010" "";
         "SOUR:VOLT:LEV:IMM:AMPL 692" +:+ String "010" "" ].
Proof.
  intros args.
  assert (Hdev : cooperative mute) by (split; [reflexivity|split; constructor]).
  split; [exact Hdev|].
  destruct (C10_current_limit_sign (fun _ => mute) "192.168.100.182" 692 (-32)%Q)
    as (_ & Hrun & _).
  destruct (Hrun Hdev) as (Hr & Hw & _).
  split; [exact Hr|exact Hw].
Defined.

Section PowerCurve.
Local Open Scope Q_scope.



Lemma range_forallb (f : Z -> bool) a n z :
  forallb f (range a n) = true -> (a <= z < a + Z.of_nat n)%Z -> f z = true.
Proof.
  intros H Hz. rewrite forallb_forall in H. apply H.
  unfold range. apply in_map_iff. exists (Z.to_nat (z - a)). split; [lia|].
  apply in_seq. lia.
Qed.

End PowerCurve.




(** * Properties of pollHelper.ts *)

Section Logging.
Import PollHelper.

(** What [logMeasurementToCsv] does to the state: nothing, or, with logging
    enabled on a writable file, one row added to that file. *)
Lemma logMeasurementToCsv_cases s :
  logMeasurementToCsv s = s
  \/ (csvLoggingEnabled s = true /\ csvFilePath s <> ""
      /\ denied (runtime s) !! csvFilePath s = None
      /\ exists row,
           logMeasurementToCsv s
           = set_files (<[csvFilePath s := default "" (files (runtime s) !! csvFilePath s)
                                            +:+ row]> (files (runtime s))) s).
Proof.
  unfold logMeasurementToCsv, appendFileSync.
  destruct (negb (csvLoggingEnabled s) || String.eqb (csvFilePath s) "") eqn:E;
    [left; reflexivity|].
  apply orb_false_elim in E as [E1 E2].
  apply negb_false_iff in E1. apply String.eqb_neq in E2.
  destruct (denied (runtime s) !! csvFilePath s) eqn:D; [left; reflexivity|].
  right. split; [exact E1|]. split; [exact E2|]. split; [reflexivity|].
  eexists. reflexivity.
Qed.

(** The state [startCsvLogging] leaves: unchanged when logging is enabled;
    otherwise enabled with the file named, and the header written unless the
    write is refused. *)
Lemma startCsvLogging_state s :
  snd (startCsvLogging s)
  = if csvLoggingEnabled s then s
    else
      match denied (runtime s) !! csv_path s with
      | Some _ => set_csv true (csv_path s) s
      | None =>
          set_files (<[csv_path s := header]> (files (runtime s)))
            (set_csv true (csv_path s) s)
      end.
Proof.
  unfold startCsvLogging, initializeCsvLogging, writeFileSync.
  destruct (csvLoggingEnabled s); [reflexivity|]. cbn.
  destruct (denied (runtime s) !! _); reflexivity.
Qed.

End Logging.

Section Cache.
Import PollHelper.

Lemma cache_finally_block i s : cache (finally_block i s) = cache s.
Proof. unfold finally_block. repeat case_match; reflexivity. Qed.

Lemma cache_request_read i next s : cache (request_read i next s) = cache s.
Proof. unfold request_read. case_match; [reflexivity|apply cache_finally_block]. Qed.

Lemma cache_stopPollingCDS s : cache (stopPollingCDS s) = cache s.
Proof. unfold stopPollingCDS. repeat case_match; reflexivity. Qed.

Lemma cache_connect_and_poll i s : cache (connect_and_poll i s) = cache s.
Proof.
  unfold connect_and_poll. rewrite cache_request_read. case_match; reflexivity.
Qed.

Lemma cache_startPollingCDS ip intervalMs s :
  cache (startPollingCDS ip intervalMs s) = cache s.
Proof.
  unfold startPollingCDS. case_match.
  - rewrite cache_stopPollingCDS. reflexivity.
  - rewrite cache_connect_and_poll. reflexivity.
Qed.

Lemma cache_logMeasurementToCsv s : cache (logMeasurementToCsv s) = cache s.
Proof.
  destruct (logMeasurementToCsv_cases s) as [->|(_ & _ & _ & row & ->)]; reflexivity.
Qed.

Lemma cache_tick_settled k o s : cache (tick_settled k o s) = cache s.
Proof. unfold tick_settled. repeat case_match; reflexivity. Qed.

Lemma cache_startCsvLogging s : cache (snd (startCsvLogging s)) = cache s.
Proof. rewrite startCsvLogging_state. repeat case_match; reflexivity. Qed.

Lemma Math_round_integer q : is_integer (Math_round (Finite q)).
Proof. unfold Math_round, round_half_up. eexists. reflexivity. Qed.

Lemma round_half_up_integer z : round_half_up (inject_Z z) = inject_Z z.
Proof.
  unfold round_half_up. f_equal.
  unfold Qfloor, inject_Z, Qplus. cbn [Qnum Qden].
  change (Z.pos (1 * 2)) with 2%Z.
  replace (z * 2 + 1 * 1)%Z with (1 + z * 2)%Z by lia.
  rewrite Z.div_add by lia. reflexivity.
Qed.

(** [Math.round] returns a number it would leave as it is. *)
Lemma Math_round_rounded x : rounded (Math_round x).
Proof.
  unfold rounded. destruct x as [q| | |]; try reflexivity.
  unfold Math_round. f_equal. apply round_half_up_integer.
Qed.

Lemma integer_rounded x : is_integer x -> rounded x.
Proof.
  intros [z ->]. unfold rounded, Math_round. f_equal. apply round_half_up_integer.
Qed.

(** How a step changes the cache: not at all, or one field takes a rounded
    sample, the power field only a rounded sample above zero. *)
Lemma cache_step s e :
  cache (step s e) = cache s
  \/ exists x,
       match e with ReadSettled _ (Returned y) => x = y | _ => False end
       /\ (cache (step s e) = (getLastPowerCDS s, Math_round x, getLastCurrentCDS s)
           \/ cache (step s e) = (getLastPowerCDS s, getLastVoltageCDS s, Math_round x)
           \/ (number_lt (Finite 0) (Math_round x) = true
               /\ cache (step s e)
                  = (Math_round x, getLastVoltageCDS s, getLastCurrentCDS s))).
Proof.
  destruct e; cbn [step]; try (left; reflexivity).
  - left. apply cache_startPollingCDS.
  - left. apply cache_stopPollingCDS.
  - left. unfold cleanup_elapsed. repeat case_match; trivial.
    rewrite cache_connect_and_poll. reflexivity.
  - unfold read_settled.
    destruct (invocations (runtime s) !! i) as [inv|]; [|left; reflexivity].
    destruct (inv_stage inv), o as [x|err|]; try (left; reflexivity);
      try (left; apply cache_finally_block).
    + right. exists x. split; [reflexivity|]. left.
      rewrite cache_request_read. reflexivity.
    + rewrite cache_request_read.
      destruct (number_lt (Finite 0) (Math_round x)) eqn:E; [|left; reflexivity].
      right. exists x. split; [reflexivity|]. right. right. split; [exact E|reflexivity].
    + right. exists x. split; [reflexivity|]. right. left.
      rewrite cache_finally_block, cache_logMeasurementToCsv. reflexivity.
  - left. unfold timeout_fired. repeat case_match; trivial.
    rewrite cache_startPollingCDS. reflexivity.
  - left. unfold startSinkPowerPolling. case_match; reflexivity.
  - left. unfold stopSinkPowerPolling. case_match; reflexivity.
  - left. unfold interval_fired. case_match; reflexivity.
  - left. apply cache_tick_settled.
  - left. apply cache_startCsvLogging.
Qed.

Lemma all_rounded_step s e : all_rounded (cache s) -> all_rounded (cache (step s e)).
Proof.
  intros (Hp & Hv & Hc).
  destruct (cache_step s e) as [->|(x & _ & [->|[->|[_ ->]]])];
    repeat split; trivial; apply Math_round_rounded.
Qed.

Lemma all_rounded_run trace : forall s,
  all_rounded (cache s) -> all_rounded (cache (run s trace)).
Proof.
  induction trace as [|e trace IH]; intros s H; [exact H|].
  apply IH, all_rounded_step, H.
Qed.

Lemma integral_step s e :
  finite_sample e -> integral (cache s) -> integral (cache (step s e)).
Proof.
  intros Hfin (Hp & Hv & Hc).
  destruct (cache_step s e) as [->|(x & Hx & Hcase)]; [repeat split; trivial|].
  assert (Hint : is_integer (Math_round x)).
  { destruct e; try contradiction. destruct o; try contradiction. subst x.
    destruct Hfin as [q ->]. apply Math_round_integer. }
  destruct Hcase as [->|[->|[_ ->]]]; repeat split; trivial.
Qed.

Lemma integral_run trace : forall s,
  Forall finite_sample trace -> integral (cache s) -> integral (cache (run s trace)).
Proof.
  induction trace as [|e trace IH]; intros s Hfin H; [exact H|].
  apply Forall_cons in Hfin as [He Hfin].
  apply IH; [exact Hfin|]. apply integral_step; assumption.
Qed.

(** The power field is 0 or above zero. *)
Lemma power_step s e :
  getLastPowerCDS s = Finite 0 \/ number_lt (Finite 0) (getLastPowerCDS s) = true ->
  getLastPowerCDS (step s e) = Finite 0
  \/ number_lt (Finite 0) (getLastPowerCDS (step s e)) = true.
Proof.
  intros H. pose proof (cache_step s e) as Hc. unfold cache in Hc.
  destruct Hc as [Hc|(x & _ & [Hc|[Hc|[Hpos Hc]]])]; injection Hc as -> _ _; trivial.
  right. exact Hpos.
Qed.

Lemma power_run trace : forall s,
  getLastPowerCDS s = Finite 0 \/ number_lt (Finite 0) (getLastPowerCDS s) = true ->
  getLastPowerCDS (run s trace) = Finite 0
  \/ number_lt (Finite 0) (getLastPowerCDS (run s trace)) = true.
Proof.
  induction trace as [|e trace IH]; intros s H; [exact H|].
  apply IH, power_step, H.
Qed.

End Cache.

(** C9 (counterexample).  The first voltage read delivers NaN: the voltage
    field then holds NaN, which is no integer. *)
Lemma C9_nan_sample :
  let s := PollHelper.run (PollHelper.init "/data")
             [PollHelper.CallStartPollingCDS "192.168.100.80" 400;
              PollHelper.ReadSettled 0 (Returned NaN)] in
  PollHelper.getLastVoltageCDS s = NaN
  /\ ~ is_integer (PollHelper.getLastVoltageCDS s).
Proof.
  split; [reflexivity|]. intros [z Hz]. vm_compute in Hz. discriminate.
Qed.

(** C9 (amended).  Every value stored in the power, voltage and current
    fields is [Math.round] of the decoded sample, so in every execution
    from the zero-initialised state each getter returns a number that
    [Math.round] leaves as it is (an integer, NaN or an infinity), and the
    power field is 0 or above zero; as long as no read delivers NaN or an
    infinity, the three getters return integers. *)
Theorem C9_cache_holds_integers (storage : string) (trace : list PollHelper.event) :
  let s := PollHelper.run (PollHelper.init storage) trace in
  (Math_round (PollHelper.getLastPowerCDS s) = PollHelper.getLastPowerCDS s
   /\ Math_round (PollHelper.getLastVoltageCDS s) = PollHelper.getLastVoltageCDS s
   /\ Math_round (PollHelper.getLastCurrentCDS s) = PollHelper.getLastCurrentCDS s)
  /\ (PollHelper.getLastPowerCDS s = Finite 0
      \/ number_lt (Finite 0) (PollHelper.getLastPowerCDS s) = true)
  /\ (Forall finite_sample trace ->
      is_integer (PollHelper.getLastPowerCDS s)
      /\ is_integer (PollHelper.getLastVoltageCDS s)
      /\ is_integer (PollHelper.getLastCurrentCDS s)).
Proof.
  intros s. split; [|split].
  - apply (all_rounded_run trace (PollHelper.init storage)).
    repeat split; reflexivity.
  - apply (power_run trace (PollHelper.init storage)). left. reflexivity.
  - intros Hfin. apply (integral_run trace (PollHelper.init storage) Hfin).
    repeat split; exists 0%Z; reflexivity.
Qed.

Lemma C9_cache_holds_integers_witness :
  let trace := [PollHelper.CallStartPollingCDS "192.168.100.80" 400;
                PollHelper.ReadSettled 0 (Returned (Finite 229.5));
                PollHelper.ReadSettled 0 (Returned (Finite 4980.4));
                PollHelper.ReadSettled 0 (Returned (Finite 21.7))] in
  let s := PollHelper.run (PollHelper.init "/data") trace in
  Forall finite_sample trace
  /\ is_integer (PollHelper.getLastPowerCDS s)
  /\ is_integer (PollHelper.getLastVoltageCDS s)
  /\ is_integer (PollHelper.getLastCurrentCDS s).
Proof.
  intros trace s.
  assert (Hfin : Forall finite_sample trace).
  { repeat constructor; eexists; reflexivity. }
  split; [exact Hfin|].
  destruct (C9_cache_holds_integers "/data" trace) as (_ & _ & Hint).
  exact (Hint Hfin).
Defined.

Section PollCycle.
Import PollHelper.

Lemma lookup_set_stage i st s inv :
  invocations (runtime s) !! i = Some inv ->
  invocations (runtime (set_stage i st s)) !! i = Some (at_stage inv st).
Proof.
  intros H. unfold set_stage. simpl. rewrite list_lookup_alter, H.
  case_decide; [reflexivity|congruence].
Qed.

Lemma read_voltage i a inv v s :
  invocations (runtime s) !! i = Some inv -> inv_stage inv = AwaitVoltage ->
  adapter s = Some a ->
  read_settled i (Returned v) s
  = set_stage i AwaitPower (set_voltageValue (Math_round v) s).
Proof.
  intros Hi Hst Ha. unfold read_settled. rewrite Hi, Hst.
  unfold request_read. simpl. rewrite Ha. reflexivity.
Qed.

Lemma read_power i a inv p s :
  invocations (runtime s) !! i = Some inv -> inv_stage inv = AwaitPower ->
  adapter s = Some a ->
  read_settled i (Returned p) s
  = set_stage i AwaitCurrent
      (if number_lt (Finite 0) (Math_round p) then set_powerValue (Math_round p) s
       else s).
Proof.
  intros Hi Hst Ha. unfold read_settled. rewrite Hi, Hst.
  unfold request_read. destruct (number_lt _ _); simpl; rewrite Ha; reflexivity.
Qed.

Lemma read_current i inv c s :
  invocations (runtime s) !! i = Some inv -> inv_stage inv = AwaitCurrent ->
  read_settled i (Returned c) s
  = finally_block i (logMeasurementToCsv (set_currentValue (Math_round c) s)).
Proof. intros Hi Hst. unfold read_settled. rewrite Hi, Hst. reflexivity. Qed.

(** A finite sample at or below zero rounds to a value that is not
    positive. *)
Lemma round_half_up_nonpositive q : (q <= 0)%Q -> ~ (0 < round_half_up q)%Q.
Proof.
  intros Hq H. unfold round_half_up in H.
  assert (Hf : (Qfloor (q + (1 # 2)) <= Qfloor (1 # 2))%Z)
    by (apply Qfloor_resp_le; lra).
  change (Qfloor (1 # 2)) with 0%Z in Hf.
  change 0%Q with (inject_Z 0) in H. rewrite <- Zlt_Qlt in H. lia.
Qed.

(** A rounded sample above zero comes from a sample above zero. *)
Lemma round_positive p :
  number_lt (Finite 0) (Math_round p) = true -> number_lt (Finite 0) p = true.
Proof.
  destruct p as [q| | |]; trivial. cbn [Math_round number_lt].
  destruct (Qlt_le_dec 0 (round_half_up q)) as [H|_]; [|discriminate].
  destruct (Qlt_le_dec 0 q) as [_|Hq]; [reflexivity|].
  destruct (round_half_up_nonpositive q Hq H).
Qed.

(** A sample that is not above zero, NaN included, rounds to a value that
    is not above zero. *)
Lemma round_not_positive p :
  number_lt (Finite 0) p = false -> number_lt (Finite 0) (Math_round p) = false.
Proof.
  intros H. destruct (number_lt (Finite 0) (Math_round p)) eqn:E; [|reflexivity].
  apply round_positive in E. congruence.
Qed.

(** A sample at or below zero is not above zero. *)
Lemma le_zero_not_positive p :
  number_le p (Finite 0) = true -> number_lt (Finite 0) p = false.
Proof.
  destruct p as [q| | |]; try discriminate; [|reflexivity].
  cbn [number_le number_lt].
  destruct (Qlt_le_dec 0 q); [discriminate|reflexivity].
Qed.

End PollCycle.

(** C6.  In a poll cycle whose three reads deliver the samples [v], [p] and
    [c], the voltage and current fields become the rounded [v] and [c]; the
    power field becomes the rounded [p] when that is above zero and keeps
    its value otherwise; a sample [p] at or below zero leaves the power
    field as it was, as does every sample that is not above zero, and a
    changed power field means [p] was above zero. *)
Theorem C6_poll_cycle_cache_update (s : PollHelper.State) (i a : nat)
    (inv : PollHelper.Invocation) (v p c : number) :
  PollHelper.invocations (PollHelper.runtime s) !! i = Some inv ->
  PollHelper.inv_stage inv = PollHelper.AwaitVoltage ->
  PollHelper.adapter s = Some a ->
  let s' := PollHelper.run s
              [PollHelper.ReadSettled i (Returned v);
               PollHelper.ReadSettled i (Returned p);
               PollHelper.ReadSettled i (Returned c)] in
  PollHelper.getLastVoltageCDS s' = Math_round v
  /\ PollHelper.getLastCurrentCDS s' = Math_round c
  /\ PollHelper.getLastPowerCDS s'
     = (if number_lt (Finite 0) (Math_round p) then Math_round p
        else PollHelper.getLastPowerCDS s)
  /\ (number_le p (Finite 0) = true ->
      PollHelper.getLastPowerCDS s' = PollHelper.getLastPowerCDS s)
  /\ (number_lt (Finite 0) p = false ->
      PollHelper.getLastPowerCDS s' = PollHelper.getLastPowerCDS s)
  /\ (PollHelper.getLastPowerCDS s' <> PollHelper.getLastPowerCDS s ->
      number_lt (Finite 0) p = true).
Proof.
  intros Hi Hst Ha s'.
  assert (Hs' : s' = PollHelper.finally_block i
            (PollHelper.logMeasurementToCsv
               (PollHelper.set_currentValue (Math_round c)
                  (PollHelper.set_stage i PollHelper.AwaitCurrent
                     (if number_lt (Finite 0) (Math_round p)
                      then PollHelper.set_powerValue (Math_round p)
                             (PollHelper.set_stage i PollHelper.AwaitPower
                                (PollHelper.set_voltageValue (Math_round v) s))
                      else PollHelper.set_stage i PollHelper.AwaitPower
                             (PollHelper.set_voltageValue (Math_round v) s)))))).
  { subst s'. unfold PollHelper.run. simpl.
    rewrite (read_voltage i a inv v s Hi Hst Ha).
    set (s1 := PollHelper.set_stage i PollHelper.AwaitPower
                 (PollHelper.set_voltageValue (Math_round v) s)).
    assert (H1 : PollHelper.invocations (PollHelper.runtime s1) !! i
                 = Some (at_stage inv PollHelper.AwaitPower))
      by (apply lookup_set_stage; exact Hi).
    rewrite (read_power i a _ p s1 H1 eq_refl Ha).
    set (s2 := PollHelper.set_stage i PollHelper.AwaitCurrent _).
    assert (H2 : PollHelper.invocations (PollHelper.runtime s2) !! i
                 = Some (at_stage (at_stage inv PollHelper.AwaitPower)
                           PollHelper.AwaitCurrent)).
    { apply lookup_set_stage.
      destruct (number_lt (Finite 0) (Math_round p)); exact H1. }
    rewrite (read_current i _ c s2 H2 eq_refl). reflexivity. }
  assert (Hc : cache s' = (if number_lt (Finite 0) (Math_round p) then Math_round p
                           else PollHelper.getLastPowerCDS s,
                           Math_round v, Math_round c)).
  { rewrite Hs', cache_finally_block, cache_logMeasurementToCsv.
    destruct (number_lt (Finite 0) (Math_round p)); reflexivity. }
  assert (Hpow : PollHelper.getLastPowerCDS s'
                 = if number_lt (Finite 0) (Math_round p) then Math_round p
                   else PollHelper.getLastPowerCDS s)
    by (change (PollHelper.getLastPowerCDS s') with (fst (fst (cache s')));
        rewrite Hc; reflexivity).
  assert (Hvolt : PollHelper.getLastVoltageCDS s' = Math_round v)
    by (change (PollHelper.getLastVoltageCDS s') with (snd (fst (cache s')));
        rewrite Hc; reflexivity).
  assert (Hcur : PollHelper.getLastCurrentCDS s' = Math_round c)
    by (change (PollHelper.getLastCurrentCDS s') with (snd (cache s'));
        rewrite Hc; reflexivity).
  assert (Hkeep : number_lt (Finite 0) p = false ->
                  PollHelper.getLastPowerCDS s' = PollHelper.getLastPowerCDS s).
  { intros Hp. rewrite Hpow, (round_not_positive p Hp). reflexivity. }
  split; [exact Hvolt|]. split; [exact Hcur|]. split; [exact Hpow|].
  split; [|split; [exact Hkeep|]].
  - intros Hp. apply Hkeep, le_zero_not_positive, Hp.
  - intros Hne. rewrite Hpow in Hne.
    destruct (number_lt (Finite 0) (Math_round p)) eqn:H; [|congruence].
    apply round_positive, H.
Qed.

Lemma C6_poll_cycle_cache_update_witness :
  let s := PollHelper.run (PollHelper.init "/data")
             [PollHelper.CallStartPollingCDS "192.168.100.80" 400;
              PollHelper.ReadSettled 0 (Returned (Finite 400));
              PollHelper.ReadSettled 0 (Returned (Finite 5000));
              PollHelper.ReadSettled 0 (Returned (Finite 12));
              PollHelper.TimeoutFired 0;
              PollHelper.CleanupElapsed 1] in
  let s' := PollHelper.run s
              [PollHelper.ReadSettled 1 (Returned (Finite 399.6));
               PollHelper.ReadSettled 1 (Returned (Finite (-3.2)));
               PollHelper.ReadSettled 1 (Returned (Finite 11.5))] in
  PollHelper.getLastPowerCDS s = Finite 5000
  /\ PollHelper.getLastVoltageCDS s' = Finite 400
  /\ PollHelper.getLastCurrentCDS s' = Finite 12
  /\ PollHelper.getLastPowerCDS s' = Finite 5000.
Proof.
  intros s s'.
  pose proof (C6_poll_cycle_cache_update s 1 1
                {| PollHelper.inv_ip := "192.168.100.80";
                   PollHelper.inv_intervalMs := 400;
                   PollHelper.inv_stage := PollHelper.AwaitVoltage |}
                (Finite 399.6) (Finite (-3.2)) (Finite 11.5) eq_refl eq_refl eq_refl)
    as (Hv & Hc & Hp & _).
  split; [reflexivity|]. split; [exact Hv|]. split; [exact Hc|]. exact Hp.
Defined.

Section Stopped.
Import PollHelper.

Lemma stopPollingCDS_stopped s :
  intervalActive (functionGlobals (stopPollingCDS s)) = false
  /\ adapter (stopPollingCDS s) = None
  /\ invocations (runtime (stopPollingCDS s)) = invocations (runtime s)
  /\ timeouts (runtime (stopPollingCDS s)) = timeouts (runtime s).
Proof.
  unfold stopPollingCDS. simpl. destruct (adapter s) eqn:E; simpl; repeat split.
  exact E.
Qed.

Lemma finally_block_stopped i inv s :
  intervalActive (functionGlobals s) = false ->
  invocations (runtime s) !! i = Some inv ->
  finally_block i s = set_stage i Finished s.
Proof. intros Ha Hi. unfold finally_block. rewrite Hi, Ha. reflexivity. Qed.

Lemma request_read_stopped i inv next s :
  intervalActive (functionGlobals s) = false -> adapter s = None ->
  invocations (runtime s) !! i = Some inv ->
  request_read i next s = set_stage i Finished s.
Proof.
  intros Ha Hn Hi. unfold request_read. rewrite Hn.
  apply (finally_block_stopped i inv); assumption.
Qed.

(** A read that settles while the session is stopped: the call ends without
    a reschedule and without a further read; a delivered sample is stored. *)
Lemma read_settled_stopped i inv o s :
  intervalActive (functionGlobals s) = false -> adapter s = None ->
  invocations (runtime s) !! i = Some inv ->
  let s' := read_settled i o s in
  timeouts (runtime s') = timeouts (runtime s)
  /\ intervalActive (functionGlobals s') = false
  /\ adapter s' = None
  /\ cache s' = match inv_stage inv, o with
                | AwaitVoltage, Returned x =>
                    (getLastPowerCDS s, Math_round x, getLastCurrentCDS s)
                | AwaitPower, Returned x =>
                    (if number_lt (Finite 0) (Math_round x) then Math_round x
                     else getLastPowerCDS s,
                     getLastVoltageCDS s, getLastCurrentCDS s)
                | AwaitCurrent, Returned x =>
                    (getLastPowerCDS s, getLastVoltageCDS s, Math_round x)
                | _, _ => cache s
                end
  /\ (o <> Never -> inv_stage inv <> AwaitCleanup -> inv_stage inv <> Finished ->
      inv_stage <$> invocations (runtime s') !! i = Some Finished).
Proof.
  intros Ha Hn Hi s'. subst s'. unfold read_settled. rewrite Hi.
  destruct (inv_stage inv) eqn:Hst, o as [x|e|];
    try (repeat split; trivial; congruence).
  - rewrite (request_read_stopped i inv) by assumption.
    repeat split; trivial. intros _ _ _.
    erewrite lookup_set_stage by exact Hi. reflexivity.
  - rewrite (finally_block_stopped i inv) by assumption.
    repeat split; trivial. intros _ _ _.
    erewrite lookup_set_stage by exact Hi. reflexivity.
  - rewrite (request_read_stopped i inv)
      by (destruct (number_lt (Finite 0) (Math_round x)); assumption).
    destruct (number_lt (Finite 0) (Math_round x)); repeat split; trivial; intros _ _ _;
      erewrite lookup_set_stage by exact Hi; reflexivity.
  - rewrite (finally_block_stopped i inv) by assumption.
    repeat split; trivial. intros _ _ _.
    erewrite lookup_set_stage by exact Hi. reflexivity.
  - rewrite (finally_block_stopped i inv).
    + destruct (logMeasurementToCsv_cases (set_currentValue (Math_round x) s))
        as [->|(_ & _ & _ & row & ->)];
        repeat split; trivial; intros _ _ _;
        erewrite lookup_set_stage by exact Hi; reflexivity.
    + destruct (logMeasurementToCsv_cases (set_currentValue (Math_round x) s))
        as [->|(_ & _ & _ & row & ->)]; exact Ha.
    + destruct (logMeasurementToCsv_cases (set_currentValue (Math_round x) s))
        as [->|(_ & _ & _ & row & ->)]; exact Hi.
  - rewrite (finally_block_stopped i inv) by assumption.
    repeat split; trivial. intros _ _ _.
    erewrite lookup_set_stage by exact Hi. reflexivity.
Qed.

(** Without a poll cycle in flight: a reschedule armed before
    [stopPollingCDS] still fires, and the call it makes opens a new client
    and sets the session Active again. *)
Lemma pending_reschedule_after_stop :
  let s := run (init "/data")
             [CallStartPollingCDS "192.168.100.80" 400;
              ReadSettled 0 (Returned (Finite 400));
              ReadSettled 0 (Returned (Finite 5000));
              ReadSettled 0 (Returned (Finite 12));
              CallStopPollingCDS] in
  let s' := run s [TimeoutFired 0; ReadSettled 1 (Returned (Finite 230))] in
  (intervalActive (functionGlobals s) = false /\ timeouts (runtime s) = [("192.168.100.80", 400%nat)])
  /\ (intervalActive (functionGlobals s') = true /\ adapter s' = Some 1%nat
      /\ getLastVoltageCDS s' = Finite 230).
Proof. vm_compute. repeat split; reflexivity. Qed.

End Stopped.

(** C4 (counterexample).  A voltage read is in flight when [stopPollingCDS]
    is called; the read then delivers 230 and the voltage field, 0 when the
    call returned, is written. *)
Lemma C4_write_after_stop :
  let s := PollHelper.run (PollHelper.init "/data")
             [PollHelper.CallStartPollingCDS "192.168.100.80" 400;
              PollHelper.CallStopPollingCDS] in
  let s' := PollHelper.step s (PollHelper.ReadSettled 0 (Returned (Finite 230))) in
  PollHelper.getLastVoltageCDS s = Finite 0
  /\ PollHelper.getLastVoltageCDS s' = Finite 230
  /\ PollHelper.getLastVoltageCDS s' <> PollHelper.getLastVoltageCDS s.
Proof. vm_compute. repeat split; congruence. Qed.

(** C4 (amended).  When a read of a poll cycle is in flight at the moment
    [stopPollingCDS] returns and settles in that state, the cycle is not
    rescheduled, the session stays stopped and the call ends without a
    further read; but a delivered sample is still stored: the rounded
    voltage or current always, the rounded power when it is above zero.  A
    failed read leaves the cache as it was. *)
Theorem C4_read_in_flight_at_stop (s0 : PollHelper.State) (i : nat)
    (inv : PollHelper.Invocation) (o : outcome number) :
  PollHelper.invocations (PollHelper.runtime s0) !! i = Some inv ->
  let s := PollHelper.stopPollingCDS s0 in
  let s' := PollHelper.read_settled i o s in
  PollHelper.timeouts (PollHelper.runtime s') = PollHelper.timeouts (PollHelper.runtime s)
  /\ PollHelper.intervalActive (PollHelper.functionGlobals s') = false
  /\ PollHelper.adapter s' = None
  /\ cache s' = match PollHelper.inv_stage inv, o with
                | PollHelper.AwaitVoltage, Returned x =>
                    (PollHelper.getLastPowerCDS s, Math_round x,
                     PollHelper.getLastCurrentCDS s)
                | PollHelper.AwaitPower, Returned x =>
                    (if number_lt (Finite 0) (Math_round x) then Math_round x
                     else PollHelper.getLastPowerCDS s,
                     PollHelper.getLastVoltageCDS s, PollHelper.getLastCurrentCDS s)
                | PollHelper.AwaitCurrent, Returned x =>
                    (PollHelper.getLastPowerCDS s, PollHelper.getLastVoltageCDS s,
                     Math_round x)
                | _, _ => cache s
                end
  /\ (o <> Never -> PollHelper.inv_stage inv <> PollHelper.AwaitCleanup ->
      PollHelper.inv_stage inv <> PollHelper.Finished ->
      PollHelper.inv_stage <$> PollHelper.invocations (PollHelper.runtime s') !! i
      = Some PollHelper.Finished).
Proof.
  intros Hi s s'.
  destruct (stopPollingCDS_stopped s0) as (Ha & Hn & Hinv & _).
  apply read_settled_stopped; trivial.
  subst s. rewrite Hinv. exact Hi.
Qed.

Lemma C4_read_in_flight_at_stop_witness :
  let s0 := PollHelper.run (PollHelper.init "/data")
              [PollHelper.CallStartPollingCDS "192.168.100.80" 400] in
  let s := PollHelper.stopPollingCDS s0 in
  let s' := PollHelper.read_settled 0 (Returned (Finite 229.5)) s in
  PollHelper.timeouts (PollHelper.runtime s') = []
  /\ PollHelper.intervalActive (PollHelper.functionGlobals s') = false
  /\ cache s' = (Finite 0, Finite 230, Finite 0).
Proof.
  intros s0 s s'.
  pose proof (C4_read_in_flight_at_stop s0 0
                {| PollHelper.inv_ip := "192.168.100.80";
                   PollHelper.inv_intervalMs := 400;
                   PollHelper.inv_stage := PollHelper.AwaitVoltage |}
                (Returned (Finite 229.5)) eq_refl)
    as (Ht & Ha & _ & Hc & _).
  split; [exact Ht|]. split; [exact Ha|]. exact Hc.
Defined.

Section Session.
Import PollHelper.

Lemma session_finally_block i s : session (finally_block i s) = session s.
Proof. unfold finally_block. repeat case_match; reflexivity. Qed.

Lemma session_request_read i next s : session (request_read i next s) = session s.
Proof. unfold request_read. case_match; [reflexivity|apply session_finally_block]. Qed.

Lemma session_logMeasurementToCsv s : session (logMeasurementToCsv s) = session s.
Proof.
  destruct (logMeasurementToCsv_cases s) as [->|(_ & _ & _ & row & ->)]; reflexivity.
Qed.

Lemma session_tick_settled k o s : session (tick_settled k o s) = session s.
Proof. unfold tick_settled. repeat case_match; reflexivity. Qed.

Lemma session_read_settled i o s : session (read_settled i o s) = session s.
Proof.
  unfold read_settled. repeat case_match; trivial;
    rewrite ?session_request_read, ?session_finally_block,
      ?session_logMeasurementToCsv; reflexivity.
Qed.

Lemma session_stopPollingCDS s :
  session (stopPollingCDS s)
  = (false, None,
     match adapter s with
     | Some c => <[c := false]> (connections (runtime s))
     | None => connections (runtime s)
     end).
Proof.
  unfold stopPollingCDS. simpl. destruct (adapter s) eqn:E; unfold session; simpl.
  - reflexivity.
  - rewrite E. reflexivity.
Qed.

Lemma session_connect_and_poll i s :
  session (connect_and_poll i s)
  = match adapter s with
    | None => (true, Some (length (connections (runtime s))),
               (connections (runtime s) ++ [true])%list)
    | Some _ => session s
    end.
Proof.
  unfold connect_and_poll. rewrite session_request_read.
  destruct (adapter s); reflexivity.
Qed.

Lemma close_last c :
  <[c := false]> (replicate c false ++ [true])%list = replicate (S c) false.
Proof. induction c as [|c IH]; simpl; [reflexivity|]. f_equal. exact IH. Qed.

Lemma coherent_stop s : coherent (session s) -> coherent (session (stopPollingCDS s)).
Proof.
  rewrite session_stopPollingCDS. unfold session, coherent.
  destruct (adapter s) as [c|]; intros [_ Hc]; split; trivial.
  - rewrite Hc, close_last, length_replicate. reflexivity.
Qed.

Lemma coherent_connect_and_poll i s :
  coherent (session s) -> coherent (session (connect_and_poll i s)).
Proof.
  rewrite session_connect_and_poll. unfold session at 1. unfold coherent at 1.
  destruct (adapter s) as [c|] eqn:E; intros [Ha Hc].
  - unfold session, coherent. rewrite E. auto.
  - simpl. split; [reflexivity|]. rewrite Hc at 1. reflexivity.
Qed.

Lemma coherent_invocations l s :
  coherent (session s) -> coherent (session (set_invocations l s)).
Proof. trivial. Qed.

Lemma coherent_start ip intervalMs s :
  coherent (session s) -> coherent (session (startPollingCDS ip intervalMs s)).
Proof.
  intros H. unfold startPollingCDS. case_match.
  - apply coherent_stop, coherent_invocations, H.
  - apply coherent_connect_and_poll, coherent_invocations, H.
Qed.

Lemma coherent_step s e : coherent (session s) -> coherent (session (step s e)).
Proof.
  intros H. destruct e; cbn [step].
  - apply coherent_start, H.
  - apply coherent_stop, H.
  - unfold cleanup_elapsed.
    destruct (invocations (runtime s) !! i) as [inv|]; [|exact H].
    destruct (inv_stage inv); trivial. apply coherent_connect_and_poll, H.
  - rewrite session_read_settled. exact H.
  - unfold timeout_fired.
    destruct (timeouts (runtime s) !! k) as [[ip intervalMs]|]; [|exact H].
    apply coherent_start. exact H.
  - unfold startSinkPowerPolling. destruct (sinkPowerInterval s); exact H.
  - unfold stopSinkPowerPolling. destruct (sinkPowerInterval s); exact H.
  - unfold interval_fired. destruct (sinkPowerInterval s); exact H.
  - rewrite session_tick_settled. exact H.
  - rewrite startCsvLogging_state. repeat case_match; exact H.
  - exact H.
  - exact H.
  - exact H.
Qed.

Lemma coherent_run trace : forall s,
  coherent (session s) -> coherent (session (run s trace)).
Proof.
  induction trace as [|e trace IH]; intros s H; [exact H|].
  apply IH, coherent_step, H.
Qed.

Lemma coherent_init storage : coherent (session (init storage)).
Proof. split; reflexivity. Qed.

Lemma no_live_replicate n : filter (fun b : bool => b = true) (replicate n false) = [].
Proof.
  induction n as [|n IH]; [reflexivity|]. simpl. rewrite filter_cons.
  destruct (decide _); [discriminate|exact IH].
Qed.

(** In a coherent session the connected clients are the adapter, if any. *)
Lemma coherent_live s :
  coherent (session s) ->
  live s = match adapter s with Some _ => 1 | None => 0 end%nat.
Proof.
  unfold session, coherent, live.
  destruct (adapter s) as [c|]; intros [_ Hc]; rewrite Hc.
  - rewrite filter_app, no_live_replicate. reflexivity.
  - rewrite no_live_replicate. reflexivity.
Qed.

End Session.

(** C3 (counterexample).  A second [startPollingCDS] while the session is
    Active disconnects the adapter of the running session and, after its
    100 ms wait, constructs a second client: two clients have been opened. *)
Lemma C3_second_start_reconnects :
  let s := PollHelper.run (PollHelper.init "/data")
             [PollHelper.CallStartPollingCDS "192.168.100.80" 400] in
  let s1 := PollHelper.step s (PollHelper.CallStartPollingCDS "192.168.100.80" 400) in
  let s2 := PollHelper.step s1 (PollHelper.CleanupElapsed 1) in
  (PollHelper.intervalActive (PollHelper.functionGlobals s) = true
   /\ PollHelper.adapter s = Some 0%nat /\ PollHelper.opened s = 1%nat)
  /\ (PollHelper.adapter s1 = None
      /\ PollHelper.connections (PollHelper.runtime s1) = [false])
  /\ (PollHelper.adapter s2 = Some 1%nat /\ PollHelper.opened s2 = 2%nat
      /\ PollHelper.opened s2 <> 1%nat).
Proof. vm_compute. repeat split; congruence. Qed.

(** C3 (amended).  When [startPollingCDS] is called while the session is
    Active, the call first stops the running session, which disconnects its
    adapter, and after the 100 ms wait constructs a new client, so the
    number of clients opened grows by one; at every moment of every
    execution at most one client is connected. *)
Theorem C3_start_while_active (storage : string) (trace : list PollHelper.event)
    (ip : string) (intervalMs : nat) :
  let s := PollHelper.run (PollHelper.init storage) trace in
  PollHelper.intervalActive (PollHelper.functionGlobals s) = true ->
  let s1 := PollHelper.startPollingCDS ip intervalMs s in
  let s2 := PollHelper.cleanup_elapsed
              (length (PollHelper.invocations (PollHelper.runtime s))) s1 in
  (PollHelper.intervalActive (PollHelper.functionGlobals s1) = false
   /\ PollHelper.adapter s1 = None
   /\ PollHelper.live s1 = 0%nat
   /\ PollHelper.opened s1 = PollHelper.opened s)
  /\ (PollHelper.intervalActive (PollHelper.functionGlobals s2) = true
      /\ PollHelper.adapter s2 = Some (PollHelper.opened s)
      /\ PollHelper.opened s2 = S (PollHelper.opened s)
      /\ PollHelper.live s2 = 1%nat)
  /\ (forall t : list PollHelper.event,
        (PollHelper.live (PollHelper.run (PollHelper.init storage) t) <= 1)%nat).
Proof.
  intros s Hactive s1 s2.
  assert (Hs : coherent (session s))
    by (apply coherent_run, coherent_init).
  set (s0 := PollHelper.set_invocations
               (PollHelper.invocations (PollHelper.runtime s)
                  ++ [ {| PollHelper.inv_ip := ip; PollHelper.inv_intervalMs := intervalMs;
                          PollHelper.inv_stage := PollHelper.AwaitCleanup |} ])%list s).
  assert (H1 : s1 = PollHelper.stopPollingCDS s0).
  { subst s1. unfold PollHelper.startPollingCDS. fold s0.
    change (PollHelper.intervalActive (PollHelper.functionGlobals s0))
      with (PollHelper.intervalActive (PollHelper.functionGlobals s)).
    rewrite Hactive. reflexivity. }
  assert (Hs1 : coherent (session s1))
    by (rewrite H1; apply coherent_stop; exact Hs).
  destruct (stopPollingCDS_stopped s0) as (Ha1 & Hn1 & Hinv1 & _).
  rewrite <- H1 in Ha1, Hn1, Hinv1.
  assert (Ho1 : PollHelper.opened s1 = PollHelper.opened s).
  { pose proof (session_stopPollingCDS s0) as E. rewrite <- H1 in E.
    unfold session in E. injection E as _ _ E. unfold PollHelper.opened. rewrite E.
    change (PollHelper.connections (PollHelper.runtime s0))
      with (PollHelper.connections (PollHelper.runtime s)).
    change (PollHelper.adapter s0) with (PollHelper.adapter s).
    destruct (PollHelper.adapter s); [apply length_insert|reflexivity]. }
  assert (H2 : s2 = PollHelper.connect_and_poll
                      (length (PollHelper.invocations (PollHelper.runtime s))) s1).
  { subst s2. unfold PollHelper.cleanup_elapsed. rewrite Hinv1.
    change (PollHelper.invocations (PollHelper.runtime s0))
      with (PollHelper.invocations (PollHelper.runtime s)
              ++ [ {| PollHelper.inv_ip := ip; PollHelper.inv_intervalMs := intervalMs;
                      PollHelper.inv_stage := PollHelper.AwaitCleanup |} ])%list.
    rewrite list_lookup_middle by reflexivity. reflexivity. }
  assert (E2 : session s2 = (true, Some (PollHelper.opened s),
                             (PollHelper.connections (PollHelper.runtime s1) ++ [true])%list)).
  { rewrite H2, session_connect_and_poll, Hn1. unfold PollHelper.opened in Ho1.
    rewrite Ho1. reflexivity. }
  assert (Hs2 : coherent (session s2))
    by (rewrite H2; apply coherent_connect_and_poll; exact Hs1).
  unfold session in E2. injection E2 as Ha2 Hn2 Hc2.
  split; [|split].
  - repeat split; trivial. rewrite (coherent_live s1 Hs1), Hn1. reflexivity.
  - repeat split; trivial.
    + unfold PollHelper.opened in *. rewrite Hc2, length_app, Ho1.
      cbn [length]. lia.
    + rewrite (coherent_live s2 Hs2), Hn2. reflexivity.
  - intros t.
    rewrite (coherent_live _ (coherent_run t _ (coherent_init storage))).
    destruct (PollHelper.adapter (PollHelper.run (PollHelper.init storage) t)); lia.
Qed.

Lemma C3_start_while_active_witness :
  let s := PollHelper.run (PollHelper.init "/data")
             [PollHelper.CallStartPollingCDS "192.168.100.80" 400] in
  let s1 := PollHelper.startPollingCDS "192.168.100.80" 400 s in
  let s2 := PollHelper.cleanup_elapsed 1 s1 in
  PollHelper.intervalActive (PollHelper.functionGlobals s) = true
  /\ PollHelper.adapter s1 = None
  /\ PollHelper.adapter s2 = Some 1%nat
  /\ PollHelper.opened s2 = 2%nat
  /\ PollHelper.live s2 = 1%nat.
Proof.
  intros s s1 s2.
  pose proof (C3_start_while_active "/data"
                [PollHelper.CallStartPollingCDS "192.168.100.80" 400]
                "192.168.100.80" 400 eq_refl)
    as ((_ & Hn1 & _) & (_ & Hn2 & Ho2 & Hl2) & _).
  split; [reflexivity|]. split; [exact Hn1|]. split; [exact Hn2|].
  split; [exact Ho2|exact Hl2].
Defined.

Section SinkPolling.
Import PollHelper.















End SinkPolling.







(** * Further properties of scpiHelper.ts *)


(** X1.  When the write succeeds and the next event of the socket is data
    that arrives before the 1000 ms of the command are over, [sendCommand]
    resolves with successful = true and the trimmed text and the event is
    used up; this holds of every command on a connection.  When it is so
    for the MEAS:POW? that [getSinkPowerValue] sends on the connection it
    has opened, [getSinkPowerValue] returns that object. *)
Theorem X1_response_resolves (net : string -> Scpi.Device) (HostIp command : string)
    (client opened : Scpi.Socket) (t t' : nat) (data data' : string)
    (rest rest' : list (nat * Scpi.sock_event)) :
  Scpi.next_fault client = None ->
  Scpi.incoming client = (t, Scpi.SockData data) :: rest ->
  (t < Scpi.clock client + 1000)%nat ->
  Scpi.createClient (net HostIp) = (Returned tt, opened) ->
  Scpi.next_fault opened = None ->
  Scpi.incoming opened = (t', Scpi.SockData data') :: rest' ->
  (t' < Scpi.clock opened + 1000)%nat ->
  (fst (Scpi.sendCommand command client)
   = Returned {| Scpi.successful := true; Scpi.msg := trim data |}
   /\ Scpi.incoming (snd (Scpi.sendCommand command client)) = rest)
  /\ fst (Scpi.getSinkPowerValue net HostIp)
     = Returned {| Scpi.successful := true; Scpi.msg := trim data' |}.
Proof.
  intros Hw Hin Ht Hopen Hw' Hin' Ht'.
  assert (Hsend : forall c k u d r,
            Scpi.next_fault k = None ->
            Scpi.incoming k = (u, Scpi.SockData d) :: r ->
            (u < Scpi.clock k + 1000)%nat ->
            fst (Scpi.sendCommand c k)
            = Returned {| Scpi.successful := true; Scpi.msg := trim d |}
            /\ Scpi.incoming (snd (Scpi.sendCommand c k)) = r).
  { intros c k u d r Hf Hi Hu. unfold Scpi.sendCommand. cbn [fst snd Scpi.incoming].
    rewrite run_executor_settled, Hf, (early_event k u _ r Hi Hu), Hi.
    split; reflexivity. }
  split; [apply (Hsend command client t data rest); assumption|].
  unfold Scpi.getSinkPowerValue, Scpi.with_client. rewrite Hopen.
  unfold Scpi.bind.
  destruct (Hsend "MEAS:POW?" opened t' data' rest' Hw' Hin' Ht') as [Hr _].
  destruct (Scpi.sendCommand "MEAS:POW?" opened) as [o c]. simpl in Hr. subst o.
  reflexivity.
Qed.

Lemma X1_response_resolves_witness :
  let dev := {| Scpi.connect_error := None; Scpi.write_errors := [];
                Scpi.traffic := [(300%nat, Scpi.SockData "ACME,PSB 9000");
                                 (1012%nat, Scpi.SockData (" 4980.5" +:+ String "010" ""))] |} in
  let client := {| Scpi.written := []; Scpi.faults := [];
                   Scpi.incoming := [(5%nat, Scpi.SockData "ok")];
                   Scpi.clock := 0; Scpi.ended := false |} in
  fst (Scpi.sendCommand "OUTP ON" client)
  = Returned {| Scpi.successful := true; Scpi.msg := "ok" |}
  /\ fst (Scpi.getSinkPowerValue (fun _ => dev) "192.168.100.182")
     = Returned {| Scpi.successful := true; Scpi.msg := "4980.5" |}.
Proof.
  intros dev client.
  destruct (X1_response_resolves (fun _ => dev) "192.168.100.182" "OUTP ON" client
              {| Scpi.written := ["*IDN?" +:+ String "010" ""]; Scpi.faults := [];
                 Scpi.incoming := [(1012%nat, Scpi.SockData (" 4980.5" +:+ String "010" ""))];
                 Scpi.clock := 300; Scpi.ended := false |}
              5 1012 "ok" (" 4980.5" +:+ String "010" "") [] []
              eq_refl eq_refl ltac:(simpl; lia) eq_refl eq_refl eq_refl ltac:(simpl; lia))
    as [[H1 _] H2].
  split; [exact H1|exact H2].
Defined.

(** X2.  When [client.write] throws, or when the write succeeds and the next
    event of the socket is an error that arrives before the 1000 ms of the
    command are over, [sendCommand] rejects with that error; this holds of
    every command on a connection.  When it is so for the MEAS:POW? that
    [getSinkPowerValue] sends on the connection it has opened,
    [getSinkPowerValue] throws the error and has ended its socket. *)
Theorem X2_error_rejects (net : string -> Scpi.Device) (HostIp command : string)
    (client opened : Scpi.Socket) (t t' : nat) (err err' : string)
    (rest rest' : list (nat * Scpi.sock_event)) :
  Scpi.next_fault client = Some err
  \/ (Scpi.next_fault client = None
      /\ Scpi.incoming client = (t, Scpi.SockError err) :: rest
      /\ (t < Scpi.clock client + 1000)%nat) ->
  Scpi.createClient (net HostIp) = (Returned tt, opened) ->
  Scpi.next_fault opened = Some err'
  \/ (Scpi.next_fault opened = None
      /\ Scpi.incoming opened = (t', Scpi.SockError err') :: rest'
      /\ (t' < Scpi.clock opened + 1000)%nat) ->
  fst (Scpi.sendCommand command client) = Threw err
  /\ fst (Scpi.getSinkPowerValue net HostIp) = Threw err'
  /\ Scpi.ended (snd (Scpi.getSinkPowerValue net HostIp)) = true.
Proof.
  intros Hcase Hopen Hcase'.
  assert (Hsend : forall c k u e r,
            Scpi.next_fault k = Some e
            \/ (Scpi.next_fault k = None
                /\ Scpi.incoming k = (u, Scpi.SockError e) :: r
                /\ (u < Scpi.clock k + 1000)%nat) ->
            fst (Scpi.sendCommand c k) = Threw e).
  { intros c k u e r [Hf|(Hf & Hi & Hu)]; unfold Scpi.sendCommand; cbn [fst];
      rewrite run_executor_settled, Hf.
    - reflexivity.
    - rewrite (early_event k u _ r Hi Hu). reflexivity. }
  split; [apply (Hsend command client t err rest Hcase)|].
  unfold Scpi.getSinkPowerValue, Scpi.with_client. rewrite Hopen.
  unfold Scpi.bind. pose proof (Hsend "MEAS:POW?" opened t' err' rest' Hcase') as Hr.
  destruct (Scpi.sendCommand "MEAS:POW?" opened) as [o c]. simpl in Hr. subst o.
  split; reflexivity.
Qed.

Lemma X2_error_rejects_witness :
  let dev := {| Scpi.connect_error := None; Scpi.write_errors := [];
                Scpi.traffic := [(300%nat, Scpi.SockData "ACME,PSB 9000");
                                 (303%nat, Scpi.SockError "ECONNRESET")] |} in
  let client := {| Scpi.written := []; Scpi.faults := [Some "EPIPE"];
                   Scpi.incoming := []; Scpi.clock := 0; Scpi.ended := false |} in
  fst (Scpi.sendCommand "OUTP ON" client) = Threw "EPIPE"
  /\ fst (Scpi.getSinkPowerValue (fun _ => dev) "192.168.100.182") = Threw "ECONNRESET"
  /\ Scpi.ended (snd (Scpi.getSinkPowerValue (fun _ => dev) "192.168.100.182")) = true.
Proof.
  intros dev client.
  apply (X2_error_rejects (fun _ => dev) "192.168.100.182" "OUTP ON" client
           {| Scpi.written := ["*IDN?" +:+ String "010" ""]; Scpi.faults := [];
              Scpi.incoming := [(303%nat, Scpi.SockError "ECONNRESET")];
              Scpi.clock := 300; Scpi.ended := false |}
           0 303 "EPIPE" "ECONNRESET" [] []).
  - left. reflexivity.
  - reflexivity.
  - right. split; [reflexivity|]. split; [reflexivity|simpl; lia].
Defined.

(** X3.  Every exported operation of scpiHelper.ts gives its caller an
    answer (it returns or throws, the awaited promise never stays pending);
    when the connection is refused it throws the connection error and has
    written nothing; when the connection is established the socket has been
    ended by the time the operation is over, whatever its outcome. *)
Theorem X3_operations_release_the_socket (net : string -> Scpi.Device)
    (vp : Scpi.VoltagePriorityArgs) (cp : Scpi.CurrentPriorityArgs)
    (args : gmap string jsval) (HostIp Group : string) :
  released (net (Scpi.vp_HostIp vp)) (Scpi.setVoltagePriorityMode net vp)
  /\ released (net (Scpi.cp_HostIp cp)) (Scpi.setCurrentPriorityMode net cp)
  /\ released (net (ToString (get_prop args "HostIp"))) (Scpi.setCurrentSetPoint net args)
  /\ released (net (ToString (get_prop args "HostIp"))) (Scpi.setOutput net args)
  /\ released (net HostIp) (Scpi.getSinkPowerValue net HostIp)
  /\ released (net HostIp) (Scpi.setGroupMode net HostIp Group).
Proof.
  assert (Hsend : forall (c : string) (k : Scpi.M unit),
            settles k -> settles (Scpi.bind (Scpi.sendCommand c) (fun _ => k))).
  { intros c k Hk. apply settles_bind; [apply settles_sendCommand|intros _; exact Hk]. }
  assert (Hret : settles (Scpi.ret tt)) by apply settles_ret.
  split; [|split; [|split; [|split; [|split]]]].
  - unfold Scpi.setVoltagePriorityMode. apply with_client_released.
    repeat apply Hsend. exact Hret.
  - unfold Scpi.setCurrentPriorityMode. apply with_client_released.
    repeat apply Hsend. exact Hret.
  - unfold Scpi.setCurrentSetPoint. apply with_client_released.
    apply Hsend, Hret.
  - unfold Scpi.setOutput. apply with_client_released.
    apply settles_bind; [|intros _; exact Hret].
    destruct (strict_eq_true _); apply settles_sendCommand.
  - unfold Scpi.getSinkPowerValue. apply with_client_released.
    apply settles_bind; [apply settles_sendCommand|intros r; apply settles_ret].
  - unfold Scpi.setGroupMode. apply with_client_released.
    apply Hsend, Hret.
Qed.

(** X4.  Whatever the device does, the lines the two mode-setting operations
    have written are an initial part of their full command sequence, in
    order: a failing command ends the operation and nothing after it is
    sent. *)
Theorem X4_mode_commands_in_order (net : string -> Scpi.Device)
    (vp : Scpi.VoltagePriorityArgs) (cp : Scpi.CurrentPriorityArgs) :
  Scpi.written (snd (Scpi.setVoltagePriorityMode net vp))
    `prefix_of`
    [ line "*IDN?";
      line "SOUR:FUNC VOLT";
      line ("SOUR:CURR:LIM:POS:IMM:AMPL "
              +:+ Number_toString (Math_abs (Scpi.OutputCurrentLimitCV vp)));
      line ("SOUR:CURR:LIM:NEG:IMM:AMPL "
              +:+ Number_toString (- Math_abs (Scpi.OutputCurrentLimitCV vp))%Q);
      line ("SOUR:VOLT:LEV:IMM:AMPL " +:+ Number_toString (Scpi.OutputVoltageLimitCV vp)) ]
  /\ Scpi.written (snd (Scpi.setCurrentPriorityMode net cp))
    `prefix_of`
    [ line "*IDN?";
      line "SOUR:FUNC CURR";
      line ("SOUR:CURR " +:+ Number_toString (Math_abs (Scpi.OutputCurrentLimitCC cp)));
      line ("SOUR:VOLT:LIM:POS:IMM:AMPL "
              +:+ Number_toString (Scpi.OutputVoltageLimitCC cp)) ].
Proof.
  split.
  - unfold Scpi.setVoltagePriorityMode. apply writes_with_client.
    repeat apply writes_bind. apply writes_ret.
  - unfold Scpi.setCurrentPriorityMode. apply writes_with_client.
    repeat apply writes_bind. apply writes_ret.
Qed.

(** X5.  [setCurrentPriorityMode] sends the magnitude of the current limit:
    the operation is the same for a limit [c] and for [-c], and when it
    returns the lines written are the probe, SOUR:FUNC CURR, SOUR:CURR |c|
    and the voltage limit. *)
Theorem X5_current_priority_sends_magnitude (net : string -> Scpi.Device)
    (HostIp : string) (c v : Q) :
  Scpi.setCurrentPriorityMode net
    {| Scpi.cp_HostIp := HostIp; Scpi.OutputCurrentLimitCC := c;
       Scpi.OutputVoltageLimitCC := v |}
  = Scpi.setCurrentPriorityMode net
    {| Scpi.cp_HostIp := HostIp; Scpi.OutputCurrentLimitCC := (- c)%Q;
       Scpi.OutputVoltageLimitCC := v |}
  /\ (fst (Scpi.setCurrentPriorityMode net
             {| Scpi.cp_HostIp := HostIp; Scpi.OutputCurrentLimitCC := c;
                Scpi.OutputVoltageLimitCC := v |}) = Returned tt ->
      Scpi.written (snd (Scpi.setCurrentPriorityMode net
             {| Scpi.cp_HostIp := HostIp; Scpi.OutputCurrentLimitCC := c;
                Scpi.OutputVoltageLimitCC := v |}))
      = [ line "*IDN?";
          line "SOUR:FUNC CURR";
          line ("SOUR:CURR " +:+ Number_toString (Qabs c));
          line ("SOUR:VOLT:LIM:POS:IMM:AMPL " +:+ Number_toString v) ]).
Proof.
  split.
  - unfold Scpi.setCurrentPriorityMode.
    cbn [Scpi.OutputCurrentLimitCC Scpi.OutputVoltageLimitCC Scpi.cp_HostIp].
    rewrite Math_abs_opp. reflexivity.
  - unfold Scpi.setCurrentPriorityMode, Scpi.with_client. simpl.
    destruct (Scpi.createClient (net HostIp)) as [[[]|e|] c0] eqn:H0; try discriminate.
    apply createClient_returned in H0.
    unfold Scpi.bind, Scpi.ret.
    destruct (Scpi.sendCommand "SOUR:FUNC CURR" c0) as [[r1|e1|] c1] eqn:H1;
      try discriminate.
    destruct (Scpi.sendCommand _ c1) as [[r2|e2|] c2] eqn:H2; try discriminate.
    destruct (Scpi.sendCommand _ c2) as [[r3|e3|] c3] eqn:H3; try discriminate.
    intros _. simpl.
    change c3 with (snd (Returned r3, c3)). rewrite <- H3.
    erewrite sendCommand_returned by (rewrite H3; reflexivity).
    change c2 with (snd (Returned r2, c2)). rewrite <- H2.
    erewrite sendCommand_returned by (rewrite H2; reflexivity).
    change c1 with (snd (Returned r1, c1)). rewrite <- H1.
    erewrite sendCommand_returned by (rewrite H1; reflexivity).
    rewrite H0. reflexivity.
Qed.

(** X6.  While the cached CDS voltage is below 200, the [setOutput] handler
    never writes OUTP ON, whatever the request asks for and whatever the
    device does. *)
Theorem X6_low_voltage_never_switches_on (s : PollHelper.State)
    (net : string -> Scpi.Device) (args : gmap string jsval) :
  number_lt (PollHelper.getLastVoltageCDS s) (Finite 200) = true ->
  line "OUTP ON" ∉ Scpi.written (snd (Index.handle_setOutput s net args)).
Proof.
  intros Hlow Hin. rewrite (handle_setOutput_low_voltage s net args Hlow) in Hin.
  assert (Hp : Scpi.written
                 (snd (Scpi.with_client (net (ToString (get_prop args "HostIp")))
                         (Scpi.bind (Scpi.sendCommand "OUTP OFF") (fun _ => Scpi.ret tt))))
               `prefix_of` [line "*IDN?"; line "OUTP OFF"])
    by (apply writes_with_client, writes_bind, writes_ret).
  destruct Hp as [k Hk].
  assert (Hin' : line "OUTP ON" ∈ [line "*IDN?"; line "OUTP OFF"])
    by (rewrite Hk; apply elem_of_app; left; exact Hin).
  apply elem_of_cons in Hin' as [H|Hin']; [discriminate|].
  apply elem_of_cons in Hin' as [H|Hin']; [discriminate|].
  apply elem_of_nil in Hin'. exact Hin'.
Qed.

Lemma X6_low_voltage_never_switches_on_witness :
  let s := PollHelper.run (PollHelper.init "/data")
             [PollHelper.CallStartPollingCDS "192.168.100.80" 400;
              PollHelper.ReadSettled 0 (Returned (Finite 199.4))] in
  number_lt (PollHelper.getLastVoltageCDS s) (Finite 200) = true
  /\ line "OUTP ON"
       ∉ Scpi.written (snd (Index.handle_setOutput s (fun _ => mute)
                              (<["OutputState" := JBool true]> ∅))).
Proof.
  intros s.
  assert (H : number_lt (PollHelper.getLastVoltageCDS s) (Finite 200) = true)
    by reflexivity.
  split; [exact H|].
  apply (X6_low_voltage_never_switches_on s (fun _ => mute) _ H).
Defined.

(** X7.  A request object without the property the operation reads: without
    [OutputState], [setOutput] switches the output off; without
    [CurrentSetPoint], [setCurrentSetPoint] sends the text "undefined" as the
    setpoint. *)
Theorem X7_missing_property (net : string -> Scpi.Device) (args : gmap string jsval) :
  (args !! "OutputState" = None ->
   fst (Scpi.setOutput net args) = Returned tt ->
   Scpi.written (snd (Scpi.setOutput net args)) = [line "*IDN?"; line "OUTP OFF"])
  /\ (args !! "CurrentSetPoint" = None ->
      fst (Scpi.setCurrentSetPoint net args) = Returned tt ->
      Scpi.written (snd (Scpi.setCurrentSetPoint net args))
      = [line "*IDN?"; line "SOUR:CURR undefined"]).
Proof.
  split; intros Hmiss.
  - assert (Hu : get_prop args "OutputState" = JUndefined)
      by (unfold get_prop; rewrite Hmiss; reflexivity).
    unfold Scpi.setOutput, Scpi.with_client. rewrite Hu. cbn [strict_eq_true].
    destruct (Scpi.createClient _) as [[[]|e|] c0] eqn:H0; try discriminate.
    apply createClient_returned in H0. unfold Scpi.bind, Scpi.ret.
    destruct (Scpi.sendCommand "OUTP OFF" c0) as [[r1|e1|] c1] eqn:H1; try discriminate.
    intros _. simpl. change c1 with (snd (Returned r1, c1)). rewrite <- H1.
    erewrite sendCommand_returned by (rewrite H1; reflexivity).
    rewrite H0. reflexivity.
  - assert (Hu : get_prop args "CurrentSetPoint" = JUndefined)
      by (unfold get_prop; rewrite Hmiss; reflexivity).
    unfold Scpi.setCurrentSetPoint, Scpi.with_client. rewrite Hu.
    change ("SOUR:CURR " +:+ ToString JUndefined) with "SOUR:CURR undefined".
    destruct (Scpi.createClient _) as [[[]|e|] c0] eqn:H0; try discriminate.
    apply createClient_returned in H0. unfold Scpi.bind, Scpi.ret.
    destruct (Scpi.sendCommand "SOUR:CURR undefined" c0) as [[r1|e1|] c1] eqn:H1;
      try discriminate.
    intros _. simpl. change c1 with (snd (Returned r1, c1)). rewrite <- H1.
    erewrite sendCommand_returned by (rewrite H1; reflexivity).
    rewrite H0. reflexivity.
Qed.

(** X20.  An answer to the probe that comes late is taken for the answer
    to the command that follows.  On a device that accepts the connection
    and takes every write, when the first event of the socket is data that
    arrives between 1000 ms and 2000 ms after the connection, the probe has
    timed out by then and [getSinkPowerValue] returns that text, trimmed, as
    the power read. *)
Theorem X20_late_probe_answer (net : string -> Scpi.Device) (HostIp : string)
    (t : nat) (text : string) (rest : list (nat * Scpi.sock_event)) :
  Scpi.connect_error (net HostIp) = None ->
  Forall (fun fault => fault = None) (Scpi.write_errors (net HostIp)) ->
  Scpi.traffic (net HostIp) = (t, Scpi.SockData text) :: rest ->
  (1000 <= t < 2000)%nat ->
  fst (Scpi.getSinkPowerValue net HostIp)
  = Returned {| Scpi.successful := true; Scpi.msg := trim text |}
  /\ Scpi.written (snd (Scpi.getSinkPowerValue net HostIp))
     = [line "*IDN?"; line "MEAS:POW?"].
Proof.
  intros Hc Hf Ht Hlate.
  assert (Hfault : forall l : list (option string),
            Forall (fun fault => fault = None) l ->
            match l with fault :: _ => fault | [] => None end = None
            /\ Forall (fun fault : option string => fault = None) (tail l)).
  { intros l Hl. destruct l as [|f l]; [split; [reflexivity|constructor]|].
    apply Forall_cons in Hl as [-> Hl]. split; [reflexivity|exact Hl]. }
  destruct (Hfault _ Hf) as [Hf1 Hf']. destruct (Hfault _ Hf') as [Hf2 _].
  assert (Hprobe : Scpi.createClient (net HostIp)
                   = (Returned tt,
                      {| Scpi.written := [line "*IDN?"];
                         Scpi.faults := tail (Scpi.write_errors (net HostIp));
                         Scpi.incoming := (t, Scpi.SockData text) :: rest;
                         Scpi.clock := 1000; Scpi.ended := false |})).
  { unfold Scpi.createClient, Scpi.sendCommand. rewrite Hc.
    unfold Scpi.next_fault, Scpi.next_event. cbn [Scpi.faults Scpi.incoming Scpi.clock].
    rewrite Hf1, Ht. unfold Scpi.arrives_before. cbn [fst].
    destruct (Nat.ltb_spec t (0 + 1000)); [lia|]. reflexivity. }
  unfold Scpi.getSinkPowerValue, Scpi.with_client. rewrite Hprobe.
  unfold Scpi.bind, Scpi.sendCommand, Scpi.next_fault, Scpi.next_event.
  cbn [Scpi.faults Scpi.incoming Scpi.clock]. rewrite Hf2.
  unfold Scpi.arrives_before. cbn [fst].
  destruct (Nat.ltb_spec t (1000 + 1000)); [|lia]. split; reflexivity.
Qed.

Lemma X20_late_probe_answer_witness :
  let dev := {| Scpi.connect_error := None; Scpi.write_errors := [];
                Scpi.traffic := [(1200%nat, Scpi.SockData "ACME,PSB 9000,1.0")] |} in
  fst (Scpi.getSinkPowerValue (fun _ => dev) "192.168.100.182")
  = Returned {| Scpi.successful := true; Scpi.msg := "ACME,PSB 9000,1.0" |}.
Proof.
  intros dev.
  refine (proj1 (X20_late_probe_answer (fun _ => dev) "192.168.100.182" 1200
                   "ACME,PSB 9000,1.0" [] eq_refl _ eq_refl _)).
  - constructor.
  - lia.
Defined.

(** X21.  On a device that accepts the connection, takes every write and
    reports no socket error, every exported operation returns, has written
    the probe followed by its own commands, and has ended the socket;
    [getSinkPowerValue] returns an object flagged successful. *)
Theorem X21_operations_complete (net : string -> Scpi.Device)
    (cp : Scpi.CurrentPriorityArgs) (args : gmap string jsval) (HostIp Group : string) :
  (cooperative (net (Scpi.cp_HostIp cp)) ->
   fst (Scpi.setCurrentPriorityMode net cp) = Returned tt
   /\ Scpi.written (snd (Scpi.setCurrentPriorityMode net cp))
      = [ line "*IDN?"; line "SOUR:FUNC CURR";
          line ("SOUR:CURR " +:+ Number_toString (Math_abs (Scpi.OutputCurrentLimitCC cp)));
          line ("SOUR:VOLT:LIM:POS:IMM:AMPL "
                  +:+ Number_toString (Scpi.OutputVoltageLimitCC cp)) ]
   /\ Scpi.ended (snd (Scpi.setCurrentPriorityMode net cp)) = true)
  /\ (cooperative (net (ToString (get_prop args "HostIp"))) ->
      (fst (Scpi.setCurrentSetPoint net args) = Returned tt
       /\ Scpi.written (snd (Scpi.setCurrentSetPoint net args))
          = [ line "*IDN?";
              line ("SOUR:CURR " +:+ ToString (get_prop args "CurrentSetPoint")) ]
       /\ Scpi.ended (snd (Scpi.setCurrentSetPoint net args)) = true)
      /\ (fst (Scpi.setOutput net args) = Returned tt
          /\ Scpi.written (snd (Scpi.setOutput net args))
             = [ line "*IDN?";
                 line (if strict_eq_true (get_prop args "OutputState")
                       then "OUTP ON" else "OUTP OFF") ]
          /\ Scpi.ended (snd (Scpi.setOutput net args)) = true))
  /\ (cooperative (net HostIp) ->
      (exists r, fst (Scpi.getSinkPowerValue net HostIp) = Returned r
                 /\ Scpi.successful r = true)
      /\ Scpi.written (snd (Scpi.getSinkPowerValue net HostIp))
         = [line "*IDN?"; line "MEAS:POW?"]
      /\ Scpi.ended (snd (Scpi.getSinkPowerValue net HostIp)) = true
      /\ fst (Scpi.setGroupMode net HostIp Group) = Returned tt
      /\ Scpi.written (snd (Scpi.setGroupMode net HostIp Group))
         = [line "*IDN?"; line ("INST:GRO:FUNC " +:+ Group)]
      /\ Scpi.ended (snd (Scpi.setGroupMode net HostIp Group)) = true).
Proof.
  split; [|split].
  - intros Hdev. unfold Scpi.setCurrentPriorityMode.
    match goal with
    | |- context [Scpi.with_client _ ?body] =>
        eassert (Hbody : completes _ body)
          by (repeat apply completes_then; apply completes_ret)
    end.
    destruct (with_client_completes _ _ _ Hdev Hbody) as ([] & Hr & Hw & He).
    split; [exact Hr|]. split; [exact Hw|exact He].
  - intros Hdev. split.
    + unfold Scpi.setCurrentSetPoint.
      match goal with
      | |- context [Scpi.with_client _ ?body] =>
          eassert (Hbody : completes _ body)
            by (repeat apply completes_then; apply completes_ret)
      end.
      destruct (with_client_completes _ _ _ Hdev Hbody) as ([] & Hr & Hw & He).
      split; [exact Hr|]. split; [exact Hw|exact He].
    + unfold Scpi.setOutput.
      destruct (strict_eq_true (get_prop args "OutputState"));
        match goal with
        | |- context [Scpi.with_client _ ?body] =>
            eassert (Hbody : completes _ body)
              by (repeat apply completes_then; apply completes_ret)
        end;
        destruct (with_client_completes _ _ _ Hdev Hbody) as ([] & Hr & Hw & He);
        (split; [exact Hr|]; split; [exact Hw|exact He]).
  - intros Hdev.
    assert (Hmeas : completes [line "MEAS:POW?"]
                      (Scpi.bind (Scpi.sendCommand "MEAS:POW?")
                         (fun powerinW =>
                            Scpi.ret {| Scpi.successful := true;
                                        Scpi.msg := Scpi.msg powerinW |}))).
    { apply (completes_bind [line "MEAS:POW?"] []);
        [apply completes_sendCommand|intros r; apply completes_ret]. }
    destruct (with_client_completes _ _ _ Hdev Hmeas) as (r & Hr & Hw & He).
    assert (Hflag : Scpi.successful r = true).
    { unfold Scpi.with_client in Hr.
      destruct (Scpi.createClient (net HostIp)) as [[[]|e|] c0]; try discriminate.
      unfold Scpi.bind, Scpi.ret in Hr.
      destruct (Scpi.sendCommand "MEAS:POW?" c0) as [[r1|e1|] c1]; try discriminate.
      simpl in Hr. injection Hr as <-. reflexivity. }
    assert (Hgroup : completes [line ("INST:GRO:FUNC " +:+ Group)]
                       (Scpi.bind (Scpi.sendCommand ("INST:GRO:FUNC " +:+ Group))
                          (fun _ => Scpi.ret tt)))
      by (apply completes_then, completes_ret).
    destruct (with_client_completes _ _ _ Hdev Hgroup) as ([] & Hr' & Hw' & He').
    split; [exists r; split; [exact Hr|exact Hflag]|].
    split; [exact Hw|]. split; [exact He|].
    split; [exact Hr'|]. split; [exact Hw'|exact He'].
Qed.

Lemma X21_operations_complete_witness :
  cooperative mute
  /\ Scpi.written (snd (Scpi.setGroupMode (fun _ => mute) "192.168.100.182" "MAST"))
     = [line "*IDN?"; line "INST:GRO:FUNC MAST"].
Proof.
  assert (Hdev : cooperative mute) by (split; [reflexivity|split; constructor]).
  split; [exact Hdev|].
  destruct (X21_operations_complete (fun _ => mute)
              {| Scpi.cp_HostIp := "192.168.100.182"; Scpi.OutputCurrentLimitCC := 32;
                 Scpi.OutputVoltageLimitCC := 702 |}
              ∅ "192.168.100.182" "MAST") as (_ & _ & H).
  destruct (H Hdev) as (_ & _ & _ & _ & Hw & _). exact Hw.
Defined.

(** X22.  The low-voltage guard of the [setOutput] handler needs a number:
    when the cached CDS voltage is NaN, as after a voltage read that
    delivered NaN, the comparison with 200 is false and the request is
    passed on as it is, so a request to switch on sends OUTP ON. *)
Theorem X22_guard_passes_nan (s : PollHelper.State) (net : string -> Scpi.Device)
    (args : gmap string jsval) :
  PollHelper.getLastVoltageCDS s = NaN ->
  Index.handle_setOutput s net args = Scpi.setOutput net args
  /\ (cooperative (net (ToString (get_prop args "HostIp"))) ->
      get_prop args "OutputState" = JBool true ->
      Scpi.written (snd (Index.handle_setOutput s net args))
      = [line "*IDN?"; line "OUTP ON"]).
Proof.
  intros Hnan.
  assert (Hpass : Index.handle_setOutput s net args = Scpi.setOutput net args)
    by (apply handle_setOutput_pass_through; rewrite Hnan; reflexivity).
  split; [exact Hpass|].
  intros Hdev Hon. rewrite Hpass. unfold Scpi.setOutput. rewrite Hon.
  cbn [strict_eq_true].
  assert (Hbody : completes [line "OUTP ON"]
                    (Scpi.bind (Scpi.sendCommand "OUTP ON") (fun _ => Scpi.ret tt)))
    by (apply completes_then, completes_ret).
  destruct (with_client_completes _ _ _ Hdev Hbody) as ([] & _ & Hw & _).
  exact Hw.
Qed.

Lemma X22_guard_passes_nan_witness :
  let s := PollHelper.run (PollHelper.init "/data")
             [PollHelper.CallStartPollingCDS "192.168.100.80" 400;
              PollHelper.ReadSettled 0 (Returned NaN)] in
  Scpi.written (snd (Index.handle_setOutput s (fun _ => mute)
                       (<["OutputState" := JBool true]> ∅)))
  = [line "*IDN?"; line "OUTP ON"].
Proof.
  intros s.
  destruct (X22_guard_passes_nan s (fun _ => mute) (<["OutputState" := JBool true]> ∅)
              eq_refl) as [_ H].
  apply H; [split; [reflexivity|split; constructor]|reflexivity].
Defined.

Section Setpoint.
Local Open Scope Q_scope.



End Setpoint.



(** * Further properties of pollHelper.ts *)

(** X10.  [stopPollingCDS] called while the session is not Active, in
    particular before polling was ever started, changes nothing. *)
Theorem X10_stop_when_idle (storage : string) (trace : list PollHelper.event) :
  let s := PollHelper.run (PollHelper.init storage) trace in
  PollHelper.intervalActive (PollHelper.functionGlobals s) = false ->
  PollHelper.stopPollingCDS s = s.
Proof.
  intros s Hidle.
  assert (Hs : coherent (session s)) by (apply coherent_run, coherent_init).
  unfold session, coherent in Hs. unfold PollHelper.stopPollingCDS.
  change (PollHelper.adapter (PollHelper.set_intervalActive false s))
    with (PollHelper.adapter s).
  destruct (PollHelper.adapter s) as [c|]; [destruct Hs; congruence|].
  clear Hs. destruct s as [[active pw vo cu] h l a en pa rt].
  simpl in Hidle. subst active. reflexivity.
Qed.

Lemma X10_stop_when_idle_witness :
  PollHelper.stopPollingCDS (PollHelper.init "/data") = PollHelper.init "/data".
Proof. exact (X10_stop_when_idle "/data" [] eq_refl). Defined.

(** X11.  After [stopPollingCDS], in any execution, the session is not
    Active, holds no adapter and no CDS client is connected; a second
    [stopPollingCDS] changes nothing more. *)
Theorem X11_stop_closes_the_session (storage : string) (trace : list PollHelper.event) :
  let s := PollHelper.stopPollingCDS (PollHelper.run (PollHelper.init storage) trace) in
  PollHelper.intervalActive (PollHelper.functionGlobals s) = false
  /\ PollHelper.adapter s = None
  /\ PollHelper.live s = 0%nat
  /\ PollHelper.stopPollingCDS s = s.
Proof.
  intros s.
  destruct (stopPollingCDS_stopped (PollHelper.run (PollHelper.init storage) trace))
    as (Ha & Hn & _). fold s in Ha, Hn.
  assert (Hs : coherent (session s))
    by (apply coherent_stop, coherent_run, coherent_init).
  split; [exact Ha|]. split; [exact Hn|]. split.
  - rewrite (coherent_live s Hs), Hn. reflexivity.
  - unfold PollHelper.stopPollingCDS at 1.
    change (PollHelper.adapter (PollHelper.set_intervalActive false s))
      with (PollHelper.adapter s).
    rewrite Hn. clear Hs Hn. destruct s as [[active pw vo cu] h l a en pa rt].
    simpl in Ha. subst active. reflexivity.
Qed.

(** X12.  When a register read fails while the session is Active, the poll
    cycle ends there: exactly one reschedule, for the same address and
    interval, is armed, the call is over, and the cache keeps its values. *)
Theorem X12_failed_read_reschedules (s : PollHelper.State) (i : nat)
    (inv : PollHelper.Invocation) (e : string) :
  PollHelper.intervalActive (PollHelper.functionGlobals s) = true ->
  PollHelper.invocations (PollHelper.runtime s) !! i = Some inv ->
  PollHelper.inv_stage inv = PollHelper.AwaitVoltage
  \/ PollHelper.inv_stage inv = PollHelper.AwaitPower
  \/ PollHelper.inv_stage inv = PollHelper.AwaitCurrent ->
  let s' := PollHelper.read_settled i (Threw e) s in
  PollHelper.timeouts (PollHelper.runtime s')
  = (PollHelper.timeouts (PollHelper.runtime s)
       ++ [(PollHelper.inv_ip inv, PollHelper.inv_intervalMs inv)])%list
  /\ PollHelper.inv_stage <$> PollHelper.invocations (PollHelper.runtime s') !! i
     = Some PollHelper.Finished
  /\ cache s' = cache s
  /\ PollHelper.intervalActive (PollHelper.functionGlobals s') = true.
Proof.
  intros Hactive Hi Hst s'.
  assert (Hs' : s' = PollHelper.finally_block i s).
  { subst s'. unfold PollHelper.read_settled. rewrite Hi.
    destruct Hst as [H|[H|H]]; rewrite H; reflexivity. }
  rewrite Hs'. unfold PollHelper.finally_block. rewrite Hi, Hactive.
  split; [reflexivity|]. split; [|split; [reflexivity|exact Hactive]].
  erewrite lookup_set_stage by exact Hi. reflexivity.
Qed.

Lemma X12_failed_read_reschedules_witness :
  let s := PollHelper.run (PollHelper.init "/data")
             [PollHelper.CallStartPollingCDS "192.168.100.80" 400] in
  let s' := PollHelper.read_settled 0 (Threw "timeout") s in
  PollHelper.intervalActive (PollHelper.functionGlobals s) = true
  /\ PollHelper.timeouts (PollHelper.runtime s') = [("192.168.100.80", 400%nat)]
  /\ cache s' = cache s.
Proof.
  intros s s'.
  pose proof (X12_failed_read_reschedules s 0
                {| PollHelper.inv_ip := "192.168.100.80";
                   PollHelper.inv_intervalMs := 400;
                   PollHelper.inv_stage := PollHelper.AwaitVoltage |}
                "timeout" eq_refl eq_refl (or_introl eq_refl))
    as (Ht & _ & Hc & _).
  split; [reflexivity|]. split; [exact Ht|exact Hc].
Defined.

Section Chains.
Import PollHelper.

Lemma count_busy_cons x l :
  count_busy (x :: l) = ((if busy x then 1 else 0) + count_busy l)%nat.
Proof.
  unfold count_busy. rewrite filter_cons.
  destruct (decide (busy x = true)) as [E|E].
  - rewrite E. reflexivity.
  - destruct (busy x); [congruence|reflexivity].
Qed.

Lemma count_busy_app l1 l2 : count_busy (l1 ++ l2) = (count_busy l1 + count_busy l2)%nat.
Proof. unfold count_busy. rewrite filter_app, length_app. reflexivity. Qed.

Lemma count_busy_alter (f : Invocation -> Invocation) l : forall i inv,
  l !! i = Some inv -> busy inv = true ->
  (count_busy (alter f i l) + (if busy (f inv) then 0 else 1) = count_busy l)%nat.
Proof.
  induction l as [|x l IH]; intros [|i] inv Hi Hb; try discriminate.
  - simpl in Hi. injection Hi as ->.
    change (alter f 0%nat (inv :: l)) with (f inv :: l).
    rewrite !count_busy_cons, Hb. destruct (busy (f inv)); lia.
  - simpl in Hi. change (alter f (S i) (x :: l)) with (x :: alter f i l).
    rewrite !count_busy_cons. specialize (IH i inv Hi Hb). lia.
Qed.

Lemma chains_set_stage i st s inv :
  invocations (runtime s) !! i = Some inv -> busy inv = true ->
  (chains (set_stage i st s) <= chains s)%nat.
Proof.
  intros Hi Hb. unfold chains, set_stage. simpl.
  pose proof (count_busy_alter
                (fun inv => {| inv_ip := inv_ip inv; inv_intervalMs := inv_intervalMs inv;
                               inv_stage := st |}) _ i inv Hi Hb) as H.
  match type of H with context [if ?b then _ else _] => destruct b end; lia.
Qed.

Lemma chains_finally_block i s inv :
  invocations (runtime s) !! i = Some inv -> busy inv = true ->
  (chains (finally_block i s) <= chains s)%nat.
Proof.
  intros Hi Hb. unfold finally_block. rewrite Hi.
  unfold chains, set_stage.
  pose proof (count_busy_alter
                (fun inv => {| inv_ip := inv_ip inv; inv_intervalMs := inv_intervalMs inv;
                               inv_stage := Finished |}) _ i inv Hi Hb) as H.
  cbn [busy inv_stage] in H.
  destruct (intervalActive (functionGlobals s)); simpl; rewrite ?length_app; simpl; lia.
Qed.

Lemma chains_request_read i next s inv :
  invocations (runtime s) !! i = Some inv -> busy inv = true ->
  (chains (request_read i next s) <= chains s)%nat.
Proof.
  intros Hi Hb. unfold request_read.
  destruct (adapter s); [apply (chains_set_stage i next s inv)|
                         apply (chains_finally_block i s inv)]; assumption.
Qed.

Lemma chains_connect_and_poll i s inv :
  invocations (runtime s) !! i = Some inv -> busy inv = true ->
  (chains (connect_and_poll i s) <= chains s)%nat.
Proof.
  intros Hi Hb. unfold connect_and_poll.
  destruct (adapter s);
    (eapply Nat.le_trans;
     [apply (chains_request_read i _ _ inv); [exact Hi|exact Hb] | reflexivity]).
Qed.

Lemma chains_stopPollingCDS s : chains (stopPollingCDS s) = chains s.
Proof. unfold stopPollingCDS. simpl. destruct (adapter s); reflexivity. Qed.

Lemma chains_startPollingCDS ip intervalMs s :
  (chains (startPollingCDS ip intervalMs s) <= S (chains s))%nat.
Proof.
  unfold startPollingCDS.
  set (inv := {| inv_ip := ip; inv_intervalMs := intervalMs; inv_stage := AwaitCleanup |}).
  set (s0 := set_invocations (invocations (runtime s) ++ [inv]) s).
  assert (H0 : chains s0 = S (chains s)).
  { unfold chains, s0. simpl. rewrite count_busy_app.
    change (count_busy [inv]) with 1%nat. lia. }
  destruct (intervalActive (functionGlobals s0)).
  - rewrite chains_stopPollingCDS. lia.
  - rewrite <- H0. apply (chains_connect_and_poll _ s0 inv); [|reflexivity].
    unfold s0. simpl. apply list_lookup_middle. reflexivity.
Qed.

Lemma chains_read_settled i o s : (chains (read_settled i o s) <= chains s)%nat.
Proof.
  unfold read_settled.
  destruct (invocations (runtime s) !! i) as [inv|] eqn:Hi; [|lia].
  destruct (inv_stage inv) eqn:Hst, o as [x|e|]; try lia;
    assert (Hb : busy inv = true) by (unfold busy; rewrite Hst; reflexivity).
  - apply (chains_request_read i _ (set_voltageValue (Math_round x) s) inv Hi Hb).
  - apply (chains_finally_block i s inv Hi Hb).
  - destruct (number_lt (Finite 0) (Math_round x)).
    + apply (chains_request_read i _ (set_powerValue (Math_round x) s) inv Hi Hb).
    + apply (chains_request_read i _ s inv Hi Hb).
  - apply (chains_finally_block i s inv Hi Hb).
  - etransitivity.
    + apply (chains_finally_block i _ inv); [|exact Hb].
      destruct (logMeasurementToCsv_cases (set_currentValue (Math_round x) s))
        as [->|(_ & _ & _ & row & ->)]; exact Hi.
    + destruct (logMeasurementToCsv_cases (set_currentValue (Math_round x) s))
        as [->|(_ & _ & _ & row & ->)]; unfold chains; simpl; lia.
  - apply (chains_finally_block i s inv Hi Hb).
Qed.

Lemma chains_step s e :
  (chains (step s e) <= chains s + (if is_start e then 1 else 0))%nat.
Proof.
  destruct e; cbn [step is_start]; rewrite ?Nat.add_0_r.
  - pose proof (chains_startPollingCDS ip intervalMs s). lia.
  - rewrite chains_stopPollingCDS. lia.
  - unfold cleanup_elapsed.
    destruct (invocations (runtime s) !! i) as [inv|] eqn:Hi; [|lia].
    destruct (inv_stage inv) eqn:Hst; try lia.
    apply (chains_connect_and_poll i s inv Hi). unfold busy. rewrite Hst. reflexivity.
  - apply chains_read_settled.
  - unfold timeout_fired.
    destruct (timeouts (runtime s) !! k) as [[ip intervalMs]|] eqn:Hk; [|lia].
    etransitivity; [apply chains_startPollingCDS|].
    unfold chains. simpl. rewrite length_delete by (eexists; exact Hk).
    apply lookup_lt_Some in Hk. lia.
  - unfold startSinkPowerPolling. destruct (sinkPowerInterval s); unfold chains; simpl; lia.
  - unfold stopSinkPowerPolling. destruct (sinkPowerInterval s); unfold chains; simpl; lia.
  - unfold interval_fired. destruct (sinkPowerInterval s); unfold chains; simpl; lia.
  - unfold tick_settled. repeat case_match; unfold chains; simpl; lia.
  - rewrite startCsvLogging_state. repeat case_match; unfold chains; simpl; lia.
  - unfold chains; simpl; lia.
  - unfold chains; simpl; lia.
  - unfold chains; simpl; lia.
Qed.

Lemma chains_run trace : forall s,
  (chains (run s trace) <= chains s + external_starts trace)%nat.
Proof.
  induction trace as [|e trace IH]; intros s; [simpl; lia|].
  change (run s (e :: trace)) with (run (step s e) trace).
  specialize (IH (step s e)). pose proof (chains_step s e) as Hs.
  unfold external_starts in *. rewrite filter_cons.
  destruct (decide (is_start e = true)) as [E|E].
  - rewrite E in Hs. simpl. lia.
  - destruct (is_start e); [congruence|]. lia.
Qed.

End Chains.

(** X13.  In every execution the poll chains alive (calls of
    [startPollingCDS] under way plus reschedules waiting to fire) are at most
    as many as the calls of [startPollingCDS] made from outside: a chain
    never forks, so after a single start at most one cycle is running or
    scheduled and cycles do not overlap. *)
Theorem X13_poll_chains_never_fork (storage : string) (trace : list PollHelper.event) :
  (chains (PollHelper.run (PollHelper.init storage) trace) <= external_starts trace)%nat.
Proof. apply (chains_run trace (PollHelper.init storage)). Qed.

Section Csv.
Import PollHelper.

Lemma append_assoc (a b c : string) : (a +:+ b) +:+ c = a +:+ (b +:+ c).
Proof.
  induction a as [|x a IH]; [reflexivity|].
  change (String x ((a +:+ b) +:+ c) = String x (a +:+ (b +:+ c))).
  f_equal. exact IH.
Qed.

Lemma join_not_empty dir name : join dir name <> "".
Proof. unfold join. destruct dir; discriminate. Qed.

Lemma csv_view_finally_block i s : csv_view (finally_block i s) = csv_view s.
Proof. unfold finally_block. repeat case_match; reflexivity. Qed.

Lemma csv_view_request_read i next s : csv_view (request_read i next s) = csv_view s.
Proof. unfold request_read. case_match; [reflexivity|apply csv_view_finally_block]. Qed.

Lemma csv_view_stopPollingCDS s : csv_view (stopPollingCDS s) = csv_view s.
Proof. unfold stopPollingCDS. repeat case_match; reflexivity. Qed.

Lemma csv_view_connect_and_poll i s : csv_view (connect_and_poll i s) = csv_view s.
Proof. unfold connect_and_poll. rewrite csv_view_request_read. case_match; reflexivity. Qed.

Lemma csv_view_startPollingCDS ip intervalMs s :
  csv_view (startPollingCDS ip intervalMs s) = csv_view s.
Proof.
  unfold startPollingCDS. case_match;
    rewrite ?csv_view_stopPollingCDS, ?csv_view_connect_and_poll; reflexivity.
Qed.

Lemma csv_view_tick_settled k o s : csv_view (tick_settled k o s) = csv_view s.
Proof. unfold tick_settled. repeat case_match; reflexivity. Qed.

Lemma csv_switch_view s s' : csv_view s' = csv_view s -> csv_switch s' = csv_switch s.
Proof. unfold csv_view, csv_switch. congruence. Qed.

Lemma csv_switch_logMeasurementToCsv s :
  csv_switch (logMeasurementToCsv s) = csv_switch s.
Proof.
  destruct (logMeasurementToCsv_cases s) as [->|(_ & _ & _ & row & ->)]; reflexivity.
Qed.

Lemma csv_switch_read_settled i o s : csv_switch (read_settled i o s) = csv_switch s.
Proof.
  unfold read_settled.
  destruct (invocations (runtime s) !! i) as [inv|]; [|reflexivity].
  destruct (inv_stage inv), o as [x|e|]; trivial;
    try (apply csv_switch_view;
         rewrite ?csv_view_request_read, ?csv_view_finally_block; reflexivity).
  - apply csv_switch_view. rewrite csv_view_request_read.
    destruct (number_lt _ _); reflexivity.
  - rewrite (csv_switch_view _ _ (csv_view_finally_block i _)).
    rewrite csv_switch_logMeasurementToCsv. reflexivity.
Qed.

Lemma csv_named_step s e :
  csv_named (csv_switch s) -> csv_named (csv_switch (step s e)).
Proof.
  intros H.
  assert (Hframe : forall s', csv_view s' = csv_view s -> csv_named (csv_switch s')).
  { intros s' E. rewrite (csv_switch_view _ _ E). exact H. }
  destruct e; cbn [step]; try exact H.
  - apply Hframe, csv_view_startPollingCDS.
  - apply Hframe, csv_view_stopPollingCDS.
  - unfold cleanup_elapsed.
    destruct (invocations (runtime s) !! i) as [inv|]; [|exact H].
    destruct (inv_stage inv); trivial. apply Hframe, csv_view_connect_and_poll.
  - rewrite csv_switch_read_settled. exact H.
  - unfold timeout_fired.
    destruct (timeouts (runtime s) !! k) as [[ip intervalMs]|]; [|exact H].
    apply Hframe. rewrite csv_view_startPollingCDS. reflexivity.
  - unfold startSinkPowerPolling. destruct (sinkPowerInterval s); exact H.
  - unfold stopSinkPowerPolling. destruct (sinkPowerInterval s); exact H.
  - unfold interval_fired. destruct (sinkPowerInterval s); exact H.
  - apply Hframe, csv_view_tick_settled.
  - rewrite startCsvLogging_state.
    destruct (csvLoggingEnabled s) eqn:E; [exact H|].
    destruct (denied (runtime s) !! csv_path s); apply join_not_empty.
  - reflexivity.
Qed.

Lemma csv_named_run trace : forall s,
  csv_named (csv_switch s) -> csv_named (csv_switch (run s trace)).
Proof.
  induction trace as [|e trace IH]; intros s H; [exact H|].
  apply IH, csv_named_step, H.
Qed.

Lemma csv_coherent_log s :
  csv_coherent (csv_view s) -> csv_coherent (csv_view (logMeasurementToCsv s)).
Proof.
  destruct (logMeasurementToCsv_cases s) as [->|(Hen & _ & _ & row & ->)]; [trivial|].
  unfold csv_view, csv_coherent. cbn. rewrite Hen.
  intros (Hd & Hp & rows & Hrows). split; [exact Hd|]. split; [exact Hp|].
  rewrite Hrows. change (default "" (Some (header +:+ rows))) with (header +:+ rows).
  eexists. rewrite lookup_insert_eq, append_assoc. reflexivity.
Qed.

Lemma csv_coherent_frame s s' :
  csv_view s' = csv_view s -> csv_coherent (csv_view s) -> csv_coherent (csv_view s').
Proof. intros ->. trivial. Qed.

Lemma csv_coherent_read_settled i o s :
  csv_coherent (csv_view s) -> csv_coherent (csv_view (read_settled i o s)).
Proof.
  intros H. unfold read_settled.
  destruct (invocations (runtime s) !! i) as [inv|]; [|exact H].
  destruct (inv_stage inv), o as [x|e|]; trivial;
    try (eapply csv_coherent_frame; [|exact H];
         rewrite ?csv_view_request_read, ?csv_view_finally_block; reflexivity).
  - eapply csv_coherent_frame; [|exact H]. rewrite csv_view_request_read.
    destruct (number_lt _ _); reflexivity.
  - rewrite csv_view_finally_block. apply csv_coherent_log. exact H.
Qed.

Lemma csv_coherent_writable s :
  csv_coherent (csv_view s) -> denied (runtime s) = ∅.
Proof. unfold csv_view, csv_coherent. destruct (csvLoggingEnabled s); tauto. Qed.

Lemma csv_coherent_start s :
  csv_coherent (csv_view s) -> csv_coherent (csv_view (snd (startCsvLogging s))).
Proof.
  intros H. pose proof (csv_coherent_writable s H) as Hd.
  rewrite startCsvLogging_state.
  destruct (csvLoggingEnabled s) eqn:E; [exact H|].
  rewrite Hd, lookup_empty. unfold csv_view, csv_coherent. cbn.
  split; [exact Hd|]. split; [apply join_not_empty|].
  exists "". rewrite lookup_insert_eq. reflexivity.
Qed.

Lemma csv_coherent_step s e :
  undisturbed e -> csv_coherent (csv_view s) -> csv_coherent (csv_view (step s e)).
Proof.
  intros He H. destruct e; cbn [step].
  - rewrite csv_view_startPollingCDS. exact H.
  - rewrite csv_view_stopPollingCDS. exact H.
  - unfold cleanup_elapsed.
    destruct (invocations (runtime s) !! i) as [inv|]; [|exact H].
    destruct (inv_stage inv); trivial. rewrite csv_view_connect_and_poll. exact H.
  - apply csv_coherent_read_settled, H.
  - unfold timeout_fired.
    destruct (timeouts (runtime s) !! k) as [[ip intervalMs]|]; [|exact H].
    rewrite csv_view_startPollingCDS. exact H.
  - unfold startSinkPowerPolling. destruct (sinkPowerInterval s); exact H.
  - unfold stopSinkPowerPolling. destruct (sinkPowerInterval s); exact H.
  - unfold interval_fired. destruct (sinkPowerInterval s); exact H.
  - rewrite csv_view_tick_settled. exact H.
  - apply csv_coherent_start, H.
  - split; [|reflexivity]. apply (csv_coherent_writable s H).
  - exact H.
  - simpl in He. subst unwritable. pose proof (csv_coherent_writable s H) as Hd.
    unfold csv_view, csv_coherent in *. cbn. rewrite Hd in H. exact H.
Qed.

Lemma csv_coherent_run trace : forall s,
  Forall undisturbed trace ->
  csv_coherent (csv_view s) -> csv_coherent (csv_view (run s trace)).
Proof.
  induction trace as [|e trace IH]; intros s Ht H; [exact H|].
  apply Forall_cons in Ht as [He Ht].
  apply IH; [exact Ht|]. apply csv_coherent_step; assumption.
Qed.

End Csv.



(** X15.  In every execution logging is enabled exactly while a file is
    named, and while it is disabled [getCsvLoggingStatus] reports no path
    and fileExists false.  In an execution in which every path stays
    writable, while logging is enabled the current file exists and begins
    with the header row, so [getCsvLoggingStatus] reports fileExists. *)
Theorem X15_logging_file_invariant (storage : string) (trace : list PollHelper.event) :
  let s := PollHelper.run (PollHelper.init storage) trace in
  let status := PollStatus.getCsvLoggingStatus s in
  (PollStatus.enabled status = true -> PollStatus.filePath status <> "")
  /\ (PollStatus.enabled status = false ->
      PollStatus.filePath status = "" /\ PollStatus.fileExists status = false)
  /\ (Forall undisturbed trace ->
      PollStatus.enabled status = true ->
      PollStatus.fileExists status = true
      /\ exists rows,
           PollHelper.files (PollHelper.runtime s) !! PollStatus.filePath status
           = Some ("Timestamp,CDS_Power_W,CDS_Voltage_V,CDS_Current_A,Sink_Power_W,Sink_Success"
                     +:+ String "010" "" +:+ rows)).
Proof.
  intros s status.
  assert (Hn : csv_named (csv_switch s)) by (apply csv_named_run; reflexivity).
  unfold csv_switch, csv_named in Hn. subst status.
  unfold PollStatus.getCsvLoggingStatus. cbn [PollStatus.enabled PollStatus.filePath
    PollStatus.fileExists].
  split; [|split].
  - intros Hen. rewrite Hen in Hn. exact Hn.
  - intros Hoff. rewrite Hoff in Hn. rewrite Hn. split; reflexivity.
  - intros Ht Hen.
    assert (H : csv_coherent (csv_view s)).
    { apply csv_coherent_run; [exact Ht|]. split; reflexivity. }
    unfold csv_view, csv_coherent in H. rewrite Hen in H.
    destruct H as (_ & Hp & rows & Hrows). split.
    + destruct (String.eqb (PollHelper.csvFilePath s) "") eqn:E;
        [apply String.eqb_eq in E; contradiction|].
      unfold PollStatus.existsSync. apply bool_decide_eq_true. eauto.
    + exists rows. rewrite Hrows. unfold PollHelper.header.
      rewrite append_assoc. reflexivity.
Qed.

Lemma X15_logging_file_invariant_witness :
  let trace := [PollHelper.ClockAdvanced "2025-01-01T12:34:56.789Z";
                PollHelper.CallStartCsvLogging;
                PollHelper.CallStartPollingCDS "192.168.100.80" 400;
                PollHelper.ReadSettled 0 (Returned (Finite 400));
                PollHelper.ReadSettled 0 (Returned (Finite 5000));
                PollHelper.ReadSettled 0 (Returned (Finite 12))] in
  let s := PollHelper.run (PollHelper.init "/data") trace in
  Forall undisturbed trace
  /\ PollStatus.enabled (PollStatus.getCsvLoggingStatus s) = true
  /\ PollStatus.fileExists (PollStatus.getCsvLoggingStatus s) = true.
Proof.
  intros trace s.
  assert (Ht : Forall undisturbed trace) by (repeat constructor).
  split; [exact Ht|]. split; [reflexivity|].
  destruct (X15_logging_file_invariant "/data" trace) as (_ & _ & H).
  destruct (H Ht eq_refl) as [Hex _]. exact Hex.
Defined.



Section SinkValues.
Import PollHelper.

Lemma sink_values_finally_block i s : sink_values (finally_block i s) = sink_values s.
Proof. unfold finally_block. repeat case_match; reflexivity. Qed.

Lemma sink_values_request_read i next s :
  sink_values (request_read i next s) = sink_values s.
Proof. unfold request_read. case_match; [reflexivity|apply sink_values_finally_block]. Qed.

Lemma sink_values_logMeasurementToCsv s :
  sink_values (logMeasurementToCsv s) = sink_values s.
Proof.
  destruct (logMeasurementToCsv_cases s) as [->|(_ & _ & _ & row & ->)]; reflexivity.
Qed.

Lemma sink_values_stopPollingCDS s : sink_values (stopPollingCDS s) = sink_values s.
Proof. unfold stopPollingCDS. repeat case_match; reflexivity. Qed.

Lemma sink_values_connect_and_poll i s :
  sink_values (connect_and_poll i s) = sink_values s.
Proof.
  unfold connect_and_poll. rewrite sink_values_request_read. case_match; reflexivity.
Qed.

Lemma sink_values_startPollingCDS ip intervalMs s :
  sink_values (startPollingCDS ip intervalMs s) = sink_values s.
Proof.
  unfold startPollingCDS. case_match;
    rewrite ?sink_values_stopPollingCDS, ?sink_values_connect_and_poll; reflexivity.
Qed.

Lemma sink_values_read_settled i o s : sink_values (read_settled i o s) = sink_values s.
Proof.
  unfold read_settled. repeat case_match; trivial;
    rewrite ?sink_values_request_read, ?sink_values_finally_block,
      ?sink_values_logMeasurementToCsv; reflexivity.
Qed.

Lemma flagged_placeholder : flagged {| Scpi.successful := false; Scpi.msg := "" |}.
Proof. right. reflexivity. Qed.

Lemma all_flagged_step s e :
  all_flagged (sink_values s) -> all_flagged (sink_values (step s e)).
Proof.
  intros H. destruct e; cbn [step].
  - rewrite sink_values_startPollingCDS. exact H.
  - rewrite sink_values_stopPollingCDS. exact H.
  - unfold cleanup_elapsed.
    destruct (invocations (runtime s) !! i) as [inv|]; [|exact H].
    destruct (inv_stage inv); trivial. rewrite sink_values_connect_and_poll. exact H.
  - rewrite sink_values_read_settled. exact H.
  - unfold timeout_fired.
    destruct (timeouts (runtime s) !! k) as [[ip intervalMs]|]; [|exact H].
    rewrite sink_values_startPollingCDS. exact H.
  - unfold startSinkPowerPolling. destruct (sinkPowerInterval s); [exact H|].
    destruct H as [Hl Hc]. split; [exact Hl|]. simpl.
    apply Forall_app. split; [exact Hc|].
    constructor; [apply flagged_placeholder|constructor].
  - unfold stopSinkPowerPolling. destruct (sinkPowerInterval s); exact H.
  - unfold interval_fired. destruct (sinkPowerInterval s); exact H.
  - unfold tick_settled.
    destruct (ticks (runtime s) !! k) as [c|]; [|exact H].
    destruct H as [Hl Hc]. destruct o as [r|err|]; [| |split; assumption].
    + split; simpl.
      * intros r' [= <-]. left. reflexivity.
      * apply Forall_insert; [exact Hc|]. left. reflexivity.
    + destruct (closures (runtime s) !! c) as [v|] eqn:Hv; [|split; assumption].
      split; simpl; [|exact Hc].
      intros r' [= <-]. rewrite Forall_lookup in Hc. exact (Hc c v Hv).
  - rewrite startCsvLogging_state. repeat case_match; exact H.
  - exact H.
  - exact H.
  - exact H.
Qed.

Lemma all_flagged_run trace : forall s,
  all_flagged (sink_values s) -> all_flagged (sink_values (run s trace)).
Proof.
  induction trace as [|e trace IH]; intros s H; [exact H|].
  apply IH, all_flagged_step, H.
Qed.

End SinkValues.

(** X17.  [startSinkPowerPolling] called while the sink interval is running
    changes nothing, whatever address and interval it is given: a second
    start creates no second loop. *)
Theorem X17_sink_start_is_idempotent (s : PollHelper.State)
    (ip ip' : string) (intervalMs intervalMs' : nat) :
  PollHelper.startSinkPowerPolling ip' intervalMs'
    (PollHelper.startSinkPowerPolling ip intervalMs s)
  = PollHelper.startSinkPowerPolling ip intervalMs s.
Proof.
  unfold PollHelper.startSinkPowerPolling at 2 3.
  destruct (PollHelper.sinkPowerInterval s) as [h|] eqn:E.
  - unfold PollHelper.startSinkPowerPolling. rewrite E. reflexivity.
  - reflexivity.
Qed.



(** X19.  In every execution the cached sink result is none, or flagged
    successful, or the placeholder with successful = false and an empty msg:
    a result flagged unsuccessful never carries a reading. *)
Theorem X19_sink_cache_flag (storage : string) (trace : list PollHelper.event)
    (r : Scpi.Result) :
  PollHelper.getLastSinkPowerValue (PollHelper.run (PollHelper.init storage) trace)
  = Some r ->
  Scpi.successful r = true \/ r = {| Scpi.successful := false; Scpi.msg := "" |}.
Proof.
  intros Hr.
  assert (H : all_flagged (sink_values (PollHelper.run (PollHelper.init storage) trace))).
  { apply all_flagged_run. split; [discriminate|constructor]. }
  destruct H as [Hl _]. exact (Hl r Hr).
Qed.

Lemma X19_sink_cache_flag_witness :
  Scpi.successful {| Scpi.successful := false; Scpi.msg := "" |} = true
  \/ {| Scpi.successful := false; Scpi.msg := "" |}
     = {| Scpi.successful := false; Scpi.msg := "" |}.
Proof.
  exact (X19_sink_cache_flag "/data"
           [PollHelper.CallStartSinkPowerPolling "192.168.100.182" 1000;
            PollHelper.IntervalFired;
            PollHelper.TickSettled 0 (Threw "ECONNREFUSED")]
           _ eq_refl).
Defined.

(** X23.  When the header cannot be written, [startCsvLogging] throws the
    error of the write and creates no file, but leaves logging enabled with
    the file named: [getCsvLoggingStatus] then reports enabled with that
    path, and a further [startCsvLogging] answers that logging is already
    active, also once the path can be written again. *)
Theorem X23_failed_start_leaves_logging_enabled (s : PollHelper.State) (err : string)
    (unwritable : gmap string string) :
  let path := join (PollHelper.storagePath (PollHelper.runtime s))
                (PollHelper.csv_file_name (PollHelper.now (PollHelper.runtime s))) in
  let s1 := snd (PollHelper.startCsvLogging s) in
  let s2 := PollHelper.step s1 (PollHelper.DiskChanged unwritable) in
  PollHelper.csvLoggingEnabled s = false ->
  PollHelper.denied (PollHelper.runtime s) !! path = Some err ->
  fst (PollHelper.startCsvLogging s) = Threw err
  /\ PollHelper.files (PollHelper.runtime s1) = PollHelper.files (PollHelper.runtime s)
  /\ PollStatus.getCsvLoggingStatus s1
     = {| PollStatus.enabled := true; PollStatus.filePath := path;
          PollStatus.fileExists := PollStatus.existsSync path s |}
  /\ PollHelper.startCsvLogging s1
     = (Returned {| PollHelper.success := false; PollHelper.filePath := None;
                    PollHelper.message := Some "CSV logging already active" |}, s1)
  /\ PollHelper.startCsvLogging s2
     = (Returned {| PollHelper.success := false; PollHelper.filePath := None;
                    PollHelper.message := Some "CSV logging already active" |}, s2).
Proof.
  intros path s1 s2 Hoff Herr.
  assert (H1 : PollHelper.startCsvLogging s = (Threw err, PollHelper.set_csv true path s)).
  { unfold PollHelper.startCsvLogging, PollHelper.initializeCsvLogging,
      PollHelper.writeFileSync. rewrite Hoff. cbn.
    change (join (PollHelper.storagePath (PollHelper.runtime s))
              (PollHelper.csv_file_name (PollHelper.now (PollHelper.runtime s))))
      with path.
    rewrite Herr. reflexivity. }
  subst s2 s1. rewrite H1. cbn [fst snd].
  split; [reflexivity|]. split; [reflexivity|]. split; [|split; reflexivity].
  unfold PollStatus.getCsvLoggingStatus. cbn.
  destruct (String.eqb path "") eqn:E; [|reflexivity].
  apply String.eqb_eq in E. destruct (join_not_empty _ _ E).
Qed.

Lemma X23_failed_start_leaves_logging_enabled_witness :
  let s := PollHelper.run (PollHelper.init "/data")
             [PollHelper.ClockAdvanced "2025-01-01T12:34:56.789Z";
              PollHelper.DiskChanged
                {[ "/data/messwerte_2025-01-01T12-34-56.csv" := "ENOENT" ]}] in
  let s1 := snd (PollHelper.startCsvLogging s) in
  fst (PollHelper.startCsvLogging s) = Threw "ENOENT"
  /\ PollStatus.getCsvLoggingStatus s1
     = {| PollStatus.enabled := true;
          PollStatus.filePath := "/data/messwerte_2025-01-01T12-34-56.csv";
          PollStatus.fileExists := false |}.
Proof.
  intros s s1.
  destruct (X23_failed_start_leaves_logging_enabled s "ENOENT" ∅ eq_refl eq_refl)
    as (Hthrow & _ & Hstatus & _).
  split; [exact Hthrow|exact Hstatus].
Defined.

(** * Properties of logging.ts and tab.ts, and of the log files *)

Section Kept.
Import PollHelper.

Lemma append_empty (a : string) : a +:+ "" = a.
Proof.
  induction a as [|x a IH]; [reflexivity|].
  change (String x (a +:+ "") = String x a). f_equal. exact IH.
Qed.

Lemma kept_refl f : kept f f.
Proof. intros path content H. exists "". now rewrite append_empty. Qed.

Lemma kept_trans f g h : kept f g -> kept g h -> kept f h.
Proof.
  intros Hfg Hgh path content H.
  destruct (Hfg path content H) as [a Ha].
  destruct (Hgh path _ Ha) as [b Hb].
  exists (a +:+ b). rewrite Hb. f_equal. apply append_assoc.
Qed.

Lemma kept_view s s' : csv_view s' = csv_view s -> kept (files (runtime s)) (files (runtime s')).
Proof.
  unfold csv_view. intros [= _ _ E _]. rewrite E. apply kept_refl.
Qed.

Lemma kept_logMeasurementToCsv s :
  kept (files (runtime s)) (files (runtime (logMeasurementToCsv s))).
Proof.
  destruct (logMeasurementToCsv_cases s) as [->|(_ & _ & _ & row & ->)];
    [apply kept_refl|].
  intros path content H. cbn.
  destruct (decide (path = csvFilePath s)) as [->|Hne].
  - rewrite lookup_insert_eq, H. exists row. reflexivity.
  - rewrite lookup_insert_ne by congruence. exists "". now rewrite append_empty.
Qed.

Lemma kept_read_settled i o s :
  kept (files (runtime s)) (files (runtime (read_settled i o s))).
Proof.
  unfold read_settled.
  destruct (invocations (runtime s) !! i) as [inv|]; [|apply kept_refl].
  destruct (inv_stage inv), o as [x|e|]; try apply kept_refl;
    try (apply kept_view;
         rewrite ?csv_view_request_read, ?csv_view_finally_block; reflexivity).
  - apply kept_view. rewrite csv_view_request_read.
    destruct (number_lt _ _); reflexivity.
  - eapply kept_trans; [|apply kept_view, csv_view_finally_block].
    apply (kept_logMeasurementToCsv (set_currentValue (Math_round x) s)).
Qed.

Lemma kept_step s e :
  no_csv_start e -> kept (files (runtime s)) (files (runtime (step s e))).
Proof.
  intros He. destruct e; cbn [step]; try apply kept_refl.
  - apply kept_view, csv_view_startPollingCDS.
  - apply kept_view, csv_view_stopPollingCDS.
  - unfold cleanup_elapsed.
    destruct (invocations (runtime s) !! i) as [inv|]; [|apply kept_refl].
    destruct (inv_stage inv); try apply kept_refl.
    apply kept_view, csv_view_connect_and_poll.
  - apply kept_read_settled.
  - unfold timeout_fired.
    destruct (timeouts (runtime s) !! k) as [[ip intervalMs]|]; [|apply kept_refl].
    apply kept_view. rewrite csv_view_startPollingCDS. reflexivity.
  - unfold startSinkPowerPolling. destruct (sinkPowerInterval s); apply kept_refl.
  - unfold stopSinkPowerPolling. destruct (sinkPowerInterval s); apply kept_refl.
  - unfold interval_fired. destruct (sinkPowerInterval s); apply kept_refl.
  - apply kept_view, csv_view_tick_settled.
  - destruct He.
Qed.

Lemma kept_run later : forall s,
  Forall no_csv_start later -> kept (files (runtime s)) (files (runtime (run s later))).
Proof.
  induction later as [|e later IH]; intros s H; [apply kept_refl|].
  apply Forall_cons in H as [He H].
  eapply kept_trans; [apply kept_step, He|]. apply (IH (step s e) H).
Qed.

End Kept.

(** X24.  Logged rows are kept: as long as [startCsvLogging] is not called
    again, no file is removed or cut, and whatever a file holds stays at the
    front of its content, whichever polls, ticks, stops and failures
    follow. *)
Theorem X24_logged_rows_are_kept (s : PollHelper.State) (later : list PollHelper.event)
    (path content : string) :
  Forall no_csv_start later ->
  PollHelper.files (PollHelper.runtime s) !! path = Some content ->
  exists added,
    PollHelper.files (PollHelper.runtime (PollHelper.run s later)) !! path
    = Some (content +:+ added).
Proof. intros Hlater H. exact (kept_run later s Hlater path content H). Qed.

Lemma X24_logged_rows_are_kept_witness :
  let s := PollHelper.run (PollHelper.init "/data")
             [PollHelper.ClockAdvanced "2025-01-01T12:34:56.789Z";
              PollHelper.CallStartCsvLogging] in
  let later := [PollHelper.CallStartPollingCDS "192.168.100.80" 400;
                PollHelper.ReadSettled 0 (Returned (Finite 400));
                PollHelper.ReadSettled 0 (Returned (Finite 5000));
                PollHelper.ReadSettled 0 (Returned (Finite 12));
                PollHelper.CallStopCsvLogging;
                PollHelper.CallStopPollingCDS] in
  PollHelper.files (PollHelper.runtime (PollHelper.run s later))
    !! "/data/messwerte_2025-01-01T12-34-56.csv"
  = Some (PollHelper.header
            +:+ "2025-01-01T12:34:56.789Z,5000,400,12,,false" +:+ String "010" "")
  /\ exists added,
       PollHelper.files (PollHelper.runtime (PollHelper.run s later))
         !! "/data/messwerte_2025-01-01T12-34-56.csv"
       = Some (PollHelper.header +:+ added).
Proof.
  intros s later. split; [reflexivity|].
  apply (X24_logged_rows_are_kept s later).
  - repeat constructor.
  - reflexivity.
Defined.

Section LogFile.

Lemma pad_two_digits (n : Z) :
  (1 <= n <= 31)%Z ->
  slice_last 2 ("0" +:+ Number_toString (inject_Z n)) = two_digits n.
Proof.
  intros Hn.
  assert (Hall : forallb (fun n => String.eqb
                            (slice_last 2 ("0" +:+ Number_toString (inject_Z n)))
                            (two_digits n)) (range 1 31) = true)
    by (vm_compute; reflexivity).
  apply String.eqb_eq.
  apply (range_forallb _ 1 31 n Hall). lia.
Qed.

End LogFile.

(** X25.  The log file of a day is Log-File-YYYY-MM-DD.log in the log
    directory: the month, which [getMonth()] counts from 0, is counted from
    1, and month and day are written with two digits, a leading zero
    below 10. *)
Theorem X25_log_file_name (logfilePath : string) (fullYear month date : Z) :
  (0 <= month <= 11)%Z -> (1 <= date <= 31)%Z ->
  Logging.getCurrentDate fullYear month date
  = Number_toString (inject_Z fullYear) +:+ "-" +:+ two_digits (month + 1)
      +:+ "-" +:+ two_digits date
  /\ Logging.resolvePathFn logfilePath fullYear month date
     = logfilePath +:+ "/Log-File-" +:+ Number_toString (inject_Z fullYear)
         +:+ "-" +:+ two_digits (month + 1) +:+ "-" +:+ two_digits date +:+ ".log".
Proof.
  intros Hm Hd.
  assert (E : Logging.getCurrentDate fullYear month date
              = Number_toString (inject_Z fullYear) +:+ "-" +:+ two_digits (month + 1)
                  +:+ "-" +:+ two_digits date).
  { unfold Logging.getCurrentDate.
    rewrite (pad_two_digits (month + 1)) by lia.
    rewrite (pad_two_digits date) by lia.
    rewrite !append_assoc. reflexivity. }
  split; [exact E|].
  unfold Logging.resolvePathFn, join. rewrite E, !append_assoc. reflexivity.
Qed.

Lemma X25_log_file_name_witness :
  Logging.resolvePathFn "/data/log" 2025 0 5 = "/data/log/Log-File-2025-01-05.log"
  /\ Logging.getCurrentDate 2025 11 31 = "2025-12-31".
Proof.
  destruct (X25_log_file_name "/data/log" 2025 0 5 ltac:(lia) ltac:(lia)) as [_ H1].
  destruct (X25_log_file_name "/data/log" 2025 11 31 ltac:(lia) ltac:(lia)) as [H2 _].
  split; [exact H1|exact H2].
Defined.

Section Tabs.
Import Tab.

Lemma length_append (a b : string) :
  String.length (a +:+ b) = (String.length a + String.length b)%nat.
Proof.
  induction a as [|x a IH]; [reflexivity|].
  change (S (String.length (a +:+ b)) = S (String.length a + String.length b)).
  now rewrite IH.
Qed.

Lemma prefix_append (m b : string) : String.prefix m (m +:+ b) = true.
Proof.
  induction m as [|x m IH]; [destruct b; reflexivity|].
  change (String.prefix (String x m) (String x (m +:+ b)) = true).
  cbn. rewrite IH. destruct (ascii_dec x x); [reflexivity|congruence].
Qed.

(** A text with [m] inside includes [m]. *)
Lemma includes_middle (m a b : string) : includes m ((a +:+ m) +:+ b) = true.
Proof.
  induction a as [|x a IH].
  - change (("" +:+ m) +:+ b) with (m +:+ b).
    destruct (m +:+ b) eqn:E; cbn [includes]; rewrite <- ?E, prefix_append; reflexivity.
  - change ((String x a +:+ m) +:+ b) with (String x ((a +:+ m) +:+ b)).
    cbn [includes]. rewrite IH. apply orb_true_r.
Qed.

Lemma combined_title_left (a b : string) : a <> (a +:+ " || ") +:+ b.
Proof.
  intros E. apply (f_equal String.length) in E.
  rewrite !length_append in E. cbn in E. lia.
Qed.

Lemma combined_title_right (a b : string) : b <> (a +:+ " || ") +:+ b.
Proof.
  intros E. apply (f_equal String.length) in E.
  rewrite !length_append in E. cbn in E. lia.
Qed.

End Tabs.

(** X26.  [closeTab] closes every tab of the title: none of them is left
    (a tab opened twice is closed twice over), the tabs of other titles stay
    in their order, and Home becomes the active tab, whichever tab was
    active and whether or not a tab of the title was open. *)
Theorem X26_closing_a_tab (s : Tab.State) (t : string) (c : Tab.Component) :
  let s' := Tab.closeTab t s in
  Forall (fun e => Tab.title e <> t) (Tab.navigation s')
  /\ Tab.navigation s' `sublist_of` Tab.navigation s
  /\ (forall e, e ∈ Tab.navigation s -> Tab.title e <> t -> e ∈ Tab.navigation s')
  /\ Tab.activeElement s' = "Home"
  /\ Tab.navigation (Tab.openTab t c (Tab.openTab t c s))
     = (Tab.navigation s ++ [ {| Tab.title := t; Tab.component := c |};
                              {| Tab.title := t; Tab.component := c |} ])%list
  /\ Tab.navigation (Tab.closeTab t (Tab.openTab t c (Tab.openTab t c s)))
     = Tab.navigation s'.
Proof.
  intros s'. subst s'. unfold Tab.closeTab.
  assert (Hnav : forall x, Tab.navigation
            (Tab.set_activeElement Tab.defaultElement
               (if includes " || " t
                then Tab.set_splitScreenElements []
                       (Tab.set_splitScreenActive false
                          (Tab.set_navigation
                             (filter (fun element => Tab.title element <> t)
                                (Tab.navigation x)) x))
                else Tab.set_navigation
                       (filter (fun element => Tab.title element <> t)
                          (Tab.navigation x)) x))
            = filter (fun element => Tab.title element <> t) (Tab.navigation x)).
  { intros x. destruct (includes " || " t); reflexivity. }
  cbv zeta. rewrite !Hnav.
  split; [|split; [|split; [|split; [|split]]]].
  - apply Forall_forall. intros e He. apply list_elem_of_filter in He as [He _]. exact He.
  - apply sublist_filter.
  - intros e He Hne. apply list_elem_of_filter. split; assumption.
  - destruct (includes " || " t); reflexivity.
  - unfold Tab.openTab. cbn [Tab.navigation Tab.set_navigation Tab.set_activeElement].
    rewrite <- app_assoc. reflexivity.
  - unfold Tab.openTab. cbn [Tab.navigation Tab.set_navigation Tab.set_activeElement].
    rewrite <- app_assoc, filter_app. cbn [app].
    rewrite filter_cons_False by (cbn; congruence).
    rewrite filter_cons_False by (cbn; congruence).
    rewrite filter_nil, app_nil_r. reflexivity.
Qed.

(** X27.  Split screen, there and back.  With no selection pending, two tabs
    whose titles hold no " || " are selected one after the other: the first
    selection changes nothing but the selection; the second closes every tab
    of the two titles, opens one tab titled first || second at the end of
    the bar, makes it the active tab and switches the split screen on.  Any
    third selection undoes this: the two selected tabs come back at the end
    of the bar, the combined tab is closed, the split screen is off, the
    selection is empty and Home is the active tab; the tab selected third
    is not used. *)
Theorem X27_split_screen_round_trip (s : Tab.State) (a b c : Tab.Item) :
  Tab.splitScreenElements s = [] ->
  includes " || " (Tab.title a) = false ->
  includes " || " (Tab.title b) = false ->
  let both := (Tab.title a +:+ " || ") +:+ Tab.title b in
  let others := filter (fun e => Tab.title e <> Tab.title b)
                  (filter (fun e => Tab.title e <> Tab.title a) (Tab.navigation s)) in
  let s1 := snd (Tab.splitScreen a s) in
  let s2 := snd (Tab.splitScreen b s1) in
  let s3 := snd (Tab.splitScreen c s2) in
  (fst (Tab.splitScreen a s) = Returned tt
   /\ s1 = Tab.set_splitScreenElements [a] s)
  /\ (fst (Tab.splitScreen b s1) = Returned tt
      /\ Tab.navigation s2
         = (others ++ [ {| Tab.title := both; Tab.component := Tab.SplitScreen |} ])%list
      /\ Tab.activeElement s2 = both
      /\ Tab.splitScreenActive s2 = true)
  /\ (fst (Tab.splitScreen c s2) = Returned tt
      /\ Tab.navigation s3 = (filter (fun e => Tab.title e <> both) others ++ [a; b])%list
      /\ Tab.activeElement s3 = "Home"
      /\ Tab.splitScreenActive s3 = false
      /\ Tab.splitScreenElements s3 = []).
Proof.
  intros Hnone Ha Hb both others s1 s2 s3.
  assert (E1 : Tab.splitScreen a s = (Returned tt, Tab.set_splitScreenElements [a] s)).
  { unfold Tab.splitScreen. rewrite Hnone. reflexivity. }
  assert (E2 : Tab.splitScreen b (Tab.set_splitScreenElements [a] s)
               = (Returned tt,
                  Tab.set_splitScreenActive true
                    (Tab.openTab both Tab.SplitScreen
                       (Tab.closeTab (Tab.title b)
                          (Tab.closeTab (Tab.title a)
                             (Tab.set_splitScreenElements [a; b] s)))))).
  { unfold Tab.splitScreen, Tab.select_second, Tab.closeTab. cbn. rewrite Ha. cbn.
    rewrite Hb. reflexivity. }
  subst s1 s2 s3. rewrite E1. cbn [fst snd]. rewrite E2. cbn [fst snd].
  set (st2 := Tab.set_splitScreenActive true
                (Tab.openTab both Tab.SplitScreen
                   (Tab.closeTab (Tab.title b)
                      (Tab.closeTab (Tab.title a)
                         (Tab.set_splitScreenElements [a; b] s))))).
  assert (N2 : Tab.navigation st2
               = (others ++ [ {| Tab.title := both; Tab.component := Tab.SplitScreen |} ])%list).
  { subst st2. unfold Tab.closeTab. rewrite Ha, Hb. reflexivity. }
  assert (L2 : Tab.splitScreenElements st2 = [a; b]).
  { subst st2. unfold Tab.closeTab. rewrite Ha, Hb. reflexivity. }
  assert (A2 : Tab.activeElement st2 = both) by reflexivity.
  assert (S2 : Tab.splitScreenActive st2 = true) by reflexivity.
  split; [split; reflexivity|].
  split; [split; [reflexivity|split; [exact N2|split; assumption]]|].
  clearbody st2.
  unfold Tab.splitScreen. cbn [Tab.splitScreenElements Tab.set_splitScreenElements].
  rewrite L2. cbn [app length Nat.eqb Nat.ltb Nat.leb].
  unfold Tab.select_third.
  cbn [Tab.splitScreenElements Tab.set_splitScreenElements lookup list_lookup].
  cbn [fst snd]. fold both.
  unfold Tab.closeTab.
  replace (includes " || " both) with true by (symmetry; apply includes_middle).
  cbn [Tab.navigation Tab.set_navigation Tab.set_splitScreenElements
       Tab.set_splitScreenActive Tab.set_activeElement Tab.activeElement
       Tab.splitScreenActive Tab.splitScreenElements].
  rewrite N2.
  split; [reflexivity|]. split; [|repeat split].
  rewrite <- app_assoc, !filter_app. cbn [app].
  rewrite (filter_cons_False _ {| Tab.title := both; Tab.component := Tab.SplitScreen |})
    by (cbn; congruence).
  rewrite filter_nil.
  rewrite (filter_cons_True _ a) by (apply combined_title_left).
  rewrite (filter_cons_True _ b) by (apply combined_title_right).
  rewrite filter_nil. reflexivity.
Qed.

Lemma X27_split_screen_round_trip_witness :
  let config := {| Tab.title := "Config"; Tab.component := Tab.Page "ConfigPage" |} in
  let load := {| Tab.title := "Load"; Tab.component := Tab.Page "LoadSession" |} in
  let remote := {| Tab.title := "Remote"; Tab.component := Tab.Page "RemotePage" |} in
  let s := {| Tab.activeElement := "Remote"; Tab.navigation := [config; load; remote];
              Tab.splitScreenActive := false; Tab.splitScreenPossible := true;
              Tab.splitScreenElements := [] |} in
  let s2 := snd (Tab.splitScreen remote (snd (Tab.splitScreen config s))) in
  let s3 := snd (Tab.splitScreen load s2) in
  Tab.navigation s2
  = [load; {| Tab.title := "Config || Remote"; Tab.component := Tab.SplitScreen |}]
  /\ Tab.navigation s3 = [load; config; remote]
  /\ Tab.activeElement s3 = "Home".
Proof.
  intros config load remote s s2 s3.
  destruct (X27_split_screen_round_trip s config remote load eq_refl eq_refl eq_refl)
    as (_ & (_ & H2 & _) & (_ & H3 & H4 & _)).
  split; [exact H2|]. split; [exact H3|exact H4].
Defined.

(** X28.  A tab that is itself a split screen (its title holds " || ")
    cannot be one of the two: the second selection then throws a
    TypeError, and by then [closeTab] has closed the tab selected first,
    emptied the selection, switched the split screen off and made Home the
    active tab; no tab has been opened. *)
Theorem X28_split_of_a_split_tab_throws (s : Tab.State) (a b : Tab.Item) :
  Tab.splitScreenElements s = [a] ->
  includes " || " (Tab.title a) = true \/ includes " || " (Tab.title b) = true ->
  let s' := snd (Tab.splitScreen b s) in
  fst (Tab.splitScreen b s) = Threw Tab.undefined_title
  /\ Forall (fun e => Tab.title e <> Tab.title a) (Tab.navigation s')
  /\ Tab.navigation s' `sublist_of` Tab.navigation s
  /\ Tab.splitScreenElements s' = []
  /\ Tab.splitScreenActive s' = false
  /\ Tab.activeElement s' = "Home".
Proof.
  intros Hone Hsplit s'. subst s'.
  unfold Tab.splitScreen, Tab.select_second, Tab.closeTab. rewrite Hone. cbn.
  destruct (includes " || " (Tab.title a)) eqn:Ha; cbn.
  - split; [reflexivity|]. split; [|split; [apply sublist_filter|repeat split]].
    apply Forall_forall. intros e He. apply list_elem_of_filter in He as [He _]. exact He.
  - destruct Hsplit as [Hx|Hb]; [discriminate|]. rewrite Hb. cbn.
    split; [reflexivity|]. split; [|split; [|repeat split]].
    + apply Forall_forall. intros e He.
      apply list_elem_of_filter in He as [_ He].
      apply list_elem_of_filter in He as [He _]. exact He.
    + etransitivity; apply sublist_filter.
Qed.

Lemma X28_split_of_a_split_tab_throws_witness :
  let both := {| Tab.title := "Config || Remote"; Tab.component := Tab.SplitScreen |} in
  let load := {| Tab.title := "Load"; Tab.component := Tab.Page "LoadSession" |} in
  let s := {| Tab.activeElement := "Config || Remote"; Tab.navigation := [load; both];
              Tab.splitScreenActive := true; Tab.splitScreenPossible := false;
              Tab.splitScreenElements := [both] |} in
  fst (Tab.splitScreen load s) = Threw Tab.undefined_title
  /\ Tab.navigation (snd (Tab.splitScreen load s)) = [load].
Proof.
  intros both load s.
  destruct (X28_split_of_a_split_tab_throws s both load eq_refl (or_introl eq_refl))
    as (H & _).
  split; [exact H|reflexivity].
Defined.

Section SplitFlag.
Import Tab.

Lemma possible_closeTab t s :
  splitScreenPossible (closeTab t s) = splitScreenPossible s.
Proof. unfold closeTab. destruct (includes " || " t); reflexivity. Qed.

Lemma possible_select_second s :
  splitScreenPossible (snd (select_second s)) = splitScreenPossible s.
Proof.
  unfold select_second. repeat case_match; cbn [snd];
    unfold openTab; cbn [splitScreenPossible set_splitScreenActive set_navigation
                         set_activeElement];
    rewrite ?possible_closeTab; reflexivity.
Qed.

Lemma possible_select_third s :
  splitScreenPossible (snd (select_third s)) = splitScreenPossible s.
Proof.
  unfold select_third. repeat case_match; cbn [snd];
    cbn [splitScreenPossible set_splitScreenActive set_splitScreenElements];
    rewrite ?possible_closeTab; reflexivity.
Qed.

End SplitFlag.

(** X29.  [splitScreenPossible] is computed when the active tab is changed
    and at no other time: [changeActiveTab] makes the tab active, leaves the
    tabs as they are and sets the flag exactly when more than two tabs are
    open; [openTab], [closeTab] and [splitScreen] leave the flag as it is,
    so after tabs are closed it can stay set with two tabs or fewer. *)
Theorem X29_split_screen_possible (s : Tab.State) (t : string) (c : Tab.Component)
    (item : Tab.Item) :
  (Tab.splitScreenPossible (Tab.changeActiveTab t s) = true
   <-> (2 < length (Tab.navigation s))%nat)
  /\ Tab.activeElement (Tab.changeActiveTab t s) = t
  /\ Tab.navigation (Tab.changeActiveTab t s) = Tab.navigation s
  /\ Tab.splitScreenPossible (Tab.openTab t c s) = Tab.splitScreenPossible s
  /\ Tab.splitScreenPossible (Tab.closeTab t s) = Tab.splitScreenPossible s
  /\ Tab.splitScreenPossible (snd (Tab.splitScreen item s)) = Tab.splitScreenPossible s.
Proof.
  split; [|split; [reflexivity|split; [reflexivity|split; [reflexivity|split]]]].
  - unfold Tab.changeActiveTab, Tab.handleSplitScreen.
    cbn [Tab.splitScreenPossible Tab.set_activeElement Tab.set_splitScreenPossible].
    apply Nat.ltb_lt.
  - apply possible_closeTab.
  - unfold Tab.splitScreen.
    set (s0 := Tab.set_splitScreenElements (Tab.splitScreenElements s ++ [item]) s).
    assert (H0 : Tab.splitScreenPossible s0 = Tab.splitScreenPossible s) by reflexivity.
    destruct (length (Tab.splitScreenElements s0) =? 2)%nat.
    + pose proof (possible_select_second s0) as H2.
      destruct (Tab.select_second s0) as [[[]|e|] s1]; cbn [snd] in *; try congruence.
      destruct (2 <? length (Tab.splitScreenElements s1))%nat; cbn [snd]; [|congruence].
      rewrite possible_select_third. congruence.
    + destruct (2 <? length (Tab.splitScreenElements s0))%nat; cbn [snd]; [|congruence].
      rewrite possible_select_third. congruence.
Qed.

Lemma X29_split_screen_possible_witness :
  let config := {| Tab.title := "Config"; Tab.component := Tab.Page "ConfigPage" |} in
  let load := {| Tab.title := "Load"; Tab.component := Tab.Page "LoadSession" |} in
  let remote := {| Tab.title := "Remote"; Tab.component := Tab.Page "RemotePage" |} in
  let s := {| Tab.activeElement := "Home"; Tab.navigation := [config; load; remote];
              Tab.splitScreenActive := false; Tab.splitScreenPossible := false;
              Tab.splitScreenElements := [] |} in
  let s1 := Tab.changeActiveTab "Load" s in
  let s2 := Tab.closeTab "Remote" (Tab.closeTab "Load" s1) in
  Tab.splitScreenPossible s1 = true
  /\ Tab.navigation s2 = [config]
  /\ Tab.splitScreenPossible s2 = true.
Proof.
  intros config load remote s s1 s2.
  destruct (X29_split_screen_possible s "Load" (Tab.Page "LoadSession") load)
    as ([_ Hset] & _).
  assert (H1 : Tab.splitScreenPossible s1 = true) by (apply Hset; cbn; lia).
  split; [exact H1|]. split; [reflexivity|].
  destruct (X29_split_screen_possible (Tab.closeTab "Load" s1) "Remote"
              (Tab.Page "RemotePage") remote) as (_ & _ & _ & _ & Hc2 & _).
  destruct (X29_split_screen_possible s1 "Load" (Tab.Page "LoadSession") load)
    as (_ & _ & _ & _ & Hc1 & _).
  subst s2. rewrite Hc2, Hc1. exact H1.
Defined.
